(** * Document ingestion and embedding pipeline

    A shallow embedding of the ingestion route ([POST] of
    [app/api/retrieval/process/route.ts], latest revision), of the PDF
    extractor ([lib/retrieval/processing/pdf.ts]) and of the client retry
    driver ([processFileInBackground] in [db/files.ts]).

    Conventions.
    - A character of a [string] stands for one UTF-16 code unit of the
      JavaScript string, in the range 0 to 255; text with code units
      above 255 has no counterpart here.
    - Token counts are array lengths ([encode(text).length]), hence [N].
    - A JavaScript exception is a value of [JsError]; code that can throw
      lives in the state-and-error monad [M] over [World].
    - The collaborators that are not part of the repository (record store
      faults, blob storage, tokenizer, text splitter, embedding providers,
      the request body) are fields of [Env]; every theorem quantifies over
      them unless it says otherwise. *)

From Stdlib Require Import List String Ascii NArith Arith Bool Lia.
From Equations Require Import Equations.
Import ListNotations.

Set Implicit Arguments.

(* ================================================================== *)
(** * Strings as the handlers use them *)
(* ================================================================== *)

(** [hay.includes(needle)]. *)
Fixpoint includes (hay needle : string) : bool :=
  String.prefix needle hay
  || match hay with
     | EmptyString => false
     | String _ hay' => includes hay' needle
     end.

(** [String.prototype.toLowerCase] on one code unit below 256: the
    letters A to Z, and the capital letters U+00C0 to U+00DE but the
    multiplication sign U+00D7, move up by 32. *)
Definition lowerAscii (c : ascii) : ascii :=
  let n := nat_of_ascii c in
  if ((65 <=? n)%nat && (n <=? 90)%nat)
     || ((192 <=? n)%nat && (n <=? 222)%nat && negb (n =? 215)%nat)
  then ascii_of_nat (n + 32) else c.

Fixpoint toLowerCase (s : string) : string :=
  match s with
  | EmptyString => EmptyString
  | String c s' => String (lowerAscii c) (toLowerCase s')
  end.

(** [s.split(".").pop()]: the text after the last dot, the whole string
    when there is none.  [acc] is the segment read so far. *)
Fixpoint lastSegment (acc s : string) : string :=
  match s with
  | EmptyString => acc
  | String c s' =>
      if Ascii.eqb c "."%char then lastSegment EmptyString s'
      else lastSegment (acc ++ String c EmptyString) s'
  end.

Definition splitPop (s : string) : string := lastSegment EmptyString s.

(** The white space and line terminators [String.prototype.trim]
    removes, among the code units below 256: U+0009 to U+000D, U+0020 and
    the no-break space U+00A0.  (The others, U+1680, U+2000 to U+200A,
    U+2028, U+2029, U+202F, U+205F, U+3000 and U+FEFF, lie above 255.) *)
Definition isWhiteSpace (c : ascii) : bool :=
  let n := nat_of_ascii c in
  ((9 <=? n)%nat && (n <=? 13)%nat) || (n =? 32)%nat || (n =? 160)%nat.

(** [!s.trim()]: nothing but white space. *)
Fixpoint trimIsEmpty (s : string) : bool :=
  match s with
  | EmptyString => true
  | String c s' => isWhiteSpace c && trimIsEmpty s'
  end.

(** JavaScript truthiness of a possibly absent string. *)
Definition truthy (s : option string) : bool :=
  match s with
  | Some EmptyString | None => false
  | Some _ => true
  end.

(** [a || b] on strings. *)
Definition orElse (s : option string) (d : string) : string :=
  match s with
  | Some EmptyString | None => d
  | Some x => x
  end.

(* ================================================================== *)
(** * Constants of [lib/retrieval/processing/index.ts] *)
(* ================================================================== *)

Definition CHUNK_SIZE : N := 2000.
Definition CHUNK_OVERLAP : N := 200.
Definition MAX_TOKENS_PER_REQUEST : N := 300000.
Definition MAX_BATCH_TOKENS : N := 250000.

(** [FileItemChunk] of [@/types]. *)
Record FileItemChunk : Type := mkChunk {
  content : string;
  tokens : N
}.

(** A thrown value: [error.name] and [error.message] (possibly absent). *)
Record JsError : Type := mkError {
  err_name : string;
  message : option string
}.

(** [new Error(msg)]. *)
Definition Error (msg : string) : JsError := mkError "Error" (Some msg).

(** [error.message?.includes(needle)]. *)
Definition messageIncludes (e : JsError) (needle : string) : bool :=
  match message e with
  | Some m => includes m needle
  | None => false
  end.

(* ================================================================== *)
(** * Records of the record store, the request and the response *)
(* ================================================================== *)

(** [processing_status], with the five values of the column's CHECK
    constraint. *)
Inductive ProcessingStatus : Type :=
| pending | processing | completed | failed | timeout.

Definition status_eqb (a b : ProcessingStatus) : bool :=
  match a, b with
  | pending, pending | processing, processing | completed, completed
  | failed, failed | timeout, timeout => true
  | _, _ => false
  end.

(** A row of [files] (the columns the route reads or writes). *)
Record FileRow : Type := mkFile {
  f_id : string;
  f_user_id : string;
  f_name : string;
  f_file_path : string;
  f_size : N;
  f_tokens : option N;
  processing_status : ProcessingStatus;
  processing_error : option string;
  processing_started_at : option string;
  processing_completed_at : option string
}.

Record Profile : Type := mkProfile {
  p_user_id : string;
  use_azure_openai : bool;
  azure_openai_api_key : option string;
  openai_api_key : option string
}.

(** The two fields the route reads from the multipart body. *)
Record FormData : Type := mkForm {
  fd_file_id : option string;
  fd_embeddingsProvider : option string
}.

(** A downloaded blob: [arrayBuffer()] yields its bytes or throws. *)
Record Blob : Type := mkBlob { arrayBuffer : JsError + string }.

(** [{ data, error }] of [storage.from("files").download(path)]. *)
Record DownloadResult : Type := mkDownload {
  dl_data : option Blob;
  dl_error : option string
}.

(** A page returned by [PDFLoader.load()]. *)
Record Doc : Type := mkDoc { pageContent : string }.

Record Statistics : Type := mkStats {
  totalChunks : N;
  totalTokens : N;
  batchesProcessed : N;
  processingTimeMs : option N
}.

Inductive Body : Type :=
| SuccessBody (msg : string) (statistics : Statistics)
| ErrorBody (msg : string) (elapsedMs : N) (detail : option string).

Record Response : Type := mkResponse {
  status : N;
  body : Body
}.

Definition BATCH_SIZE : nat := 50.

Section World.

(** An embedding vector is an opaque payload for this subsystem. *)
Variable Embedding : Type.

(** A row of [file_items]. *)
Record FileItemRow : Type := mkItem {
  fi_file_id : string;
  fi_user_id : string;
  fi_content : string;
  fi_tokens : N;
  openai_embedding : option Embedding;
  local_embedding : option Embedding
}.

(** What a run can change or observe having changed:
    the two tables, the requests sent to the embedding provider (in
    order), how many times the request body was read, and how many
    writes were issued to the record store. *)
Record World : Type := mkWorld {
  files : list FileRow;
  file_items : list FileItemRow;
  requests : list (list string);
  bodyReads : nat;
  writes : nat
}.

(** The collaborators.  [req_formData n] is the outcome of the [n]-th
    call of [req.formData()], [write_fault n] the error with which the
    record store refuses the [n]-th write, if it does (the error comes
    back in the result of the call, it is not thrown),
    [embeddings_create n input] the provider's answer to the [n]-th
    request. *)
Record Env : Type := mkEnv {
  getServerProfile : JsError + Profile;
  req_formData : nat -> JsError + FormData;
  metadata_fault : option string;
  items_fault : bool;
  write_fault : nat -> option JsError;
  storage_download : string -> DownloadResult;
  checkApiKey : option string -> string -> option JsError;
  processCSV : string -> JsError + list FileItemChunk;
  processJSON : string -> JsError + list FileItemChunk;
  processMarkdown : string -> JsError + list FileItemChunk;
  processTxt : string -> JsError + list FileItemChunk;
  pdf_load : string -> JsError + list Doc;
  encode : string -> list N;
  createDocuments : N -> N -> string -> JsError + list string;
  embeddings_create : nat -> list string -> JsError + list Embedding;
  generateLocalEmbedding : string -> JsError + Embedding;
  now : string;
  processingTime : N;
  development : bool
}.

(** ** The monad of the route: state [World], exceptions [JsError] *)

Definition M (A : Type) : Type := World -> (JsError + A) * World.

Definition ret {A} (a : A) : M A := fun w => (inr a, w).

Definition throw {A} (e : JsError) : M A := fun w => (inl e, w).

Definition bind {A B} (m : M A) (k : A -> M B) : M B :=
  fun w =>
    match m w with
    | (inl e, w') => (inl e, w')
    | (inr a, w') => k a w'
    end.

(** [try { m } catch (e) { h e }]. *)
Definition tryCatch {A} (m : M A) (h : JsError -> M A) : M A :=
  fun w =>
    match m w with
    | (inl e, w') => h e w'
    | (inr a, w') => (inr a, w')
    end.

(** A pure computation that may throw. *)
Definition lift {A} (r : JsError + A) : M A :=
  match r with
  | inl e => throw e
  | inr a => ret a
  end.

End World.

Arguments ret {Embedding A} a w.
Arguments throw {Embedding A} e w.
Arguments bind {Embedding A B} m k w.
Arguments tryCatch {Embedding A} m h w.
Arguments lift {Embedding A} r.
Arguments mkWorld {Embedding}.

Declare Scope route_scope.
Delimit Scope route_scope with route.
Notation "x <- m ;; k" := (bind m (fun x => k))
  (at level 61, m at next level, right associativity) : route_scope.
Notation "m ;;; k" := (bind m (fun _ => k))
  (at level 61, right associativity) : route_scope.

Section Route.

Context {Embedding : Type}.
Variable env : Env Embedding.

Local Open Scope string_scope.
Local Open Scope list_scope.
Local Open Scope route_scope.

(* ================================================================== *)
(** * Primitive effects *)
(* ================================================================== *)

(** [await req.formData()]: the outcome the platform gives to this read
    of the body; the read is counted. *)
Definition formDataOf : M Embedding FormData :=
  fun w =>
    let w' := mkWorld (files w) (file_items w) (requests w)
                      (S (bodyReads w)) (writes w) in
    (req_formData env (bodyReads w), w').

(** [client.embeddings.create({ model, input })] followed by
    [response.data.map(item => item.embedding)]: the request is logged,
    then the provider answers or throws. *)
Definition createEmbeddings (input : list string) : M Embedding (list Embedding) :=
  fun w =>
    let w' := mkWorld (files w) (file_items w) (requests w ++ [input])
                      (bodyReads w) (writes w) in
    (embeddings_create env (List.length (requests w)) input, w').

(** [await supabaseAdmin.from("files").update(patch).eq("id", file_id)]
    with the result discarded: the call resolves to [{ data, error }]
    and the route looks at neither, so a write that fails changes
    nothing and throws nothing; a write that succeeds patches every row
    with that id. *)
Definition updateFiles (patch : FileRow -> FileRow) (file_id : string) : M Embedding unit :=
  fun w =>
    match write_fault env (writes w) with
    | Some _ =>
        (inr tt, mkWorld (files w) (file_items w) (requests w)
                         (bodyReads w) (S (writes w)))
    | None =>
        (inr tt,
         mkWorld (map (fun row => if String.eqb (f_id row) file_id
                                  then patch row else row) (files w))
                 (file_items w) (requests w) (bodyReads w) (S (writes w)))
    end.

(** [await supabaseAdmin.from("file_items").upsert(rows)] with the
    result discarded, as for [updateFiles]: a failed upsert stores
    nothing and throws nothing.  The rows carry no key, so a successful
    one appends them. *)
Definition upsertItems (rows : list (FileItemRow Embedding)) : M Embedding unit :=
  fun w =>
    match write_fault env (writes w) with
    | Some _ =>
        (inr tt, mkWorld (files w) (file_items w) (requests w)
                         (bodyReads w) (S (writes w)))
    | None =>
        (inr tt,
         mkWorld (files w) (file_items w ++ rows) (requests w)
                 (bodyReads w) (S (writes w)))
    end.

(** [from("files").select("*").eq("id", file_id).single()] with the two
    checks that follow it. *)
Definition selectFile (file_id : string) : M Embedding FileRow :=
  fun w =>
    match metadata_fault env with
    | Some m =>
        (inl (Error ("Failed to retrieve file metadata: " ++ m)%string), w)
    | None =>
        match find (fun row => String.eqb (f_id row) file_id) (files w) with
        | None => (inl (Error "File not found in database"), w)
        | Some fileMetadata => (inr fileMetadata, w)
        end
    end.

(** [from("file_items").select("id").eq("file_id", file_id).limit(1)]:
    [data] is [null] when the query failed. *)
Definition selectExistingChunks (file_id : string)
  : M Embedding (option (list (FileItemRow Embedding))) :=
  fun w =>
    if items_fault env then (inr None, w)
    else (inr (Some (firstn 1 (filter (fun r => String.eqb (fi_file_id r) file_id)
                                      (file_items w)))), w).

(* ================================================================== *)
(** * [processBatchEmbeddings] *)
(* ================================================================== *)

(** The four variables of the OpenAI branch. *)
Record SubBatchState : Type := mkState {
  batchEmbeddings : list (option Embedding);
  currentSubBatch : list string;
  currentSubBatchTokens : N;
  skippedChunks : nat
}.

(** The [for] loop over [batchChunks]. *)
Fixpoint subBatchLoop (batchChunks : list FileItemChunk) (st : SubBatchState)
  : M Embedding SubBatchState :=
  match batchChunks with
  | [] => ret st
  | chunk :: rest =>
      let chunkTokens := tokens chunk in
      if (MAX_TOKENS_PER_REQUEST <? chunkTokens)%N then
        subBatchLoop rest
          (mkState (batchEmbeddings st ++ [None]) (currentSubBatch st)
                   (currentSubBatchTokens st) (S (skippedChunks st)))
      else if (MAX_BATCH_TOKENS <? currentSubBatchTokens st + chunkTokens)%N
              && (0 <? List.length (currentSubBatch st))%nat then
        response <- createEmbeddings (currentSubBatch st) ;;
        subBatchLoop rest
          (mkState (batchEmbeddings st ++ map Some response) [content chunk]
                   chunkTokens (skippedChunks st))
      else
        subBatchLoop rest
          (mkState (batchEmbeddings st) (currentSubBatch st ++ [content chunk])
                   (currentSubBatchTokens st + chunkTokens)%N (skippedChunks st))
  end.

(** "Process remaining chunks in the last sub-batch". *)
Definition flushLast (st : SubBatchState) : M Embedding SubBatchState :=
  if (0 <? List.length (currentSubBatch st))%nat then
    response <- createEmbeddings (currentSubBatch st) ;;
    ret (mkState (batchEmbeddings st ++ map Some response) (currentSubBatch st)
                 (currentSubBatchTokens st) (skippedChunks st))
  else ret st.

Definition processBatchEmbeddings (batchChunks : list FileItemChunk) (provider : string)
  : M Embedding (list (option Embedding)) :=
  if String.eqb provider "openai" then
    st <- subBatchLoop batchChunks (mkState [] [] 0%N 0%nat) ;;
    st' <- flushLast st ;;
    ret (batchEmbeddings st')
  else if String.eqb provider "local" then
    ret (map (fun chunk =>
                match generateLocalEmbedding env (content chunk) with
                | inr embedding => Some embedding
                | inl _ => None
                end) batchChunks)
  else ret [].

(* ================================================================== *)
(** * [processPdf] *)
(* ================================================================== *)

(** [encode(text).length]. *)
Definition tokenCount (text : string) : N := N.of_nat (List.length (encode env text)).

(** The loop over the pages; [chunks] is the array built so far. *)
Fixpoint pdfPages (docs : list Doc) (chunks : list FileItemChunk)
  : JsError + list FileItemChunk :=
  match docs with
  | [] => inr chunks
  | doc :: rest =>
      let pageContent := pageContent doc in
      if trimIsEmpty pageContent then pdfPages rest chunks
      else
        let pageTokens := tokenCount pageContent in
        if (pageTokens <=? CHUNK_SIZE)%N then
          pdfPages rest (chunks ++ [mkChunk pageContent pageTokens])
        else
          match createDocuments env CHUNK_SIZE CHUNK_OVERLAP pageContent with
          | inl e => inl e
          | inr splitDocs =>
              pdfPages rest
                (chunks ++ map (fun splitDoc => mkChunk splitDoc (tokenCount splitDoc))
                               splitDocs)
          end
  end.

Definition processPdf (pdf : string) : JsError + list FileItemChunk :=
  match pdf_load env pdf with
  | inl e => inl e
  | inr docs => pdfPages docs []
  end.

(* ================================================================== *)
(** * [processFileInBatches] *)
(* ================================================================== *)

(** [array.map((x, index) => f x index)], counting from [index]. *)
Fixpoint mapIndexFrom {A B} (f : A -> nat -> B) (index : nat) (l : list A) : list B :=
  match l with
  | [] => []
  | x :: l' => f x index :: mapIndexFrom f (S index) l'
  end.

(** [array.slice(i, j)]. *)
Definition slice {A} (i j : nat) (l : list A) : list A := firstn (j - i) (skipn i l).

(** [batchEmbeddings[index] || null]. *)
Definition embeddingAt (batchEmbeddings : list (option Embedding)) (index : nat)
  : option Embedding := nth index batchEmbeddings None.

(** The rows written for one batch. *)
Definition fileItemsOf (file_id user_id embeddingsProvider : string)
    (batchChunks : list FileItemChunk) (batchEmbeddings : list (option Embedding))
  : list (FileItemRow Embedding) :=
  mapIndexFrom
    (fun chunk index =>
       mkItem file_id user_id (content chunk) (tokens chunk)
         (if String.eqb embeddingsProvider "openai"
          then embeddingAt batchEmbeddings index else None)
         (if String.eqb embeddingsProvider "local"
          then embeddingAt batchEmbeddings index else None))
    0 batchChunks.

(** [for (let i = 0; i < chunks.length; i += BATCH_SIZE)], from index [i].
    Every turn advances [i] by [BATCH_SIZE], so [fuel = chunks.length]
    turns are never exhausted (lemma [batchLoop_fuel]). *)
Fixpoint batchLoop (fuel : nat) (file_id user_id embeddingsProvider : string)
    (chunks : list FileItemChunk) (i : nat) : M Embedding unit :=
  match fuel with
  | O => ret tt
  | S fuel' =>
      if (i <? List.length chunks)%nat then
        let batchChunks := slice i (i + BATCH_SIZE) chunks in
        batchEmbeddings <- processBatchEmbeddings batchChunks embeddingsProvider ;;
        upsertItems (fileItemsOf file_id user_id embeddingsProvider
                                 batchChunks batchEmbeddings) ;;;
        batchLoop fuel' file_id user_id embeddingsProvider chunks (i + BATCH_SIZE)
      else ret tt
  end.

(** The [switch] on the extension. *)
Definition extractChunks (fileExtension blob : string) : JsError + list FileItemChunk :=
  if String.eqb fileExtension "csv" then processCSV env blob
  else if String.eqb fileExtension "json" then processJSON env blob
  else if String.eqb fileExtension "md" then processMarkdown env blob
  else if String.eqb fileExtension "pdf" then processPdf blob
  else if String.eqb fileExtension "txt" then processTxt env blob
  else inl (Error "Unsupported file type").

(** [chunks.reduce((acc, chunk) => acc + chunk.tokens, 0)]. *)
Definition sumTokens (chunks : list FileItemChunk) : N :=
  fold_left (fun acc chunk => (acc + tokens chunk)%N) chunks 0%N.

(** Returns the two counters the closure assigns,
    [(totalChunks, totalTokens)]. *)
Definition processFileInBatches (file_id user_id embeddingsProvider : string)
    (fileExtension blob : string) : M Embedding (nat * N) :=
  chunks <- lift (extractChunks fileExtension blob) ;;
  if (List.length chunks =? 0)%nat then
    throw (Error "File could not be processed or is empty")
  else
    batchLoop (List.length chunks) file_id user_id embeddingsProvider chunks 0 ;;;
    ret (List.length chunks, sumTokens chunks).

(* ================================================================== *)
(** * The route handler [POST] *)
(* ================================================================== *)

(** [`${error.message}`]. *)
Definition interpolate (m : option string) : string :=
  match m with
  | Some x => x
  | None => "undefined"
  end.

(** "Mark file as processing". *)
Definition markProcessing (row : FileRow) : FileRow :=
  mkFile (f_id row) (f_user_id row) (f_name row) (f_file_path row) (f_size row)
         (f_tokens row) processing None (Some (now env))
         (processing_completed_at row).

(** "Update file metadata with total tokens and mark as completed". *)
Definition markCompleted (totalTokens : N) (row : FileRow) : FileRow :=
  mkFile (f_id row) (f_user_id row) (f_name row) (f_file_path row) (f_size row)
         (Some totalTokens) completed None (processing_started_at row)
         (Some (now env)).

(** "Update file status to failed". *)
Definition markFailed (error : JsError) (row : FileRow) : FileRow :=
  let errorStatus := if messageIncludes error "timeout" then timeout else failed in
  mkFile (f_id row) (f_user_id row) (f_name row) (f_file_path row) (f_size row)
         (f_tokens row) errorStatus (Some (orElse (message error) "Unknown error"))
         (processing_started_at row) (Some (now env)).

Definition alreadyProcessed : Response :=
  mkResponse 200 (SuccessBody "File already processed" (mkStats 0 0 0 None)).

Definition embedSuccessful (totalChunks : nat) (totalTokens : N) : Response :=
  mkResponse 200
    (SuccessBody "Embed Successful"
       (mkStats (N.of_nat totalChunks) totalTokens
                (N.of_nat ((totalChunks + (BATCH_SIZE - 1)) / BATCH_SIZE))
                (Some (processingTime env)))).

(** The [checkApiKey] block of the OpenAI provider. *)
Definition checkProviderKey (profile : Profile) : M Embedding unit :=
  let outcome :=
    if use_azure_openai profile
    then checkApiKey env (azure_openai_api_key profile) "Azure OpenAI"
    else checkApiKey env (openai_api_key profile) "OpenAI" in
  match outcome with
  | Some error =>
      throw (mkError (err_name error)
               (Some (interpolate (message error)
                      ++ ", make sure it is configured or else use local embeddings")%string))
  | None => ret tt
  end.

(** From the download to the successful response. *)
Definition processDownloaded (profile : Profile) (file_id embeddingsProvider : string)
    (fileMetadata : FileRow) : M Embedding Response :=
  let download := storage_download env (f_file_path fileMetadata) in
  match dl_error download with
  | Some m => throw (Error ("Failed to retrieve file from storage: " ++ m)%string)
  | None =>
  match dl_data download with
  | None => throw (Error "File not found in storage")
  | Some file =>
  match arrayBuffer file with
  | inl error =>
      throw (Error ("Failed to read file data: " ++ interpolate (message error))%string)
  | inr fileBuffer =>
  if (String.length fileBuffer =? 0)%nat then throw (Error "File is empty")
  else
  let fileExtension := toLowerCase (splitPop (f_name fileMetadata)) in
  if (String.length fileExtension =? 0)%nat then throw (Error "File has no extension")
  else
  (if String.eqb embeddingsProvider "openai" then checkProviderKey profile else ret tt) ;;;
  totals <- processFileInBatches file_id (p_user_id profile) embeddingsProvider
                                 fileExtension fileBuffer ;;
  updateFiles (markCompleted (snd totals)) file_id ;;;
  ret (embedSuccessful (fst totals) (snd totals))
  end end end.

(** The admission checks that follow the validation of the request, and
    the job itself. *)
Definition admission (profile : Profile) (file_id embeddingsProvider : string)
    (fileMetadata : FileRow) : M Embedding Response :=
  existingChunks <- selectExistingChunks file_id ;;
  if match existingChunks with
     | Some rows => (0 <? List.length rows)%nat
     | None => false
     end
  then ret alreadyProcessed
  else
  if status_eqb (processing_status fileMetadata) processing
  then throw (Error "File is currently being processed by another request")
  else
  updateFiles markProcessing file_id ;;;
  processDownloaded profile file_id embeddingsProvider fileMetadata.

(** The [try] block.  The watchdog armed with [setTimeout] throws from a
    timer callback, outside this block; it is not part of the model. *)
Definition tryBlock : M Embedding Response :=
  profile <- lift (getServerProfile env) ;;
  formData <- formDataOf ;;
  if negb (truthy (fd_file_id formData)) || negb (truthy (fd_embeddingsProvider formData))
  then throw (Error "Missing required parameters: file_id and embeddingsProvider")
  else
  let file_id := orElse (fd_file_id formData) EmptyString in
  let embeddingsProvider := orElse (fd_embeddingsProvider formData) EmptyString in
  if negb (String.eqb embeddingsProvider "openai" || String.eqb embeddingsProvider "local")
  then throw (Error "Invalid embeddings provider. Must be 'openai' or 'local'")
  else
  fileMetadata <- selectFile file_id ;;
  if negb (String.eqb (f_user_id fileMetadata) (p_user_id profile))
  then throw (Error "Unauthorized: File belongs to different user")
  else
  if (200 * 1024 * 1024 <? f_size fileMetadata)%N
  then throw (Error "File too large: Maximum size is 200MB")
  else admission profile file_id embeddingsProvider fileMetadata.

(** The inner [try] of the [catch] block: "Update file status to failed". *)
Definition failureFinalize (error : JsError) : M Embedding unit :=
  formData <- formDataOf ;;
  if truthy (fd_file_id formData)
  then updateFiles (markFailed error) (orElse (fd_file_id formData) EmptyString)
  else ret tt.

(** "Categorize errors for better user feedback". *)
Definition categorize (error : JsError) : string * N :=
  if messageIncludes error "timeout" then
    ("Processing timed out. The file is too large or complex for processing.", 408%N)
  else if messageIncludes error "too large" || messageIncludes error "size" then
    ("File is too large for processing. Please try a smaller file.", 413%N)
  else if messageIncludes error "unauthorized" || messageIncludes error "Unauthorized" then
    ("Unauthorized access to file.", 403%N)
  else if messageIncludes error "not found" || messageIncludes error "File not found" then
    ("File not found. It may have been deleted.", 404%N)
  else if messageIncludes error "token" || messageIncludes error "limit" then
    ("File exceeds processing limits. Please try a smaller file.", 413%N)
  else if messageIncludes error "network" || messageIncludes error "connection" then
    ("Network error during processing. Please try again.", 503%N)
  else
    (orElse (message error) "An unexpected error occurred during file processing", 500%N).

Definition errorResponse (error : JsError) : Response :=
  mkResponse (snd (categorize error))
    (ErrorBody (fst (categorize error)) (processingTime env)
               (if development env then message error else None)).

(** The [catch] block. *)
Definition catchBlock (error : JsError) : M Embedding Response :=
  tryCatch (failureFinalize error) (fun statusUpdateError => ret tt) ;;;
  ret (errorResponse error).

Definition POST : M Embedding Response := tryCatch tryBlock catchBlock.

End Route.

(* ================================================================== *)
(** * The client retry driver: [processFileInBackground] *)
(* ================================================================== *)

Module Driver.

Local Open Scope string_scope.
Local Open Scope list_scope.

(** What [fetch] resolves to: [response.ok]; what reading the body gives,
    [JSON.parse(await response.text()).message] or the exception of
    either step; and the time [response.text()] takes to settle.  The
    body is read only when the response is not ok, and after the abort
    timer is cleared. *)
Record FetchResponse : Type := mkFetch {
  ok : bool;
  json_message : JsError + string;
  text_time : N
}.

(** The notifications shown to the user, with the [duration] option. *)
Inductive Toast : Type :=
| ProcessingFailed (reason : string) (duration : N)
| ProcessingCompleted (duration : N)
| Retrying (seconds : N) (attempt maxAttempts : nat) (duration : N)
| TimedOutAfterAttempts (duration : N)
| NetworkErrorAfterAttempts (duration : N)
| TooLargeForProcessing (duration : N)
| FailedAfterAttempts (duration : N).

(** What the driver does, stamped with the virtual clock (milliseconds). *)
Inductive Event : Type :=
| Attempt (retryCount : nat) (startedAt timeoutDuration : N)
| Shown (at_ : N) (toast : Toast)
| Scheduled (at_ delay : N) (retryCount : nat).

Definition maxRetries : nat := 3.
Definition baseDelay : N := 2000.

(** "10min first try, 5min retries". *)
Definition timeoutDuration (retryCount : nat) : N :=
  if (retryCount =? 0)%nat then (10 * 60 * 1000)%N else (5 * 60 * 1000)%N.

(** [baseDelay * Math.pow(2, retryCount)]. *)
Definition delay (retryCount : nat) : N := (baseDelay * 2 ^ N.of_nat retryCount)%N.

(** [Math.round(delay / 1000)]. *)
Definition roundSeconds (ms : N) : N := ((ms + 500) / 1000)%N.

Definition AbortError : JsError := mkError "AbortError" (Some "The operation was aborted.").

Section Server.

(** The far end of [fetch("/api/retrieval/process")] for attempt
    [retryCount]: after [fst] milliseconds the call resolves (the
    response has come, its body not yet read) or rejects with [snd]. *)
Variable server : nat -> N * (JsError + FetchResponse).

(** [fetch] under the [AbortController] armed with [setTimeout]: when the
    answer has not come by the deadline the call rejects with
    [AbortError] at the deadline. *)
Definition fetchWithDeadline (retryCount : nat) : N * (JsError + FetchResponse) :=
  let deadline := timeoutDuration retryCount in
  if (deadline <=? fst (server retryCount))%N then (deadline, inl AbortError)
  else server retryCount.

(** The [try] block after the call: elapsed time, and the toast shown or
    the exception that reaches [catch].  [clearTimeout] runs as soon as
    [fetch] has resolved, so no deadline bounds the reading of the body
    of a response that is not ok. *)
Definition attempt (retryCount : nat) : N * (JsError + Toast) :=
  let answer := fetchWithDeadline retryCount in
  match snd answer with
  | inl error => (fst answer, inl error)
  | inr response =>
      if ok response then (fst answer, inr (ProcessingCompleted 4000))
      else match json_message response with
           | inl error => ((fst answer + text_time response)%N, inl error)
           | inr reason =>
               ((fst answer + text_time response)%N, inr (ProcessingFailed reason 10000))
           end
  end.

(** The second conjunct of [shouldRetry]. *)
Definition retryable (error : JsError) : bool :=
  String.eqb (err_name error) "AbortError"
  || messageIncludes error "network"
  || messageIncludes error "fetch"
  || messageIncludes error "ECONNRESET"
  || messageIncludes error "ETIMEDOUT".

(** "Final error handling after all retries failed". *)
Definition finalToast (error : JsError) : Toast :=
  if String.eqb (err_name error) "AbortError" then TimedOutAfterAttempts 15000
  else if messageIncludes error "network" || messageIncludes error "fetch"
  then NetworkErrorAfterAttempts 10000
  else if messageIncludes error "token" || messageIncludes error "limit"
  then TooLargeForProcessing 12000
  else FailedAfterAttempts 12000.

(** One call of [processFileInBackground(retryCount)] starting at [clock],
    together with the calls it schedules. *)
Equations? processFileInBackground (retryCount : nat) (clock : N) : list Event
  by wf (maxRetries - retryCount) lt :=
  processFileInBackground retryCount clock with attempt retryCount := {
    | (elapsed, inr toast) =>
        [Attempt retryCount clock (timeoutDuration retryCount);
         Shown (clock + elapsed) toast];
    | (elapsed, inl error) with lt_dec retryCount maxRetries := {
        | left _ with retryable error := {
            | true =>
                Attempt retryCount clock (timeoutDuration retryCount)
                :: Shown (clock + elapsed)
                     (Retrying (roundSeconds (delay retryCount)) (retryCount + 1)
                               maxRetries (delay retryCount))
                :: Scheduled (clock + elapsed) (delay retryCount) (retryCount + 1)
                :: processFileInBackground (retryCount + 1)
                     (clock + elapsed + delay retryCount);
            | false =>
                [Attempt retryCount clock (timeoutDuration retryCount);
                 Shown (clock + elapsed) (finalToast error)] };
        | right _ =>
            [Attempt retryCount clock (timeoutDuration retryCount);
             Shown (clock + elapsed) (finalToast error)] } }.
Proof.
  unfold maxRetries in *.
  destruct retryCount as [|[|[|?]]]; simpl; lia.
Qed.

(** The attempts of a log: [(retryCount, startedAt, timeoutDuration)]. *)
Fixpoint attemptsOf (log : list Event) : list (nat * N * N) :=
  match log with
  | [] => []
  | Attempt retryCount startedAt deadline :: log' =>
      (retryCount, startedAt, deadline) :: attemptsOf log'
  | _ :: log' => attemptsOf log'
  end.

(** The delays of the scheduled retries. *)
Fixpoint delaysOf (log : list Event) : list N :=
  match log with
  | [] => []
  | Scheduled _ d _ :: log' => d :: delaysOf log'
  | _ :: log' => delaysOf log'
  end.

(** The last notification of a log. *)
Fixpoint lastShown (log : list Event) (acc : option Toast) : option Toast :=
  match log with
  | [] => acc
  | Shown _ toast :: log' => lastShown log' (Some toast)
  | _ :: log' => lastShown log' acc
  end.

End Server.

End Driver.


(* ================================================================== *)
(** * Specification-level views *)
(* ================================================================== *)

Local Open Scope string_scope.
Local Open Scope list_scope.

(** The groups of chunks behind the requests of the OpenAI branch: the
    loop of [processBatchEmbeddings] again, keeping each chunk where the
    code keeps only its content and the running total. [current] is the
    open sub-batch. *)
Fixpoint planFrom (batchChunks current : list FileItemChunk) : list (list FileItemChunk) :=
  match batchChunks with
  | [] => if (0 <? List.length current)%nat then [current] else []
  | chunk :: rest =>
      if (MAX_TOKENS_PER_REQUEST <? tokens chunk)%N then planFrom rest current
      else if (MAX_BATCH_TOKENS <? sumTokens current + tokens chunk)%N
              && (0 <? List.length current)%nat
      then current :: planFrom rest [chunk]
      else planFrom rest (current ++ [chunk])
  end.

Definition subBatches (batchChunks : list FileItemChunk) : list (list FileItemChunk) :=
  planFrom batchChunks [].

(** A sub-batch the planner may emit: not empty, and either within
    [MAX_BATCH_TOKENS] or a single chunk between the two ceilings. *)
Definition wellSized (group : list FileItemChunk) : Prop :=
  group <> []
  /\ ((sumTokens group <= MAX_BATCH_TOKENS)%N
      \/ exists chunk, group = [chunk]
           /\ (MAX_BATCH_TOKENS < tokens chunk <= MAX_TOKENS_PER_REQUEST)%N).

(** The provider answers every request it accepts with one vector per
    input. *)
Definition oneVectorPerInput {Embedding} (env : Env Embedding) : Prop :=
  forall n input data,
    embeddings_create env n input = inr data -> List.length data = List.length input.

(** The request passes every check that precedes the look-up of existing
    chunks: both parameters present, provider recognised, metadata
    retrieved, caller owns the file, size within 200 MiB. *)
Record ValidRequest {Embedding} (env : Env Embedding) (w : World Embedding)
    (profile : Profile) (file_id embeddingsProvider : string)
    (fileMetadata : FileRow) : Prop := mkValid {
  vr_profile : getServerProfile env = inr profile;
  vr_form : req_formData env (bodyReads w)
            = inr (mkForm (Some file_id) (Some embeddingsProvider));
  vr_file_id : file_id <> EmptyString;
  vr_provider : embeddingsProvider = "openai" \/ embeddingsProvider = "local";
  vr_metadata : metadata_fault env = None;
  vr_row : find (fun row => String.eqb (f_id row) file_id) (files w) = Some fileMetadata;
  vr_owner : f_user_id fileMetadata = p_user_id profile;
  vr_size : (f_size fileMetadata <= 200 * 1024 * 1024)%N
}.

(** The look-up of existing chunks answers, and finds a row of the file. *)
Definition hasChunkRow {Embedding} (env : Env Embedding) (w : World Embedding)
    (file_id : string) : Prop :=
  items_fault env = false
  /\ exists row, In row (file_items w) /\ fi_file_id row = file_id.

(** The request is admitted and reaches the extension switch: no chunk
    row found, the file is not being processed, the blob is downloaded
    and read, it is not empty, the name has an extension, and the
    provider key check passes.  (The write that claims the job is issued
    on the way; the route goes on whether or not the store applies it.) *)
Record ReachesExtraction {Embedding} (env : Env Embedding) (w : World Embedding)
    (profile : Profile) (file_id embeddingsProvider : string)
    (fileMetadata : FileRow) (fileBuffer : string) : Prop := mkReaches {
  re_valid : ValidRequest env w profile file_id embeddingsProvider fileMetadata;
  re_no_chunks : items_fault env = true
                 \/ filter (fun r => String.eqb (fi_file_id r) file_id) (file_items w) = [];
  re_not_processing : processing_status fileMetadata <> processing;
  re_download : storage_download env (f_file_path fileMetadata)
                = mkDownload (Some (mkBlob (inr fileBuffer))) None;
  re_not_empty : fileBuffer <> EmptyString;
  re_extension : splitPop (f_name fileMetadata) <> EmptyString;
  re_key : embeddingsProvider = "openai" ->
           (if use_azure_openai profile
            then checkApiKey env (azure_openai_api_key profile) "Azure OpenAI"
            else checkApiKey env (openai_api_key profile) "OpenAI") = None
}.

(** The chunk is within the per-request ceiling, so it is not skipped. *)
Definition fitsRequest (chunk : FileItemChunk) : bool :=
  negb (MAX_TOKENS_PER_REQUEST <? tokens chunk)%N.

(** The loop variables [currentSubBatch] and [currentSubBatchTokens]
    describe the open sub-batch [current]. *)
Definition tracks {Embedding} (st : SubBatchState (Embedding := Embedding))
    (current : list FileItemChunk) : Prop :=
  currentSubBatch st = map content current
  /\ currentSubBatchTokens st = sumTokens current.

(** The three patches the route applies to a row of [files]. *)
Inductive isPatch {Embedding} (env : Env Embedding) : (FileRow -> FileRow) -> Prop :=
| patch_processing : isPatch env (markProcessing env)
| patch_completed totalTokens : isPatch env (markCompleted env totalTokens)
| patch_failed error : isPatch env (markFailed env error).

(** [patchRows patch file_id]: the effect of an applied update on the
    table. *)
Definition patchRows (patch : FileRow -> FileRow) (file_id : string)
    (rows : list FileRow) : list FileRow :=
  map (fun row => if String.eqb (f_id row) file_id then patch row else row) rows.

(** A property of the table that no update of the route can break. *)
Definition stable {Embedding} (env : Env Embedding) (Q : list FileRow -> Prop) : Prop :=
  forall patch file_id rows, isPatch env patch -> Q rows -> Q (patchRows patch file_id rows).

(** The computation keeps [Q] of the [files] table. *)
Definition keepsFiles {Embedding A} (Q : list FileRow -> Prop) (m : M Embedding A) : Prop :=
  forall w, Q (files w) -> Q (files (snd (m w))).

(** The world after the first read of the request body. *)
Definition bodyRead {Embedding} (w : World Embedding) : World Embedding :=
  mkWorld (files w) (file_items w) (requests w) (S (bodyReads w)) (writes w).

(** The world after the write that claims the job: the row is patched
    when the store applies the write. *)
Definition claimed {Embedding} (env : Env Embedding) (file_id : string)
    (w : World Embedding) : World Embedding :=
  mkWorld match write_fault env (writes w) with
          | None => patchRows (markProcessing env) file_id (files w)
          | Some _ => files w
          end
          (file_items w) (requests w) (S (bodyReads w)) (S (writes w)).

(** The extension is none of the five the switch knows. *)
Definition unsupported (fileExtension : string) : Prop :=
  fileExtension <> "csv" /\ fileExtension <> "json" /\ fileExtension <> "md"
  /\ fileExtension <> "pdf" /\ fileExtension <> "txt".

(** The chunks whose rows [turns] consecutive upserts of batches store,
    the first of them being write number [n] of the run: the rows of a
    batch are on record when its upsert was applied. *)
Fixpoint storedChunks {Embedding} (env : Env Embedding) (turns n : nat)
    (chunks : list FileItemChunk) : list FileItemChunk :=
  match turns with
  | O => []
  | S turns' =>
      match write_fault env n with
      | None => firstn BATCH_SIZE chunks
      | Some _ => []
      end ++ storedChunks env turns' (S n) (skipn BATCH_SIZE chunks)
  end.

(** The message of the error contains one of the keywords. *)
Definition mentions (error : JsError) (keywords : list string) : bool :=
  existsb (messageIncludes error) keywords.

(** The error invariant of a row of [files]. *)
Definition errorOnlyWhenFailed (row : FileRow) : Prop :=
  processing_error row <> None ->
  processing_status row = failed \/ processing_status row = timeout.

(* ================================================================== *)
(** * A concrete environment for the examples *)
(* ================================================================== *)

Module Demo.

(** Embeddings are strings here; the provider answers each text with the
    text itself, which makes the origin of every vector visible. *)
Definition form : FormData := mkForm (Some "f1") (Some "openai").

Definition profile : Profile := mkProfile "u1" false None (Some "sk-demo").

(** Two tokens for every character. *)
Fixpoint encode2 (text : string) : list N :=
  match text with
  | EmptyString => []
  | String c text' => N.of_nat (nat_of_ascii c) :: 0%N :: encode2 text'
  end.

(** A splitter that measures characters: windows of at most [size]
    characters, each starting [size - overlap] characters after the
    previous one. *)
Fixpoint windows (fuel size step : nat) (text : string) : list string :=
  match fuel with
  | O => []
  | S fuel' =>
      if (String.length text <=? size)%nat then [text]
      else substring 0 size text
           :: windows fuel' size step (substring step (String.length text - step) text)
  end.

Definition charSplitter (size overlap : N) (text : string) : JsError + list string :=
  inr (windows (String.length text) (N.to_nat size) (N.to_nat (size - overlap)) text).


(** [tokenizer]: the tokenizer.  [reread]: what a second
    [req.formData()] yields.  [txt]: what [processTxt] extracts.
    [docs]: the pages of any PDF. *)
Definition envWith (tokenizer : string -> list N) (reread : JsError + FormData)
    (txt : list FileItemChunk) (docs : list Doc) : Env string :=
  mkEnv (inr profile)
        (fun n => match n with O => inr form | S _ => reread end)
        None false (fun _ => None)
        (fun _ => mkDownload (Some (mkBlob (inr "bytes"))) None)
        (fun _ _ => None)
        (fun _ => inr txt) (fun _ => inr txt) (fun _ => inr txt) (fun _ => inr txt)
        (fun _ => inr docs)
        tokenizer charSplitter
        (fun _ input => inr input)
        (fun text => inr text)
        "2024-01-01T00:00:00.000Z" 7 false.

Definition env : (JsError + FormData) -> list FileItemChunk -> list Doc -> Env string :=
  envWith encode2.

(** The platform refuses a second read of a consumed body. *)
Definition bodyUsed : JsError + FormData :=
  inl (mkError "TypeError" (Some "Body is unusable")).

Definition file (name : string) (size : N) (st : ProcessingStatus) : FileRow :=
  mkFile "f1" "u1" name "u1/f1" size (Some 0%N) st None None None.

Definition world (row : FileRow) (items : list (FileItemRow string)) : World string :=
  mkWorld [row] items [] 0 0.

Definition storedItem : FileItemRow string :=
  mkItem "f1" "u1" "stored text" 1234 (Some "stored text") None.

Definition small (text : string) : FileItemChunk := mkChunk text 10.
Definition oversized (text : string) : FileItemChunk := mkChunk text 300001.

Definition plainEnv : Env string := env (inr form) [] [].

(** A file processed before: one chunk row of 1234 tokens on record. *)
Definition processedWorld : World string :=
  world (file "notes.txt" 10 completed) [storedItem].

(** A fresh upload. *)
Definition pendingWorld (name : string) : World string :=
  world (file name 10 pending) [].




(** A request for local embeddings; the local model fails on the text
    "bad" and answers any other text with the text itself. *)
Definition localForm : FormData := mkForm (Some "f1") (Some "local").

Definition localEnv (txt : list FileItemChunk) : Env string :=
  mkEnv (inr profile)
        (fun _ => inr localForm)
        None false (fun _ => None)
        (fun _ => mkDownload (Some (mkBlob (inr "bytes"))) None)
        (fun _ _ => None)
        (fun _ => inr txt) (fun _ => inr txt) (fun _ => inr txt) (fun _ => inr txt)
        (fun _ => inr [])
        encode2 charSplitter
        (fun _ input => inr input)
        (fun text => if String.eqb text "bad"
                     then inl (mkError "Error" (Some "model failure"))
                     else inr text)
        "2024-01-01T00:00:00.000Z" 7 false.

End Demo.

(* ================================================================== *)
(** * Further views: file names, appended rows *)
(* ================================================================== *)

(** The text holds no dot. *)
Fixpoint noDot (s : string) : bool :=
  match s with
  | EmptyString => true
  | String c s' => negb (Ascii.eqb c "."%char) && noDot s'
  end.

(** The codes the route can answer with. *)
Definition routeStatuses : list N := [200; 403; 404; 408; 413; 500; 503]%N.

(** [w'] has the chunk rows of [w], followed by rows that satisfy [P]. *)
Definition appends {Embedding} (P : FileItemRow Embedding -> Prop)
    (w w' : World Embedding) : Prop :=
  exists rows, file_items w' = file_items w ++ rows /\ Forall P rows.

(** Every run of [m] only appends rows that satisfy [P]. *)
Definition onlyAppends {Embedding A} (P : FileItemRow Embedding -> Prop)
    (m : M Embedding A) : Prop :=
  forall w, appends P w (snd (m w)).

(** The row written for a chunk whose vector is [f chunk]. *)
Definition rowOf {Embedding} (file_id user_id embeddingsProvider : string)
    (f : FileItemChunk -> option Embedding) (chunk : FileItemChunk)
  : FileItemRow Embedding :=
  mkItem file_id user_id (content chunk) (tokens chunk)
         (if String.eqb embeddingsProvider "openai" then f chunk else None)
         (if String.eqb embeddingsProvider "local" then f chunk else None).

(** The vector the local path gives a chunk. *)
Definition localVector {Embedding} (env : Env Embedding) (chunk : FileItemChunk)
  : option Embedding :=
  match generateLocalEmbedding env (content chunk) with
  | inr embedding => Some embedding
  | inl _ => None
  end.

(** The provider embeds every text on its own, by [embed]. *)
Definition embedsBy {Embedding} (env : Env Embedding) (embed : string -> Embedding) : Prop :=
  forall n input, embeddings_create env n input = inr (map embed input).

(** The row belongs to file [file_id] and user [user_id]. *)
Definition ownedBy {Embedding} (file_id user_id : string) (row : FileItemRow Embedding) : Prop :=
  fi_file_id row = file_id /\ fi_user_id row = user_id.

(** What a chunk row says of its chunk, whatever its vectors. *)
Definition rowCore {Embedding} (row : FileItemRow Embedding) : string * string * string * N :=
  (fi_file_id row, fi_user_id row, fi_content row, fi_tokens row).

Definition chunkCore (file_id user_id : string) (chunk : FileItemChunk)
  : string * string * string * N :=
  (file_id, user_id, content chunk, tokens chunk).

(** The instant of an event of the driver. *)
Definition eventTime (event : Driver.Event) : N :=
  match event with
  | Driver.Attempt _ startedAt _ => startedAt
  | Driver.Shown at_ _ => at_
  | Driver.Scheduled at_ _ _ => at_
  end.

(** The time attempt [retryCount] spends reading the body of a response
    that is not ok. *)
Definition bodyTime (server : nat -> N * (JsError + Driver.FetchResponse))
    (retryCount : nat) : N :=
  match snd (Driver.fetchWithDeadline server retryCount) with
  | inr response => if Driver.ok response then 0%N else Driver.text_time response
  | inl _ => 0%N
  end.

(** The longest a call of the driver can last: the deadlines of the
    attempts still allowed, the time they spend reading bodies, and the
    delays between them. [left] retries remain after attempt
    [retryCount]. *)
Fixpoint budgetFrom (server : nat -> N * (JsError + Driver.FetchResponse))
    (left : nat) (retryCount : nat) : N :=
  match left with
  | O => (Driver.timeoutDuration retryCount + bodyTime server retryCount)%N
  | S left' =>
      (Driver.timeoutDuration retryCount + bodyTime server retryCount
       + Driver.delay retryCount + budgetFrom server left' (S retryCount))%N
  end.

Definition budget (server : nat -> N * (JsError + Driver.FetchResponse))
    (retryCount : nat) : N :=
  budgetFrom server (Driver.maxRetries - retryCount) retryCount.

(* ================================================================== *)
(** * The name [createFile] stores for an upload *)
(* ================================================================== *)

From Stdlib Require Import ZArith.

Module Upload.

Local Open Scope string_scope.

(** The characters [/[^a-z0-9.]/gi] leaves alone: letters of either
    case, digits and the dot. *)
Definition isNameChar (c : ascii) : bool :=
  let n := nat_of_ascii c in
  ((97 <=? n)%nat && (n <=? 122)%nat)
  || ((65 <=? n)%nat && (n <=? 90)%nat)
  || ((48 <=? n)%nat && (n <=? 57)%nat)
  || (n =? 46)%nat.

(** [name.replace(/[^a-z0-9.]/gi, "_")]. *)
Fixpoint replaceInvalid (name : string) : string :=
  match name with
  | EmptyString => EmptyString
  | String c name' =>
      String (if isNameChar c then c else "_"%char) (replaceInvalid name')
  end.

(** [s.lastIndexOf(".")], scanning from index [i] with the last match
    [found] so far. *)
Fixpoint lastDotFrom (s : string) (i : nat) (found : Z) : Z :=
  match s with
  | EmptyString => found
  | String c s' =>
      lastDotFrom s' (S i) (if Ascii.eqb c "."%char then Z.of_nat i else found)
  end.

Definition lastIndexOfDot (s : string) : Z := lastDotFrom s 0 (-1)%Z.

(** [s.substring(0, end)] for an integer [end]: a negative end counts as
    0, an end past the length as the length. *)
Definition substringTo (s : string) (end_ : Z) : string :=
  substring 0 (Z.to_nat end_) s.

(** The lines of [createFile] that compute [fileRecord.name] from the
    name in the record and the name of the uploaded file. *)
Definition storedName (recordName fileName : string) : string :=
  let validFilename := toLowerCase (replaceInvalid recordName) in
  let extension := splitPop fileName in
  let extensionIndex := lastIndexOfDot validFilename in
  let baseName :=
    if (extensionIndex <? 0)%Z then validFilename
    else substringTo validFilename extensionIndex in
  let maxBaseNameLength := (100 - Z.of_nat (String.length extension) - 1)%Z in
  if (maxBaseNameLength <? Z.of_nat (String.length baseName))%Z
  then substringTo baseName maxBaseNameLength ++ "." ++ extension
  else baseName ++ "." ++ extension.

(** The characters a stored base name is made of. *)
Definition isBaseChar (c : ascii) : bool :=
  let n := nat_of_ascii c in
  ((97 <=? n)%nat && (n <=? 122)%nat)
  || ((48 <=? n)%nat && (n <=? 57)%nat)
  || (n =? 46)%nat || (n =? 95)%nat.

Fixpoint allChars (p : ascii -> bool) (s : string) : bool :=
  match s with
  | EmptyString => true
  | String c s' => p c && allChars p s'
  end.

(** The creator [createFileBasedOnExtension] hands the upload to. *)
Inductive Creator : Type :=
| CreateDocXFile
| CreateFile.

(** The test on [file.name.split(".").pop()]; the comparison with
    ["docx"] is exact. *)
Definition createFileBasedOnExtension (fileName : string) : Creator :=
  if String.eqb (splitPop fileName) "docx" then CreateDocXFile else CreateFile.

End Upload.

(** The columns of a row of [files] that say which file it is, whose it
    is and where its bytes are. *)
Definition fileCore (row : FileRow) : string * string * string * string * N :=
  (f_id row, f_user_id row, f_name row, f_file_path row, f_size row).

(** A notification that closes the work of the driver: every one but the
    announcement of a retry. *)
Definition isVerdict (toast : Driver.Toast) : bool :=
  match toast with
  | Driver.Retrying _ _ _ _ => false
  | _ => true
  end.

(* ================================================================== *)
(** * The batching loop of the earlier route *)
(* ================================================================== *)

Module Earlier.

Section Loop.

Context {Embedding : Type}.
Variable env : Env Embedding.

Local Open Scope list_scope.
Local Open Scope route_scope.

(** The variables of the loop. *)
Record BatchState : Type := mkBatch {
  allEmbeddings : list (option Embedding);
  currentBatch : list string;
  currentBatchTokens : N;
  skippedChunks : nat
}.

(** "If adding this chunk would exceed the limit, process current batch
    first". *)
Definition addChunk (chunk : FileItemChunk) (st : BatchState) : M Embedding BatchState :=
  let chunkTokens := tokens chunk in
  if (MAX_BATCH_TOKENS <? currentBatchTokens st + chunkTokens)%N
     && (0 <? List.length (currentBatch st))%nat then
    response <- createEmbeddings env (currentBatch st) ;;
    ret (mkBatch (allEmbeddings st ++ map Some response) [content chunk]
                 chunkTokens (skippedChunks st))
  else
    ret (mkBatch (allEmbeddings st) (currentBatch st ++ [content chunk])
                 (currentBatchTokens st + chunkTokens)%N (skippedChunks st)).

(** "Safety check: if current batch is getting close to limit, process
    it". *)
Definition safetyCheck (st : BatchState) : M Embedding BatchState :=
  if (MAX_BATCH_TOKENS <? currentBatchTokens st)%N then
    response <- createEmbeddings env (currentBatch st) ;;
    ret (mkBatch (allEmbeddings st ++ map Some response) [] 0%N (skippedChunks st))
  else ret st.

(** The [for] loop over [chunks]. *)
Fixpoint chunkLoop (chunks : list FileItemChunk) (st : BatchState)
  : M Embedding BatchState :=
  match chunks with
  | [] => ret st
  | chunk :: rest =>
      if (MAX_TOKENS_PER_REQUEST <? tokens chunk)%N then
        chunkLoop rest
          (mkBatch (allEmbeddings st ++ [None]) (currentBatch st)
                   (currentBatchTokens st) (S (skippedChunks st)))
      else
        st1 <- addChunk chunk st ;;
        st2 <- safetyCheck st1 ;;
        chunkLoop rest st2
  end.

(** "Process remaining chunks in the last batch". *)
Definition finalBatch (st : BatchState) : M Embedding BatchState :=
  if (0 <? List.length (currentBatch st))%nat then
    response <- createEmbeddings env (currentBatch st) ;;
    ret (mkBatch (allEmbeddings st ++ map Some response) (currentBatch st)
                 (currentBatchTokens st) (skippedChunks st))
  else ret st.

(** The OpenAI branch of the earlier route: [embeddings]. *)
Definition openaiEmbeddings (chunks : list FileItemChunk)
  : M Embedding (list (option Embedding)) :=
  st <- chunkLoop chunks (mkBatch [] [] 0%N 0%nat) ;;
  st' <- finalBatch st ;;
  ret (allEmbeddings st').

(** The loop from a given state, to the end. *)
Definition finish (chunks : list FileItemChunk) (st : BatchState)
  : M Embedding (list (option Embedding)) :=
  st1 <- chunkLoop chunks st ;;
  st' <- finalBatch st1 ;;
  ret (allEmbeddings st').

(** [chunks.length === 0] after the switch: the earlier route returns
    [new NextResponse("File could not be processed or is empty",
    { status: 400 })], here the status and the text. *)
Definition emptyCheck (extracted : JsError + list FileItemChunk)
  : JsError + (N * string + list FileItemChunk) :=
  match extracted with
  | inl error => inl error
  | inr chunks =>
      if (List.length chunks =? 0)%nat
      then inr (inl (400%N, "File could not be processed or is empty"%string))
      else inr (inr chunks)
  end.

(** The extension switch of the earlier route, with the check that
    follows it: the chunks, the exception of the extractor, or the answer
    the route returns at once.  The earlier route has written nothing
    when it gets here. *)
Definition extensionSwitch (fileExtension blob : string)
  : JsError + (N * string + list FileItemChunk) :=
  if String.eqb fileExtension "csv" then emptyCheck (processCSV env blob)
  else if String.eqb fileExtension "json" then emptyCheck (processJSON env blob)
  else if String.eqb fileExtension "md" then emptyCheck (processMarkdown env blob)
  else if String.eqb fileExtension "pdf" then emptyCheck (processPdf env blob)
  else if String.eqb fileExtension "txt" then emptyCheck (processTxt env blob)
  else inr (inl (400%N, "Unsupported file type"%string)).

End Loop.

End Earlier.

(** The loop of the present route from a given state, to the end. *)
Definition finishSubBatches {Embedding} (env : Env Embedding)
    (batchChunks : list FileItemChunk) (st : SubBatchState)
  : M Embedding (list (option Embedding)) :=
  bind (subBatchLoop env batchChunks st)
       (fun st1 => bind (flushLast env st1) (fun st' => ret (batchEmbeddings st'))).

(** The vectors of a result, placeholders dropped. *)
Fixpoint vectorsOf {Embedding} (l : list (option Embedding)) : list Embedding :=
  match l with
  | [] => []
  | Some v :: l' => v :: vectorsOf l'
  | None :: l' => vectorsOf l'
  end.

(** Two outcomes agree: the same world, and the same error or results
    with the same vectors in the same order and as many entries. *)
Definition agree {Embedding}
    (a b : (JsError + list (option Embedding)) * World Embedding) : Prop :=
  snd a = snd b
  /\ match fst a, fst b with
     | inl e1, inl e2 => e1 = e2
     | inr earlier, inr present =>
         vectorsOf earlier = vectorsOf present
         /\ List.length earlier = List.length present
     | _, _ => False
     end.

(* ================================================================== *)
(** * The client side of an upload: [uploadFile] and [createFile] *)
(* ================================================================== *)

From Stdlib Require Import DecimalString.

Module Client.

Local Open Scope string_scope.
Local Open Scope list_scope.

(** The browser [File]. *)
Record File : Type := mkUpload {
  file_name : string;
  file_size : N;
  file_bytes : string
}.

(** The columns of [TablesInsert<"files">] the caller fills in. *)
Record FileRecord : Type := mkRecord {
  r_user_id : string;
  r_name : string;
  r_file_path : string;
  r_size : N;
  r_tokens : N
}.

(** What the client can change: the table [files], the table
    [file_workspaces], the objects of the bucket [files] by path, and the
    delays of the timers armed for [processFileInBackground]. *)
Record Store : Type := mkStore {
  rows : list FileRow;
  file_workspaces : list (string * string * string);
  objects : list (string * string);
  timers : list N
}.

(** The collaborators.  [SIZE_LIMIT] is the parsed value of
    [NEXT_PUBLIC_USER_FILE_SIZE_LIMIT || "200000000"], [newId] the id the
    table gives to a new row, [single_error] the message of [.single()]
    when the rows are not exactly one, [base64] the encoding of
    [Buffer.from(s).toString("base64")], [docx_fetch text fileId] the
    outcome of [fetch("/api/retrieval/process/docx")].  The schema of
    the record store (foreign keys, triggers) is not part of the
    repository: what the deletion of rows of [files] does to
    [file_workspaces] and to the bucket is [cascade_workspaces] and
    [cascade_objects], applied to the deleted rows. *)
Record Backend : Type := mkBackend {
  SIZE_LIMIT : N;
  newId : list FileRow -> string;
  insert_error : FileRecord -> option string;
  link_error : string -> option string;
  upload_error : string -> bool;
  delete_error : string -> option string;
  cascade_workspaces : list FileRow -> list (string * string * string)
                       -> list (string * string * string);
  cascade_objects : list FileRow -> list (string * string) -> list (string * string);
  single_error : string;
  base64 : string -> string;
  docx_fetch : string -> string -> JsError + Driver.FetchResponse
}.

Section Calls.

Variable backend : Backend.

Definition St (A : Type) : Type := Store -> (JsError + A) * Store.

Definition andThen {A B} (m : St A) (k : A -> St B) : St B :=
  fun s =>
    match m s with
    | (inl e, s') => (inl e, s')
    | (inr a, s') => k a s'
    end.

(** [from("files").insert([fileRecord]).select("*").single()] and the
    check of [error]; a new row starts with status [pending]. *)
Definition insertFile (fileRecord : FileRecord) : St FileRow :=
  fun s =>
    match insert_error backend fileRecord with
    | Some m => (inl (Error m), s)
    | None =>
        let createdFile :=
          mkFile (newId backend (rows s)) (r_user_id fileRecord) (r_name fileRecord)
                 (r_file_path fileRecord) (r_size fileRecord) (Some (r_tokens fileRecord))
                 pending None None None in
        (inr createdFile,
         mkStore (rows s ++ [createdFile]) (file_workspaces s) (objects s) (timers s))
    end.

Definition createFileWorkspace (user_id file_id workspace_id : string) : St unit :=
  fun s =>
    match link_error backend file_id with
    | Some m => (inl (Error m), s)
    | None =>
        (inr tt,
         mkStore (rows s) (file_workspaces s ++ [(user_id, file_id, workspace_id)])
                 (objects s) (timers s))
    end.

(** [storage.from("files").upload(path, file, { upsert: true })]. *)
Definition putObject (path bytes : string) (bucket : list (string * string))
  : list (string * string) :=
  (path, bytes) :: filter (fun object => negb (String.eqb (fst object) path)) bucket.

Definition getObject (path : string) (bucket : list (string * string)) : option string :=
  match find (fun object => String.eqb (fst object) path) bucket with
  | Some object => Some (snd object)
  | None => None
  end.

(** [uploadFile(file, payload)]; the two branches on [onProgress] store
    the same object and differ by the progress they report. *)
Definition uploadFile (file : File) (user_id file_id : string) : St string :=
  fun s =>
    if (SIZE_LIMIT backend <? file_size file)%N then
      (inl (Error ("File must be less than "
                   ++ NilZero.string_of_uint (N.to_uint (SIZE_LIMIT backend / 1000000))
                   ++ "MB")%string), s)
    else
      let filePath := (user_id ++ "/" ++ base64 backend file_id)%string in
      if upload_error backend filePath then (inl (Error "Error uploading file"), s)
      else
        (inr filePath,
         mkStore (rows s) (file_workspaces s)
                 (putObject filePath (file_bytes file) (objects s)) (timers s)).

Definition setPath (filePath : string) (row : FileRow) : FileRow :=
  mkFile (f_id row) (f_user_id row) (f_name row) filePath (f_size row) (f_tokens row)
         (processing_status row) (processing_error row) (processing_started_at row)
         (processing_completed_at row).

(** [updateFile(fileId, { file_path })]: with [.single()] the update
    stands only when it meets exactly one row. *)
Definition updateFile (fileId filePath : string) : St FileRow :=
  fun s =>
    match filter (fun row => String.eqb (f_id row) fileId) (rows s) with
    | [row] =>
        (inr (setPath filePath row),
         mkStore (map (fun r => if String.eqb (f_id r) fileId then setPath filePath r else r)
                      (rows s))
                 (file_workspaces s) (objects s) (timers s))
    | _ => (inl (Error (single_error backend)), s)
    end.

Definition getFileById (fileId : string) : St FileRow :=
  fun s =>
    match filter (fun row => String.eqb (f_id row) fileId) (rows s) with
    | [file] => (inr file, s)
    | _ => (inl (Error (single_error backend)), s)
    end.

(** [setTimeout(processFileInBackground, delay)]. *)
Definition setTimeout (delay : N) : St unit :=
  fun s => (inr tt, mkStore (rows s) (file_workspaces s) (objects s) (timers s ++ [delay])).

Definition createFile (file : File) (fileRecord : FileRecord) (workspace_id : string)
  : St FileRow :=
  let named :=
    mkRecord (r_user_id fileRecord)
             (Upload.storedName (r_name fileRecord) (file_name file))
             (r_file_path fileRecord) (r_size fileRecord) (r_tokens fileRecord) in
  andThen (insertFile named) (fun createdFile =>
  andThen (createFileWorkspace (f_user_id createdFile) (f_id createdFile) workspace_id)
          (fun _ =>
  andThen (uploadFile file (f_user_id createdFile) (f_name createdFile)) (fun filePath =>
  andThen (updateFile (f_id createdFile) filePath) (fun _ =>
  andThen (setTimeout 100) (fun _ =>
  getFileById (f_id createdFile)))))).

(** [from("files").delete().eq("id", fileId)]: the rows of that id go,
    and the schema does to the links and to the bucket what it does on
    their deletion. *)
Definition deleteFile (fileId : string) : St unit :=
  fun s =>
    match delete_error backend fileId with
    | Some m => (inl (Error m), s)
    | None =>
        let deleted := filter (fun row => String.eqb (f_id row) fileId) (rows s) in
        (inr tt,
         mkStore (filter (fun row => negb (String.eqb (f_id row) fileId)) (rows s))
                 (cascade_workspaces backend deleted (file_workspaces s))
                 (cascade_objects backend deleted (objects s))
                 (timers s))
    end.

(** The call of the docx route by [createDocXFile] and the block
    [if (!response.ok)] that follows it; the notification is not part of
    the store. *)
Definition processDocX (text fileId : string) : St unit :=
  fun s =>
    match docx_fetch backend text fileId with
    | inl e => (inl e, s)
    | inr response =>
        if Driver.ok response then (inr tt, s)
        else
          match Driver.json_message response with
          | inl e => (inl e, s)
          | inr _ => deleteFile fileId s
          end
    end.

Definition createDocXFile (text : string) (file : File) (fileRecord : FileRecord)
    (workspace_id : string) : St FileRow :=
  andThen (insertFile fileRecord) (fun createdFile =>
  andThen (createFileWorkspace (f_user_id createdFile) (f_id createdFile) workspace_id)
          (fun _ =>
  andThen (uploadFile file (f_user_id createdFile) (f_name createdFile)) (fun filePath =>
  andThen (updateFile (f_id createdFile) filePath) (fun _ =>
  andThen (processDocX text (f_id createdFile)) (fun _ =>
  getFileById (f_id createdFile)))))).

End Calls.

End Client.

(** A backend for the examples: ids [f0], [f1], ... in the order of the
    inserts, the default size limit, no fault, the identity for the
    encoding of the path, and a schema that removes the links of a
    deleted file and leaves the bucket alone. *)
Module Example.

Local Open Scope string_scope.
Local Open Scope list_scope.

Definition backend : Client.Backend :=
  Client.mkBackend 200000000
    (fun rows => ("f" ++ NilZero.string_of_uint (Nat.to_uint (List.length rows)))%string)
    (fun _ => None) (fun _ => None) (fun _ => false) (fun _ => None)
    (fun deleted links =>
       filter (fun link => negb (existsb (fun row => String.eqb (f_id row) (snd (fst link)))
                                         deleted)) links)
    (fun _ bucket => bucket)
    "JSON object requested, multiple (or no) rows returned"
    (fun s => s)
    (fun _ _ => inr (Driver.mkFetch false (inr "Unsupported file type") 0)).

Definition letter : Client.File := Client.mkUpload "letter.docx" 10 "bytes of the letter".
Definition letterRecord : Client.FileRecord :=
  Client.mkRecord "u1" "letter.docx" EmptyString 10 0.

Definition empty : Client.Store := Client.mkStore [] [] [] [].

Definition fileA : Client.File := Client.mkUpload "My File.pdf" 10 "bytes of A".
Definition recordA : Client.FileRecord := Client.mkRecord "u1" "My File.pdf" EmptyString 10 0.

Definition fileB : Client.File := Client.mkUpload "my_file.pdf" 12 "bytes of B".
Definition recordB : Client.FileRecord := Client.mkRecord "u1" "my_file.pdf" EmptyString 12 0.

Definition afterA : Client.Store :=
  snd (Client.createFile backend fileA recordA "w1" empty).

Definition afterB : Client.Store :=
  snd (Client.createFile backend fileB recordB "w1" afterA).

Definition big : Client.File := Client.mkUpload "big.pdf" 200000001 "many bytes".
Definition bigRecord : Client.FileRecord :=
  Client.mkRecord "u1" "big.pdf" EmptyString 200000001 0.

End Example.

(** A provider that answers the first request and refuses every later
    one, and a text file of 51 chunks: one full batch and one chunk. *)
Module Flaky.

Local Open Scope string_scope.
Local Open Scope list_scope.

Definition chunks : list FileItemChunk := repeat (Demo.small "a") 51.

Definition env : Env string :=
  mkEnv (inr Demo.profile)
        (fun _ => inr Demo.form)
        None false (fun _ => None)
        (fun _ => mkDownload (Some (mkBlob (inr "bytes"))) None)
        (fun _ _ => None)
        (fun _ => inr chunks) (fun _ => inr chunks) (fun _ => inr chunks)
        (fun _ => inr chunks)
        (fun _ => inr [])
        Demo.encode2 Demo.charSplitter
        (fun n input => match n with
                        | O => inr input
                        | S _ => inl (mkError "APIConnectionError" (Some "Connection error."))
                        end)
        (fun text => inr text)
        "2024-01-01T00:00:00.000Z" 7 false.

(** The row of the file after the first run. *)
Definition rowAfterRun : FileRow :=
  hd (Demo.file "notes.txt" 10 pending)
     (files (snd (POST env (Demo.pendingWorld "notes.txt")))).

End Flaky.

(** A record store that refuses the second write of a run, which is the
    upsert of the first batch, and applies every other; and a text file
    of 51 chunks: one full batch and one chunk. *)
Module Lossy.

Local Open Scope string_scope.
Local Open Scope list_scope.

Definition chunks : list FileItemChunk := repeat (Demo.small "a") 50 ++ [Demo.small "z"].

Definition env : Env string :=
  mkEnv (inr Demo.profile)
        (fun _ => inr Demo.form)
        None false
        (fun n => match n with
                  | 1%nat => Some (mkError "PostgrestError"
                                     (Some "canceling statement due to statement timeout"))
                  | _ => None
                  end)
        (fun _ => mkDownload (Some (mkBlob (inr "bytes"))) None)
        (fun _ _ => None)
        (fun _ => inr chunks) (fun _ => inr chunks) (fun _ => inr chunks)
        (fun _ => inr chunks)
        (fun _ => inr [])
        Demo.encode2 Demo.charSplitter
        (fun _ input => inr input)
        (fun text => inr text)
        "2024-01-01T00:00:00.000Z" 7 false.

End Lossy.

(* ================================================================== *)
(** * Batch planner and embedding dispatcher *)
(* ================================================================== *)

Unset Implicit Arguments.

Section BatchFacts.

Context {Embedding : Type}.
Variable env : Env Embedding.

Lemma sumTokens_from (chunks : list FileItemChunk) (acc : N) :
  fold_left (fun a chunk => (a + tokens chunk)%N) chunks acc
  = (acc + sumTokens chunks)%N.
Proof.
  unfold sumTokens. revert acc.
  induction chunks as [|chunk rest IH]; intros acc; simpl.
  - now rewrite N.add_0_r.
  - rewrite IH, (IH (tokens chunk)). lia.
Qed.

Lemma sumTokens_snoc (chunks : list FileItemChunk) (chunk : FileItemChunk) :
  sumTokens (chunks ++ [chunk]) = (sumTokens chunks + tokens chunk)%N.
Proof. unfold sumTokens. now rewrite fold_left_app. Qed.

Lemma sumTokens_single (chunk : FileItemChunk) : sumTokens [chunk] = tokens chunk.
Proof. reflexivity. Qed.

Lemma nonempty_length {A} (l : list A) : (0 <? List.length l)%nat = true <-> l <> [].
Proof.
  destruct l; simpl; split; intro H; easy.
Qed.

(** A chunk within the per-request ceiling makes a well-sized group of
    its own. *)
Lemma wellSized_single (chunk : FileItemChunk) :
  (MAX_TOKENS_PER_REQUEST <? tokens chunk)%N = false -> wellSized [chunk].
Proof.
  intros Hitem. apply N.ltb_ge in Hitem.
  split; [discriminate|].
  destruct (N.le_gt_cases (tokens chunk) MAX_BATCH_TOKENS) as [Hle|Hgt].
  - left. now rewrite sumTokens_single.
  - right. exists chunk. repeat split; assumption.
Qed.

Lemma planFrom_wellSized (batchChunks : list FileItemChunk) :
  forall current,
    (current = [] \/ wellSized current) ->
    Forall wellSized (planFrom batchChunks current).
Proof.
  induction batchChunks as [|chunk rest IH]; intros current Hcur; simpl.
  - destruct (0 <? List.length current)%nat eqn:Hlen; [|constructor].
    apply nonempty_length in Hlen.
    destruct Hcur as [->|Hw]; [now contradiction Hlen|].
    now constructor.
  - destruct (MAX_TOKENS_PER_REQUEST <? tokens chunk)%N eqn:Hitem.
    + now apply IH.
    + destruct ((MAX_BATCH_TOKENS <? sumTokens current + tokens chunk)%N
                && (0 <? List.length current)%nat) eqn:Hflush.
      * apply andb_true_iff in Hflush as [_ Hlen].
        apply nonempty_length in Hlen.
        constructor.
        -- destruct Hcur as [->|Hw]; [now contradiction Hlen|assumption].
        -- apply IH. right. now apply wellSized_single.
      * apply IH. right.
        apply andb_false_iff in Hflush as [Hfit|Hlen].
        -- apply N.ltb_ge in Hfit. split.
           ++ now destruct current.
           ++ left. now rewrite sumTokens_snoc.
        -- assert (current = []) as ->.
           { destruct current; [reflexivity|discriminate]. }
           now apply wellSized_single.
Qed.

(** No planned group holds a chunk above the per-request ceiling. *)
Lemma planFrom_within_item (batchChunks : list FileItemChunk) :
  forall current,
    Forall (fun chunk => (tokens chunk <= MAX_TOKENS_PER_REQUEST)%N) current ->
    Forall (Forall (fun chunk => (tokens chunk <= MAX_TOKENS_PER_REQUEST)%N))
           (planFrom batchChunks current).
Proof.
  induction batchChunks as [|chunk rest IH]; intros current Hcur; simpl.
  - destruct (0 <? List.length current)%nat; constructor; [assumption|constructor].
  - destruct (MAX_TOKENS_PER_REQUEST <? tokens chunk)%N eqn:Hitem.
    + now apply IH.
    + apply N.ltb_ge in Hitem.
      destruct ((MAX_BATCH_TOKENS <? sumTokens current + tokens chunk)%N
                && (0 <? List.length current)%nat).
      * constructor; [assumption|]. apply IH. now constructor.
      * apply IH. apply Forall_app. split; [assumption|now constructor].
Qed.

(** Removing the oversized chunks beforehand gives the same plan. *)
Lemma planFrom_filter (batchChunks : list FileItemChunk) :
  forall current,
    planFrom (filter fitsRequest batchChunks) current = planFrom batchChunks current.
Proof.
  induction batchChunks as [|chunk rest IH]; intros current; simpl; [reflexivity|].
  unfold fitsRequest at 1.
  destruct (MAX_TOKENS_PER_REQUEST <? tokens chunk)%N eqn:Hitem; simpl.
  - apply IH.
  - rewrite Hitem.
    destruct ((MAX_BATCH_TOKENS <? sumTokens current + tokens chunk)%N
              && (0 <? List.length current)%nat); now rewrite IH.
Qed.

(** An oversized chunk belongs to no planned group, and the plan is the
    plan of the batch without the oversized chunks. *)
Lemma subBatches_isolate_oversized (batchChunks : list FileItemChunk) :
  Forall (Forall (fun chunk => (tokens chunk <= MAX_TOKENS_PER_REQUEST)%N))
         (subBatches batchChunks)
  /\ subBatches (filter fitsRequest batchChunks) = subBatches batchChunks.
Proof.
  split.
  - apply planFrom_within_item. constructor.
  - apply planFrom_filter.
Qed.

(** The requests of the loop are the closed groups of the plan, in
    order; when the provider throws, the groups sent so far. *)
Lemma subBatchLoop_plan (batchChunks : list FileItemChunk) :
  forall st current w,
    tracks st current ->
    match fst (subBatchLoop env batchChunks st w) with
    | inr st' =>
        exists sent current',
          planFrom batchChunks current = sent ++ planFrom [] current'
          /\ tracks st' current'
          /\ requests (snd (subBatchLoop env batchChunks st w))
             = requests w ++ map (map content) sent
    | inl _ =>
        exists k,
          requests (snd (subBatchLoop env batchChunks st w))
          = requests w ++ map (map content) (firstn k (planFrom batchChunks current))
    end.
Proof.
  induction batchChunks as [|chunk rest IH]; intros st current w Htr.
  - simpl. exists [], current. simpl. rewrite app_nil_r. auto.
  - destruct Htr as [Hsub Htok]. cbn [subBatchLoop planFrom].
    destruct (MAX_TOKENS_PER_REQUEST <? tokens chunk)%N.
    + apply IH. split; assumption.
    + rewrite Htok, Hsub, length_map.
      destruct ((MAX_BATCH_TOKENS <? sumTokens current + tokens chunk)%N
                && (0 <? List.length current)%nat).
      * unfold bind, createEmbeddings.
        destruct (embeddings_create env (List.length (requests w)) (map content current))
          as [error|response]; cbn [fst snd requests].
        -- exists 1%nat. reflexivity.
        -- match goal with
           | |- context [subBatchLoop env rest ?st1 ?w1] =>
               specialize (IH st1 [chunk] w1); destruct (subBatchLoop env rest st1 w1) as [[e|st'] w']
           end; cbn [fst snd requests] in *.
           ++ destruct IH as [k Hk]; [split; reflexivity|].
              exists (S k). rewrite Hk, <- app_assoc. reflexivity.
           ++ destruct IH as (sent & current' & Hplan & Htr' & Hreq); [split; reflexivity|].
              exists (current :: sent), current'. rewrite Hplan, Hreq, <- app_assoc.
              auto.
      * apply IH. split; cbn [currentSubBatch currentSubBatchTokens].
        -- now rewrite map_app.
        -- now rewrite sumTokens_snoc.
Qed.

(** The OpenAI branch, with the sequencing spelled out. *)
Lemma processBatchEmbeddings_openai (batchChunks : list FileItemChunk) (w : World Embedding) :
  processBatchEmbeddings env batchChunks "openai" w
  = match subBatchLoop env batchChunks (mkState [] [] 0%N 0%nat) w with
    | (inl e, w1) => (inl e, w1)
    | (inr st, w1) =>
        match flushLast env st w1 with
        | (inl e, w2) => (inl e, w2)
        | (inr st', w2) => (inr (batchEmbeddings st'), w2)
        end
    end.
Proof.
  unfold processBatchEmbeddings, bind. cbn [String.eqb Ascii.eqb Bool.eqb].
  destruct (subBatchLoop env batchChunks _ w) as [[e|st] w1]; [reflexivity|].
  destruct (flushLast env st w1) as [[e|st'] w2]; reflexivity.
Qed.

(** The requests of one call of the dispatcher on the OpenAI path: a
    prefix of the plan, the whole plan when the call returns. *)
Lemma processBatchEmbeddings_requests (batchChunks : list FileItemChunk) (w : World Embedding) :
  exists k,
    requests (snd (processBatchEmbeddings env batchChunks "openai" w))
    = requests w ++ map (map content) (firstn k (subBatches batchChunks))
    /\ (forall out, fst (processBatchEmbeddings env batchChunks "openai" w) = inr out ->
        firstn k (subBatches batchChunks) = subBatches batchChunks).
Proof.
  rewrite processBatchEmbeddings_openai. unfold subBatches.
  pose proof (subBatchLoop_plan batchChunks (mkState [] [] 0%N 0%nat) [] w) as Hloop.
  destruct (subBatchLoop env batchChunks (mkState [] [] 0%N 0%nat) w) as [[e|st] w1];
    cbn [fst snd] in *.
  - destruct Hloop as [k Hk]; [split; reflexivity|].
    exists k. split; [assumption|intros out Hout; discriminate Hout].
  - destruct Hloop as (sent & current' & Hplan & [Hsub Htok] & Hreq); [split; reflexivity|].
    exists (List.length (planFrom batchChunks [])).
    rewrite firstn_all. split; [|reflexivity].
    rewrite Hplan, map_app. cbn [planFrom].
    unfold flushLast. rewrite Hsub, length_map.
    destruct (0 <? List.length current')%nat.
    + unfold bind, createEmbeddings.
      destruct (embeddings_create env (List.length (requests w1)) (map content current'));
        cbn [fst snd requests ret]; rewrite Hreq, <- app_assoc; reflexivity.
    + cbn [ret fst snd map]. now rewrite app_nil_r.
Qed.

(** With a provider that returns one vector per input, the loop keeps
    "entries written + contents pending = chunks seen". *)
Lemma subBatchLoop_length (Hprov : oneVectorPerInput env) (batchChunks : list FileItemChunk) :
  forall st w st' w',
    subBatchLoop env batchChunks st w = (inr st', w') ->
    (List.length (batchEmbeddings st') + List.length (currentSubBatch st')
     = List.length (batchEmbeddings st) + List.length (currentSubBatch st)
       + List.length batchChunks)%nat.
Proof.
  induction batchChunks as [|chunk rest IH]; intros st w st' w' Hrun.
  - inversion Hrun. simpl. lia.
  - cbn [subBatchLoop] in Hrun.
    destruct (MAX_TOKENS_PER_REQUEST <? tokens chunk)%N.
    + apply IH in Hrun. cbn [batchEmbeddings currentSubBatch] in Hrun.
      rewrite length_app in Hrun. simpl in *. lia.
    + destruct ((MAX_BATCH_TOKENS <? currentSubBatchTokens st + tokens chunk)%N
                && (0 <? List.length (currentSubBatch st))%nat).
      * unfold bind, createEmbeddings in Hrun.
        destruct (embeddings_create env (List.length (requests w)) (currentSubBatch st))
          as [error|response] eqn:Hcall; [discriminate|].
        apply Hprov in Hcall. apply IH in Hrun.
        cbn [batchEmbeddings currentSubBatch] in Hrun.
        rewrite length_app, length_map in Hrun. simpl in *. lia.
      * apply IH in Hrun. cbn [batchEmbeddings currentSubBatch] in Hrun.
        rewrite length_app in Hrun. simpl in *. lia.
Qed.

(** On the local path entry [i] belongs to chunk [i]. *)
Lemma processBatchEmbeddings_local (batchChunks : list FileItemChunk) (w : World Embedding) :
  processBatchEmbeddings env batchChunks "local" w
  = (inr (map (fun chunk =>
                 match generateLocalEmbedding env (content chunk) with
                 | inr embedding => Some embedding
                 | inl _ => None
                 end) batchChunks), w).
Proof. reflexivity. Qed.

(** One entry per chunk, on both provider paths. *)
Lemma processBatchEmbeddings_length (Hprov : oneVectorPerInput env)
    (batchChunks : list FileItemChunk) (provider : string) (w w' : World Embedding)
    (out : list (option Embedding)) :
  provider = "openai" \/ provider = "local" ->
  processBatchEmbeddings env batchChunks provider w = (inr out, w') ->
  List.length out = List.length batchChunks.
Proof.
  intros [-> | ->].
  - rewrite processBatchEmbeddings_openai.
    destruct (subBatchLoop env batchChunks (mkState [] [] 0%N 0%nat) w) as [[e|st] w1] eqn:Hloop;
      [discriminate|].
    apply (subBatchLoop_length Hprov) in Hloop. simpl in Hloop.
    unfold flushLast.
    destruct (0 <? List.length (currentSubBatch st))%nat eqn:Hlen.
    + unfold bind, createEmbeddings.
      destruct (embeddings_create env (List.length (requests w1)) (currentSubBatch st))
        as [error|response] eqn:Hcall; [discriminate|].
      apply Hprov in Hcall. cbn [ret]. intros Hout. inversion Hout.
      rewrite length_app, length_map. cbn [batchEmbeddings]. lia.
    + cbn [ret]. intros Hout. inversion Hout. subst.
      apply Nat.ltb_ge in Hlen. lia.
  - rewrite processBatchEmbeddings_local. intros Hout. inversion Hout.
    now rewrite length_map.
Qed.

(** The loop sends the same requests, and stops the same way, when the
    oversized chunks are removed beforehand. *)
Lemma subBatchLoop_filter (batchChunks : list FileItemChunk) :
  forall st1 st2 w1 w2,
    currentSubBatch st1 = currentSubBatch st2 ->
    currentSubBatchTokens st1 = currentSubBatchTokens st2 ->
    requests w1 = requests w2 ->
    requests (snd (subBatchLoop env batchChunks st1 w1))
    = requests (snd (subBatchLoop env (filter fitsRequest batchChunks) st2 w2))
    /\ match fst (subBatchLoop env batchChunks st1 w1),
             fst (subBatchLoop env (filter fitsRequest batchChunks) st2 w2) with
       | inr s1, inr s2 =>
           currentSubBatch s1 = currentSubBatch s2
           /\ currentSubBatchTokens s1 = currentSubBatchTokens s2
       | inl e1, inl e2 => e1 = e2
       | _, _ => False
       end.
Proof.
  induction batchChunks as [|chunk rest IH]; intros st1 st2 w1 w2 Hsub Htok Hreq.
  - simpl. auto.
  - cbn [filter].
    destruct (fitsRequest chunk) eqn:Hitem; unfold fitsRequest in Hitem;
      [apply negb_true_iff in Hitem | apply negb_false_iff in Hitem];
      cbn [subBatchLoop]; rewrite Hitem; [|apply IH; assumption].
    + rewrite Htok, Hsub.
      destruct ((MAX_BATCH_TOKENS <? currentSubBatchTokens st2 + tokens chunk)%N
                && (0 <? List.length (currentSubBatch st2))%nat).
      * unfold bind, createEmbeddings. rewrite Hreq.
        destruct (embeddings_create env (List.length (requests w2)) (currentSubBatch st2))
          as [error|response]; cbn [fst snd requests].
        -- auto.
        -- apply IH; cbn [requests currentSubBatch currentSubBatchTokens]; congruence.
      * apply IH; cbn [requests currentSubBatch currentSubBatchTokens]; congruence.
Qed.

(** The requests sent for a batch do not depend on its oversized
    chunks. *)
Lemma requests_ignore_oversized (batchChunks : list FileItemChunk) (w : World Embedding) :
  requests (snd (processBatchEmbeddings env batchChunks "openai" w))
  = requests (snd (processBatchEmbeddings env (filter fitsRequest batchChunks) "openai" w)).
Proof.
  rewrite !processBatchEmbeddings_openai.
  destruct (subBatchLoop_filter batchChunks (mkState [] [] 0%N 0%nat)
              (mkState [] [] 0%N 0%nat) w w eq_refl eq_refl eq_refl) as [Hreq Hres].
  destruct (subBatchLoop env batchChunks _ w) as [[e1|s1] w1];
    destruct (subBatchLoop env (filter fitsRequest batchChunks) _ w) as [[e2|s2] w2];
    cbn [fst snd] in *; try contradiction; [assumption|].
  destruct Hres as [Hsub Htok]. unfold flushLast. rewrite Hsub.
  destruct (0 <? List.length (currentSubBatch s2))%nat; [|assumption].
  unfold bind, createEmbeddings. rewrite Hreq.
  destruct (embeddings_create env (List.length (requests w2)) (currentSubBatch s2));
    reflexivity.
Qed.

End BatchFacts.

(** C2 (amended).  Every request the OpenAI branch sends is a group of
    the plan, in order, and every group of the plan is non-empty and
    either sums to at most [MAX_BATCH_TOKENS] or is one single chunk whose
    own count lies in (MAX_BATCH_TOKENS, MAX_TOKENS_PER_REQUEST]; an empty
    input plans no group. *)
Theorem subBatch_token_bound {Embedding : Type} (env : Env Embedding)
    (batchChunks : list FileItemChunk) (w : World Embedding) :
  subBatches [] = []
  /\ Forall wellSized (subBatches batchChunks)
  /\ exists k,
       requests (snd (processBatchEmbeddings env batchChunks "openai" w))
       = requests w ++ map (map content) (firstn k (subBatches batchChunks))
       /\ (forall out,
             fst (processBatchEmbeddings env batchChunks "openai" w) = inr out ->
             firstn k (subBatches batchChunks) = subBatches batchChunks).
Proof.
  split; [reflexivity|]. split.
  - apply planFrom_wellSized. now left.
  - apply processBatchEmbeddings_requests.
Qed.

(** C2, as stated, fails: a chunk of 260000 tokens arriving on an empty
    sub-batch is sent alone, in a request above [MAX_BATCH_TOKENS]. *)
Lemma subBatch_above_batch_ceiling :
  subBatches [mkChunk "x" 260000] = [[mkChunk "x" 260000]]
  /\ requests (snd (processBatchEmbeddings (Demo.env (inr Demo.form) [] [])
                      [mkChunk "x" 260000] "openai"
                      (Demo.world (Demo.file "notes.txt" 10 pending) [])))
     = [["x"]]
  /\ (MAX_BATCH_TOKENS < sumTokens [mkChunk "x" 260000])%N.
Proof. repeat split. Qed.

(** C1 (failing input).  For the batch [a; big], [big] above the
    per-request ceiling, the dispatcher returns [null] at position 0 and
    the vector of [a] at position 1: the [null] of a skipped chunk is
    pushed at once, the vectors of the chunks still pending before it
    only when their sub-batch is sent. *)
Theorem skipped_null_precedes_pending_vectors :
  fst (processBatchEmbeddings (Demo.env (inr Demo.form) [] [])
         [Demo.small "a"; Demo.oversized "big"] "openai"
         (Demo.world (Demo.file "notes.txt" 10 pending) []))
  = inr [None; Some "a"].
Proof. reflexivity. Qed.

(* ================================================================== *)
(** * The route: what every run keeps *)
(* ================================================================== *)

Section RouteFacts.

Context {Embedding : Type}.
Variable env : Env Embedding.

Local Open Scope route_scope.

(** ** Rules for [keepsFiles] *)

Section Keeps.

Variable Q : list FileRow -> Prop.

Lemma keeps_ret {A} (a : A) : keepsFiles Q (ret (Embedding := Embedding) a).
Proof. intros w H. exact H. Qed.

Lemma keeps_throw {A} (e : JsError) : keepsFiles Q (throw (Embedding := Embedding) (A := A) e).
Proof. intros w H. exact H. Qed.

Lemma keeps_lift {A} (r : JsError + A) : keepsFiles Q (lift (Embedding := Embedding) r).
Proof. destruct r; [apply keeps_throw|apply keeps_ret]. Qed.

Lemma keeps_bind {A B} (m : M Embedding A) (k : A -> M Embedding B) :
  keepsFiles Q m -> (forall a, keepsFiles Q (k a)) -> keepsFiles Q (bind m k).
Proof.
  intros Hm Hk w H. unfold bind. specialize (Hm w H).
  destruct (m w) as [[e|a] w1]; [exact Hm|]. apply Hk. exact Hm.
Qed.

Lemma keeps_tryCatch {A} (m : M Embedding A) (h : JsError -> M Embedding A) :
  keepsFiles Q m -> (forall e, keepsFiles Q (h e)) -> keepsFiles Q (tryCatch m h).
Proof.
  intros Hm Hh w H. unfold tryCatch. specialize (Hm w H).
  destruct (m w) as [[e|a] w1]; [|exact Hm]. apply Hh. exact Hm.
Qed.

Lemma keeps_if {A} (c : bool) (m1 m2 : M Embedding A) :
  keepsFiles Q m1 -> keepsFiles Q m2 -> keepsFiles Q (if c then m1 else m2).
Proof. destruct c; auto. Qed.

Lemma keeps_formDataOf : keepsFiles Q (formDataOf env).
Proof. intros w H. exact H. Qed.

Lemma keeps_createEmbeddings (input : list string) : keepsFiles Q (createEmbeddings env input).
Proof. intros w H. exact H. Qed.

Lemma keeps_upsertItems (rows : list (FileItemRow Embedding)) :
  keepsFiles Q (upsertItems env rows).
Proof.
  intros w H. unfold upsertItems. destruct (write_fault env (writes w)); exact H.
Qed.

Lemma keeps_selectFile (file_id : string) : keepsFiles Q (selectFile env file_id).
Proof.
  intros w H. unfold selectFile.
  destruct (metadata_fault env); [exact H|].
  destruct (find _ (files w)); exact H.
Qed.

Lemma keeps_selectExistingChunks (file_id : string) :
  keepsFiles Q (selectExistingChunks env file_id).
Proof.
  intros w H. unfold selectExistingChunks. destruct (items_fault env); exact H.
Qed.

Lemma keeps_subBatchLoop (batchChunks : list FileItemChunk) :
  forall st, keepsFiles Q (subBatchLoop env batchChunks st).
Proof.
  induction batchChunks as [|chunk rest IH]; intros st; cbn [subBatchLoop].
  - apply keeps_ret.
  - repeat apply keeps_if; auto.
    apply keeps_bind; [apply keeps_createEmbeddings|auto].
Qed.

Lemma keeps_processBatchEmbeddings (batchChunks : list FileItemChunk) (provider : string) :
  keepsFiles Q (processBatchEmbeddings env batchChunks provider).
Proof.
  unfold processBatchEmbeddings.
  repeat apply keeps_if; try apply keeps_ret.
  apply keeps_bind; [apply keeps_subBatchLoop|intros st].
  apply keeps_bind; [|intros; apply keeps_ret].
  unfold flushLast. apply keeps_if; [|apply keeps_ret].
  apply keeps_bind; [apply keeps_createEmbeddings|intros; apply keeps_ret].
Qed.

Lemma keeps_batchLoop (fuel : nat) (file_id user_id provider : string)
    (chunks : list FileItemChunk) :
  forall i, keepsFiles Q (batchLoop env fuel file_id user_id provider chunks i).
Proof.
  induction fuel as [|fuel IH]; intros i; cbn [batchLoop].
  - apply keeps_ret.
  - apply keeps_if; [|apply keeps_ret].
    apply keeps_bind; [apply keeps_processBatchEmbeddings|intros out].
    apply keeps_bind; [apply keeps_upsertItems|intros; apply IH].
Qed.

Lemma keeps_processFileInBatches (file_id user_id provider ext blob : string) :
  keepsFiles Q (processFileInBatches env file_id user_id provider ext blob).
Proof.
  unfold processFileInBatches.
  apply keeps_bind; [apply keeps_lift|intros chunks].
  apply keeps_if; [apply keeps_throw|].
  apply keeps_bind; [apply keeps_batchLoop|intros; apply keeps_ret].
Qed.

Hypothesis Qstable : stable env Q.

Lemma keeps_updateFiles (patch : FileRow -> FileRow) (file_id : string) :
  isPatch env patch -> keepsFiles Q (updateFiles env patch file_id).
Proof.
  intros Hp w H. unfold updateFiles.
  destruct (write_fault env (writes w)); [exact H|].
  apply (Qstable patch file_id _ Hp H).
Qed.

Lemma keeps_processDownloaded (profile : Profile) (file_id provider : string)
    (fileMetadata : FileRow) :
  keepsFiles Q (processDownloaded env profile file_id provider fileMetadata).
Proof.
  unfold processDownloaded.
  destruct (dl_error _); [apply keeps_throw|].
  destruct (dl_data _) as [file|]; [|apply keeps_throw].
  destruct (arrayBuffer file) as [error|fileBuffer]; [apply keeps_throw|].
  apply keeps_if; [apply keeps_throw|].
  apply keeps_if; [apply keeps_throw|].
  apply keeps_bind.
  { apply keeps_if; [|apply keeps_ret]. unfold checkProviderKey.
    destruct (if use_azure_openai profile then _ else _);
      [apply keeps_throw|apply keeps_ret]. }
  intros _. apply keeps_bind; [apply keeps_processFileInBatches|intros totals].
  apply keeps_bind; [apply keeps_updateFiles; constructor|intros; apply keeps_ret].
Qed.

Lemma keeps_admission (profile : Profile) (file_id provider : string)
    (fileMetadata : FileRow) :
  keepsFiles Q (admission env profile file_id provider fileMetadata).
Proof.
  unfold admission.
  apply keeps_bind; [apply keeps_selectExistingChunks|intros existing].
  apply keeps_if; [apply keeps_ret|].
  apply keeps_if; [apply keeps_throw|].
  apply keeps_bind; [apply keeps_updateFiles; constructor|intros _].
  apply keeps_processDownloaded.
Qed.

Lemma keeps_tryBlock : keepsFiles Q (tryBlock env).
Proof.
  unfold tryBlock.
  apply keeps_bind; [apply keeps_lift|intros profile].
  apply keeps_bind; [apply keeps_formDataOf|intros formData].
  apply keeps_if; [apply keeps_throw|].
  apply keeps_if; [apply keeps_throw|].
  apply keeps_bind; [apply keeps_selectFile|intros fileMetadata].
  apply keeps_if; [apply keeps_throw|].
  apply keeps_if; [apply keeps_throw|].
  apply keeps_admission.
Qed.

Lemma keeps_failureFinalize (error : JsError) : keepsFiles Q (failureFinalize env error).
Proof.
  unfold failureFinalize.
  apply keeps_bind; [apply keeps_formDataOf|intros formData].
  apply keeps_if; [apply keeps_updateFiles; constructor|apply keeps_ret].
Qed.

Lemma keeps_POST : keepsFiles Q (POST env).
Proof.
  unfold POST. apply keeps_tryCatch; [apply keeps_tryBlock|intros error].
  unfold catchBlock. apply keeps_bind; [|intros; apply keeps_ret].
  apply keeps_tryCatch; [apply keeps_failureFinalize|intros; apply keeps_ret].
Qed.

End Keeps.

End RouteFacts.

(* ================================================================== *)
(** * The route: the paths of a run *)
(* ================================================================== *)

Section RoutePaths.

Context {Embedding : Type}.
Variable env : Env Embedding.

Local Open Scope string_scope.
Local Open Scope list_scope.
Local Open Scope route_scope.

Lemma truthy_some (s : string) : s <> EmptyString -> truthy (Some s) = true /\ orElse (Some s) EmptyString = s.
Proof. destruct s; [intros H; now contradiction H|auto]. Qed.

Lemma length_toLowerCase (s : string) : String.length (toLowerCase s) = String.length s.
Proof. induction s as [|c s IH]; simpl; congruence. Qed.

Lemma length_zero_empty (s : string) : (String.length s =? 0)%nat = false <-> s <> EmptyString.
Proof. destruct s; simpl; split; intro H; easy. Qed.

Lemma first_match_found {A} (f : A -> bool) (l : list A) (x : A) :
  In x l -> f x = true -> (0 <? List.length (firstn 1 (filter f l)))%nat = true.
Proof.
  intros Hin Hx.
  assert (Hf : In x (filter f l)) by (apply filter_In; auto).
  destruct (filter f l); [contradiction|reflexivity].
Qed.

(** A valid request passes the validation and reaches the admission
    checks, having read the body once. *)
Lemma tryBlock_valid (w : World Embedding) (profile : Profile)
    (file_id provider : string) (fileMetadata : FileRow) :
  ValidRequest env w profile file_id provider fileMetadata ->
  tryBlock env w = admission env profile file_id provider fileMetadata (bodyRead w).
Proof.
  intros [Hprofile Hform Hid Hprov Hmeta Hrow Howner Hsize].
  assert (Hp : provider <> EmptyString) by (destruct Hprov; subst; discriminate).
  destruct (truthy_some file_id Hid) as [Tid Oid].
  destruct (truthy_some provider Hp) as [Tp Op].
  unfold tryBlock, bind, lift, formDataOf. rewrite Hprofile. cbn [ret].
  rewrite Hform. cbn [fd_file_id fd_embeddingsProvider].
  rewrite Tid, Tp, Oid, Op. cbn [negb orb].
  replace (String.eqb provider "openai" || String.eqb provider "local") with true
    by (destruct Hprov; subst; reflexivity).
  cbn [negb]. unfold selectFile. rewrite Hmeta. cbn [files]. rewrite Hrow.
  rewrite Howner, String.eqb_refl. cbn [negb].
  apply N.ltb_ge in Hsize. rewrite Hsize. reflexivity.
Qed.

(** With a chunk row on record the admission stops at once. *)
Lemma admission_existing (w : World Embedding) (profile : Profile)
    (file_id provider : string) (fileMetadata : FileRow) :
  hasChunkRow env w file_id ->
  admission env profile file_id provider fileMetadata w = (inr alreadyProcessed, w).
Proof.
  intros [Hfault (row & Hin & Hrow)].
  unfold admission, bind, selectExistingChunks. rewrite Hfault.
  rewrite (first_match_found _ _ row Hin); [reflexivity|].
  rewrite Hrow. apply String.eqb_refl.
Qed.

(** The route on a valid request for a file with a chunk row. *)
Lemma POST_already_processed (w : World Embedding) (profile : Profile)
    (file_id provider : string) (fileMetadata : FileRow) :
  ValidRequest env w profile file_id provider fileMetadata ->
  hasChunkRow env w file_id ->
  POST env w = (inr alreadyProcessed, bodyRead w).
Proof.
  intros Hvalid Hrows. unfold POST, tryCatch.
  rewrite (tryBlock_valid _ _ _ _ _ Hvalid).
  rewrite admission_existing; [reflexivity|exact Hrows].
Qed.

(** The write that claims the job, when the store applies it. *)
Lemma claim_written (w : World Embedding) (file_id : string) :
  updateFiles env (markProcessing env) file_id (bodyRead w)
  = (inr tt, claimed env file_id w).
Proof.
  unfold updateFiles, claimed. cbn [writes bodyRead files file_items requests bodyReads].
  destruct (write_fault env (writes w)); reflexivity.
Qed.

(** An admitted request reaches the extraction in the claimed world. *)
Lemma tryBlock_reaches (w : World Embedding) (profile : Profile)
    (file_id provider : string) (fileMetadata : FileRow) (fileBuffer : string) :
  ReachesExtraction env w profile file_id provider fileMetadata fileBuffer ->
  tryBlock env w
  = (totals <- processFileInBatches env file_id (p_user_id profile) provider
                 (toLowerCase (splitPop (f_name fileMetadata))) fileBuffer ;;
     updateFiles env (markCompleted env (snd totals)) file_id ;;;
     ret (embedSuccessful env (fst totals) (snd totals)))
    (claimed env file_id w).
Proof.
  intros [Hvalid Hnone Hstatus Hdl Hbytes Hext Hkey].
  rewrite (tryBlock_valid _ _ _ _ _ Hvalid).
  unfold admission. unfold bind at 1. unfold selectExistingChunks.
  replace (match (if items_fault env then _ else _) with
           | (inl e, w') => _ | (inr a, w') => _ end)
    with ((if status_eqb (processing_status fileMetadata) processing
           then throw (Error "File is currently being processed by another request")
           else updateFiles env (markProcessing env) file_id ;;;
                processDownloaded env profile file_id provider fileMetadata)
            (bodyRead w)).
  2:{ destruct (items_fault env); [reflexivity|].
      destruct Hnone as [Hf|Hf]; [discriminate|].
      cbn [file_items bodyRead]. rewrite Hf. reflexivity. }
  replace (status_eqb (processing_status fileMetadata) processing) with false
    by (destruct (processing_status fileMetadata); try reflexivity; now contradiction Hstatus).
  unfold bind at 1. rewrite claim_written.
  unfold processDownloaded. rewrite Hdl. cbn [dl_error dl_data arrayBuffer].
  apply length_zero_empty in Hbytes. rewrite Hbytes.
  assert (Hlen : (String.length (toLowerCase (splitPop (f_name fileMetadata))) =? 0)%nat
                 = false).
  { rewrite length_toLowerCase. now apply length_zero_empty. }
  rewrite Hlen. unfold bind at 1.
  destruct (String.eqb provider "openai") eqn:Hprov.
  - apply String.eqb_eq in Hprov. unfold checkProviderKey. rewrite (Hkey Hprov).
    reflexivity.
  - reflexivity.
Qed.

End RoutePaths.

(* ================================================================== *)
(** * The route: outcomes *)
(* ================================================================== *)

Section RouteOutcomes.

Context {Embedding : Type}.
Variable env : Env Embedding.

Local Open Scope string_scope.
Local Open Scope list_scope.
Local Open Scope route_scope.

Lemma bind_ok {A B} (m : M Embedding A) (k : A -> M Embedding B) (w w' : World Embedding) (b : B) :
  bind m k w = (inr b, w') ->
  exists a w1, m w = (inr a, w1) /\ k a w1 = (inr b, w').
Proof.
  unfold bind. destruct (m w) as [[e|a] w1]; [discriminate|]. eauto.
Qed.

(** Every patch leaves the key of a row alone. *)
Lemma patch_keeps_id (patch : FileRow -> FileRow) :
  isPatch env patch -> forall row, f_id (patch row) = f_id row.
Proof. intros []; reflexivity. Qed.

(** Every patch produces a row that satisfies the error invariant. *)
Lemma patch_error_invariant (patch : FileRow -> FileRow) :
  isPatch env patch -> forall row, errorOnlyWhenFailed (patch row).
Proof.
  intros [| |error] row Herr; cbn in Herr |- *; try now contradiction Herr.
  destruct (messageIncludes error "timeout"); auto.
Qed.

(** The rows of a given key after an update are patched rows. *)
Lemma patched_row (patch : FileRow -> FileRow) (file_id : string) (rows : list FileRow)
    (row : FileRow) :
  isPatch env patch ->
  In row (patchRows patch file_id rows) -> f_id row = file_id ->
  exists row0, In row0 rows /\ row = patch row0.
Proof.
  intros Hp Hin Hid. unfold patchRows in Hin. apply in_map_iff in Hin as (row0 & Heq & Hin0).
  exists row0. split; [assumption|].
  destruct (String.eqb (f_id row0) file_id) eqn:Hk; [now symmetry|].
  subst row. rewrite Hid in Hk. now rewrite String.eqb_refl in Hk.
Qed.

Lemma stable_error_invariant : stable env (Forall errorOnlyWhenFailed).
Proof.
  intros patch file_id rows Hp Hall. unfold patchRows. apply Forall_map.
  apply Forall_forall. intros row Hin.
  destruct (String.eqb (f_id row) file_id).
  - now apply patch_error_invariant.
  - exact (proj1 (Forall_forall _ _) Hall row Hin).
Qed.

Lemma stable_has_row (file_id : string) :
  stable env (fun rows => exists row, In row rows /\ f_id row = file_id).
Proof.
  intros patch fid rows Hp (row & Hin & Hid). unfold patchRows.
  exists (if String.eqb (f_id row) fid then patch row else row). split.
  - apply in_map_iff. eauto.
  - destruct (String.eqb (f_id row) fid); [|assumption].
    now rewrite (patch_keeps_id _ Hp).
Qed.

(** An update never throws. *)
Lemma updateFiles_returns (patch : FileRow -> FileRow) (file_id : string) (w : World Embedding) :
  fst (updateFiles env patch file_id w) = inr tt.
Proof. unfold updateFiles. destruct (write_fault env (writes w)); reflexivity. Qed.

(** An update that is applied has patched the table. *)
Lemma updateFiles_applied (patch : FileRow -> FileRow) (file_id : string) (w : World Embedding) :
  write_fault env (writes w) = None ->
  files (snd (updateFiles env patch file_id w)) = patchRows patch file_id (files w).
Proof. intros H. unfold updateFiles. now rewrite H. Qed.

(** An update that fails has changed neither table nor the log. *)
Lemma updateFiles_refused (patch : FileRow -> FileRow) (file_id : string)
    (w : World Embedding) (e : JsError) :
  write_fault env (writes w) = Some e ->
  files (snd (updateFiles env patch file_id w)) = files w
  /\ file_items (snd (updateFiles env patch file_id w)) = file_items w
  /\ requests (snd (updateFiles env patch file_id w)) = requests w.
Proof. intros H. unfold updateFiles. rewrite H. auto. Qed.

(** The finalize of the failure path touches neither the chunk rows nor
    the provider. *)
Lemma failureFinalize_frame (error : JsError) (w : World Embedding) :
  file_items (snd (failureFinalize env error w)) = file_items w
  /\ requests (snd (failureFinalize env error w)) = requests w.
Proof.
  unfold failureFinalize, bind, formDataOf.
  destruct (req_formData env (bodyReads w)) as [e|formData]; [auto|].
  destruct (truthy (fd_file_id formData)); [|auto].
  unfold updateFiles. cbn [writes]. destruct (write_fault env (writes w)); auto.
Qed.

(** The finalize throws exactly when the body cannot be read again, and
    then leaves the [files] table as it found it. *)
Lemma failureFinalize_throws (error e2 : JsError) (w w2 : World Embedding) :
  failureFinalize env error w = (inl e2, w2) ->
  req_formData env (bodyReads w) = inl e2 /\ files w2 = files w.
Proof.
  unfold failureFinalize, bind, formDataOf.
  destruct (req_formData env (bodyReads w)) as [e|formData].
  - intros H. inversion H. split; reflexivity.
  - destruct (truthy (fd_file_id formData)); [|discriminate].
    intros H. pose proof (updateFiles_returns (markFailed env error)
                            (orElse (fd_file_id formData) EmptyString)
                            (mkWorld (files w) (file_items w) (requests w)
                                     (S (bodyReads w)) (writes w))) as Hret.
    rewrite H in Hret. discriminate Hret.
Qed.

(** A finalize whose status write fails leaves the [files] table as it
    found it. *)
Lemma failureFinalize_refused (error e2 : JsError) (w : World Embedding) :
  write_fault env (writes w) = Some e2 ->
  files (snd (failureFinalize env error w)) = files w.
Proof.
  intros Hwrite. unfold failureFinalize, bind, formDataOf.
  destruct (req_formData env (bodyReads w)) as [e|formData]; [reflexivity|].
  destruct (truthy (fd_file_id formData)); [|reflexivity].
  unfold updateFiles. cbn [writes]. now rewrite Hwrite.
Qed.

(** A finalize that reads the file id back and whose write is applied
    patches the rows of that file with [markFailed]. *)
Lemma failureFinalize_applied (error : JsError) (w : World Embedding) (formData : FormData) :
  req_formData env (bodyReads w) = inr formData ->
  truthy (fd_file_id formData) = true ->
  write_fault env (writes w) = None ->
  files (snd (failureFinalize env error w))
  = patchRows (markFailed env error) (orElse (fd_file_id formData) EmptyString) (files w).
Proof.
  intros Hread Hid Hwrite. unfold failureFinalize, bind, formDataOf.
  rewrite Hread, Hid. unfold updateFiles. cbn [writes]. rewrite Hwrite. reflexivity.
Qed.

(** Whatever the finalize does, a failed [try] block is answered with the
    response of its own error. *)
Lemma POST_failed (w w1 : World Embedding) (error : JsError) :
  tryBlock env w = (inl error, w1) ->
  POST env w
  = (inr (errorResponse env error),
     snd (tryCatch (failureFinalize env error) (fun _ => ret tt) w1)).
Proof.
  intros Htry. unfold POST. unfold tryCatch at 1. rewrite Htry.
  unfold catchBlock, bind.
  destruct (tryCatch (failureFinalize env error) (fun _ => ret tt) w1) as [[e|[]] w2] eqn:Hfin;
    [|reflexivity].
  unfold tryCatch in Hfin.
  destruct (failureFinalize env error w1) as [[e2|[]] w3]; discriminate.
Qed.

Lemma POST_returned (w w' : World Embedding) (resp : Response) :
  tryBlock env w = (inr resp, w') -> POST env w = (inr resp, w').
Proof. intros Htry. unfold POST, tryCatch. now rewrite Htry. Qed.

End RouteOutcomes.

Section RouteClaims.

Context {Embedding : Type}.
Variable env : Env Embedding.

Local Open Scope string_scope.
Local Open Scope list_scope.
Local Open Scope route_scope.

Ltac thrown H := solve [unfold throw in H; discriminate H].

(** A [try] block that returns anything but the no-op response has ended
    with the write that marks the file of the request completed. *)
Lemma tryBlock_completed (w w' : World Embedding) (resp : Response) :
  tryBlock env w = (inr resp, w') ->
  resp <> alreadyProcessed ->
  exists formData totals w5,
    req_formData env (bodyReads w) = inr formData
    /\ (exists row, In row (files w) /\ f_id row = orElse (fd_file_id formData) EmptyString)
    /\ resp = embedSuccessful env (fst totals) (snd totals)
    /\ updateFiles env (markCompleted env (snd totals))
                   (orElse (fd_file_id formData) EmptyString) w5 = (inr tt, w').
Proof.
  intros H Hresp. unfold tryBlock in H.
  apply bind_ok in H as (profile & w0 & Hp & H).
  destruct (getServerProfile env); [thrown Hp|]. inversion Hp; subst; clear Hp.
  apply bind_ok in H as (formData & w1 & Hf & H).
  unfold formDataOf in Hf. inversion Hf as [[Hread Hw1]]. clear Hf.
  destruct (negb (truthy (fd_file_id formData)) || _); [thrown H|].
  destruct (negb (_ || _)); [thrown H|].
  apply bind_ok in H as (fileMetadata & w2 & Hsel & H).
  unfold selectFile in Hsel. destruct (metadata_fault env); [discriminate|].
  destruct (find _ (files w1)) as [row|] eqn:Hfind; [|discriminate].
  inversion Hsel; subst row w2; clear Hsel.
  apply find_some in Hfind as [Hin Hid]. apply String.eqb_eq in Hid.
  rewrite <- Hw1 in Hin. cbn [files] in Hin.
  destruct (negb (String.eqb _ _)); [thrown H|].
  destruct (200 * 1024 * 1024 <? f_size fileMetadata)%N; [thrown H|].
  unfold admission in H.
  apply bind_ok in H as (existing & w3 & He & H).
  destruct (match existing with Some rows => _ | None => _ end).
  { inversion H. subst. now contradiction Hresp. }
  destruct (status_eqb _ _); [thrown H|].
  apply bind_ok in H as ([] & w4 & Hclaim & H).
  unfold processDownloaded in H.
  destruct (dl_error _); [thrown H|].
  destruct (dl_data _) as [file|]; [|thrown H].
  destruct (arrayBuffer file) as [e|fileBuffer]; [thrown H|].
  destruct (String.length fileBuffer =? 0)%nat; [thrown H|].
  destruct (String.length _ =? 0)%nat; [thrown H|].
  apply bind_ok in H as ([] & w5 & Hkey & H).
  apply bind_ok in H as (totals & w6 & Hproc & H).
  apply bind_ok in H as ([] & w7 & Hupd & H).
  inversion H; subst.
  exists formData, totals, w6. repeat split; try assumption.
  exists fileMetadata. auto.
Qed.

(** C3 (amended).  For every valid request (both parameters present,
    provider recognised, metadata retrieved, caller owns the file, size
    within 200 MiB) on a file of which the chunk look-up finds a row, the
    route answers 200 "File already processed" and has written nothing:
    both tables are as before, no request went to the provider, no write
    was issued. *)
Theorem idempotency_guard (w : World Embedding) (profile : Profile)
    (file_id provider : string) (fileMetadata : FileRow) :
  ValidRequest env w profile file_id provider fileMetadata ->
  hasChunkRow env w file_id ->
  fst (POST env w) = inr alreadyProcessed
  /\ status alreadyProcessed = 200%N
  /\ files (snd (POST env w)) = files w
  /\ file_items (snd (POST env w)) = file_items w
  /\ requests (snd (POST env w)) = requests w
  /\ writes (snd (POST env w)) = writes w.
Proof.
  intros Hvalid Hrows.
  rewrite (POST_already_processed env _ _ _ _ _ Hvalid Hrows).
  repeat split.
Qed.

(** C10.  When the admission check finds chunk rows the response is the
    constant one: statistics 0, 0, 0, whatever is stored for the file. *)
Theorem already_processed_statistics (w : World Embedding) (profile : Profile)
    (file_id provider : string) (fileMetadata : FileRow) :
  ValidRequest env w profile file_id provider fileMetadata ->
  hasChunkRow env w file_id ->
  exists resp,
    fst (POST env w) = inr resp
    /\ body resp = SuccessBody "File already processed" (mkStats 0 0 0 None).
Proof.
  intros Hvalid Hrows. exists alreadyProcessed.
  rewrite (POST_already_processed env _ _ _ _ _ Hvalid Hrows).
  split; reflexivity.
Qed.

Ltac leaf := repeat split; intros; cbn [orb] in *; try discriminate; reflexivity.

(** The code and the message the [catch] block picks, keyword by
    keyword, the first group found in the message deciding. *)
Lemma categorize_table (error : JsError) :
  (mentions error ["timeout"] = true ->
   categorize error
   = ("Processing timed out. The file is too large or complex for processing.", 408%N))
  /\ (mentions error ["timeout"] = false ->
      mentions error ["too large"; "size"] = true ->
      categorize error
      = ("File is too large for processing. Please try a smaller file.", 413%N))
  /\ (mentions error ["timeout"; "too large"; "size"] = false ->
      mentions error ["unauthorized"; "Unauthorized"] = true ->
      categorize error = ("Unauthorized access to file.", 403%N))
  /\ (mentions error ["timeout"; "too large"; "size"; "unauthorized"; "Unauthorized"] = false ->
      mentions error ["not found"; "File not found"] = true ->
      categorize error = ("File not found. It may have been deleted.", 404%N))
  /\ (mentions error ["timeout"; "too large"; "size"; "unauthorized"; "Unauthorized";
                      "not found"; "File not found"] = false ->
      mentions error ["token"; "limit"] = true ->
      categorize error
      = ("File exceeds processing limits. Please try a smaller file.", 413%N))
  /\ (mentions error ["timeout"; "too large"; "size"; "unauthorized"; "Unauthorized";
                      "not found"; "File not found"; "token"; "limit"] = false ->
      mentions error ["network"; "connection"] = true ->
      categorize error = ("Network error during processing. Please try again.", 503%N))
  /\ (mentions error ["timeout"; "too large"; "size"; "unauthorized"; "Unauthorized";
                      "not found"; "File not found"; "token"; "limit";
                      "network"; "connection"] = false ->
      categorize error
      = (orElse (message error) "An unexpected error occurred during file processing",
         500%N)).
Proof.
  unfold categorize, mentions. cbn [existsb].
  destruct (messageIncludes error "timeout"); [leaf|].
  destruct (messageIncludes error "too large"); [leaf|].
  destruct (messageIncludes error "size"); [leaf|].
  destruct (messageIncludes error "unauthorized"); [leaf|].
  destruct (messageIncludes error "Unauthorized"); [leaf|].
  destruct (messageIncludes error "not found"); [leaf|].
  destruct (messageIncludes error "File not found"); [leaf|].
  destruct (messageIncludes error "token"); [leaf|].
  destruct (messageIncludes error "limit"); [leaf|].
  destruct (messageIncludes error "network"); [leaf|].
  destruct (messageIncludes error "connection"); leaf.
Qed.

(** C9.  When the [try] block fails with [error] and the finalize of the
    failure path fails in turn, by throwing (which it does when the body
    cannot be read again) or by a status write that the store refuses,
    the route still answers with the category and the message of
    [error]: code 408, 413, 403, 404, 413 or 503 with the fixed message
    of the first keyword group found in the message of [error], else code
    500 with the message of [error] itself; and both tables are as the
    failed block left them. *)
Theorem failure_finalize_best_effort (w w1 : World Embedding) (error : JsError) :
  tryBlock env w = (inl error, w1) ->
  (exists e2, fst (failureFinalize env error w1) = inl e2)
  \/ (exists e2, write_fault env (writes w1) = Some e2) ->
  exists code text,
    fst (POST env w)
    = inr (mkResponse code
             (ErrorBody text (processingTime env)
                        (if development env then message error else None)))
    /\ (mentions error ["timeout"] = true ->
        code = 408%N
        /\ text = "Processing timed out. The file is too large or complex for processing.")
    /\ (mentions error ["timeout"] = false ->
        mentions error ["too large"; "size"] = true ->
        code = 413%N
        /\ text = "File is too large for processing. Please try a smaller file.")
    /\ (mentions error ["timeout"; "too large"; "size"] = false ->
        mentions error ["unauthorized"; "Unauthorized"] = true ->
        code = 403%N /\ text = "Unauthorized access to file.")
    /\ (mentions error ["timeout"; "too large"; "size"; "unauthorized"; "Unauthorized"]
        = false ->
        mentions error ["not found"; "File not found"] = true ->
        code = 404%N /\ text = "File not found. It may have been deleted.")
    /\ (mentions error ["timeout"; "too large"; "size"; "unauthorized"; "Unauthorized";
                        "not found"; "File not found"] = false ->
        mentions error ["token"; "limit"] = true ->
        code = 413%N
        /\ text = "File exceeds processing limits. Please try a smaller file.")
    /\ (mentions error ["timeout"; "too large"; "size"; "unauthorized"; "Unauthorized";
                        "not found"; "File not found"; "token"; "limit"] = false ->
        mentions error ["network"; "connection"] = true ->
        code = 503%N /\ text = "Network error during processing. Please try again.")
    /\ (mentions error ["timeout"; "too large"; "size"; "unauthorized"; "Unauthorized";
                        "not found"; "File not found"; "token"; "limit";
                        "network"; "connection"] = false ->
        code = 500%N
        /\ text = orElse (message error)
                         "An unexpected error occurred during file processing")
    /\ files (snd (POST env w)) = files w1
    /\ file_items (snd (POST env w)) = file_items w1.
Proof.
  intros Htry Hfails.
  exists (snd (categorize error)), (fst (categorize error)).
  rewrite (POST_failed env _ _ _ Htry). cbn [fst snd].
  split; [reflexivity|].
  destruct (categorize_table error) as (T1 & T2 & T3 & T4 & T5 & T6 & T7).
  split; [intros H; now rewrite (T1 H)|].
  split; [intros H H'; now rewrite (T2 H H')|].
  split; [intros H H'; now rewrite (T3 H H')|].
  split; [intros H H'; now rewrite (T4 H H')|].
  split; [intros H H'; now rewrite (T5 H H')|].
  split; [intros H H'; now rewrite (T6 H H')|].
  split; [intros H; now rewrite (T7 H)|].
  pose proof (failureFinalize_frame env error w1) as [Hitems _].
  unfold tryCatch.
  destruct Hfails as [[e2 Hfin]|[e2 Hwrite]].
  - destruct (failureFinalize env error w1) as [[e|[]] w2] eqn:Hrun; cbn [fst snd] in *;
      [|discriminate].
    split; [|assumption]. exact (proj2 (failureFinalize_throws env _ _ _ _ Hrun)).
  - pose proof (failureFinalize_refused env error e2 w1 Hwrite) as Hfiles.
    destruct (failureFinalize env error w1) as [[e|[]] w2]; cbn [fst snd ret] in *;
      split; assumption.
Qed.

(** A request that is admitted and reaches the extension switch with an
    extension the switch does not know, or with an extraction of zero
    chunks, is rejected after the write that claims the job: the [try]
    block throws in the claimed world, where the row of the file is
    already [processing] (when the store has applied that write); the
    response has code 500 and the message of
    the error; no chunk row is written and no request goes to the
    provider.  The row ends [failed] with that message when the finalize
    reads the file id back and its write is applied, and stays
    [processing] when the body cannot be read again. *)
Lemma rejection_after_claim (w : World Embedding) (profile : Profile)
    (file_id provider : string) (fileMetadata : FileRow) (fileBuffer msg : string) :
  ReachesExtraction env w profile file_id provider fileMetadata fileBuffer ->
  (unsupported (toLowerCase (splitPop (f_name fileMetadata)))
   /\ msg = "Unsupported file type")
  \/ (extractChunks env (toLowerCase (splitPop (f_name fileMetadata))) fileBuffer = inr []
      /\ msg = "File could not be processed or is empty") ->
  tryBlock env w = (inl (Error msg), claimed env file_id w)
  /\ (write_fault env (writes w) = None ->
      In (markProcessing env fileMetadata) (files (claimed env file_id w)))
  /\ fst (POST env w)
     = inr (mkResponse 500 (ErrorBody msg (processingTime env)
                                     (if development env then Some msg else None)))
  /\ file_items (snd (POST env w)) = file_items w
  /\ requests (snd (POST env w)) = requests w
  /\ (req_formData env (S (bodyReads w)) = inr (mkForm (Some file_id) (Some provider)) ->
      write_fault env (S (writes w)) = None ->
      files (snd (POST env w))
      = patchRows (markFailed env (Error msg)) file_id (files (claimed env file_id w)))
  /\ ((exists e2, req_formData env (S (bodyReads w)) = inl e2) ->
      files (snd (POST env w)) = files (claimed env file_id w)).
Proof.
  intros Hreach Hcase.
  assert (Htry : tryBlock env w = (inl (Error msg), claimed env file_id w)).
  { rewrite (tryBlock_reaches env _ _ _ _ _ _ Hreach).
    unfold bind at 1. unfold processFileInBatches, bind at 1.
    destruct Hcase as [[(Hcsv & Hjson & Hmd & Hpdf & Htxt) ->]|[Hzero ->]].
    - unfold extractChunks.
      apply String.eqb_neq in Hcsv, Hjson, Hmd, Hpdf, Htxt.
      rewrite Hcsv, Hjson, Hmd, Hpdf, Htxt. reflexivity.
    - rewrite Hzero. reflexivity. }
  split; [exact Htry|]. split.
  { intros Hclaim. destruct Hreach as [[_ _ _ _ _ Hrow _ _] _ _ _ _ _ _].
    apply find_some in Hrow as [Hin Hid].
    cbn [claimed files]. rewrite Hclaim. apply in_map_iff.
    exists fileMetadata. now rewrite Hid. }
  rewrite (POST_failed env _ _ _ Htry). cbn [fst snd]. split.
  { destruct Hcase as [[_ ->]|[_ ->]]; reflexivity. }
  unfold tryCatch.
  pose proof (failureFinalize_frame env (Error msg) (claimed env file_id w)) as [Hi Hr].
  split; [|split; [|split]].
  - destruct (failureFinalize env (Error msg) (claimed env file_id w)) as [[e|[]] w2];
      cbn [fst snd ret] in *; auto.
  - destruct (failureFinalize env (Error msg) (claimed env file_id w)) as [[e|[]] w2];
      cbn [fst snd ret] in *; auto.
  - intros Hread Hwrite.
    destruct Hreach as [[_ _ Hid _ _ _ _ _] _ _ _ _ _ _].
    destruct (truthy_some file_id Hid) as [Tid Oid].
    pose proof (failureFinalize_applied env (Error msg) (claimed env file_id w)
                  (mkForm (Some file_id) (Some provider)) Hread Tid Hwrite) as Hfiles.
    cbn [fd_file_id] in Hfiles. rewrite Oid in Hfiles.
    destruct (failureFinalize env (Error msg) (claimed env file_id w)) as [[e|[]] w2] eqn:Hrun;
      cbn [fst snd ret] in *; [|exact Hfiles].
    apply failureFinalize_throws in Hrun as [Hbad _].
    cbn [claimed bodyReads] in Hbad. rewrite Hread in Hbad. discriminate Hbad.
  - intros [e2 Hread].
    unfold failureFinalize, bind, formDataOf. cbn [claimed bodyReads]. rewrite Hread.
    reflexivity.
Qed.

End RouteClaims.

(* ================================================================== *)
(** * The PDF extractor *)
(* ================================================================== *)

Section PdfFacts.

Context {Embedding : Type}.
Variable env : Env Embedding.

Local Open Scope list_scope.





End PdfFacts.



(* ================================================================== *)
(** * The batch loop never runs out of turns *)
(* ================================================================== *)

(** Turns beyond [chunks.length - i] change nothing: the bound passed by
    [processFileInBatches] is never the reason the loop stops. *)
Lemma batchLoop_fuel {Embedding : Type} (env : Env Embedding)
    (file_id user_id provider : string) (chunks : list FileItemChunk) (extra : nat) :
  forall fuel i w,
    (List.length chunks <= i + fuel)%nat ->
    batchLoop env fuel file_id user_id provider chunks i w
    = batchLoop env (fuel + extra) file_id user_id provider chunks i w.
Proof.
  induction fuel as [|fuel IH]; intros i w Hlen.
  - destruct extra as [|extra]; [reflexivity|]. cbn [batchLoop Nat.add].
    replace (i <? List.length chunks)%nat with false; [reflexivity|].
    symmetry. apply Nat.ltb_ge. lia.
  - cbn [batchLoop Nat.add].
    destruct (i <? List.length chunks)%nat; [|reflexivity].
    unfold bind.
    destruct (processBatchEmbeddings env _ provider w) as [[e|out] w1]; [reflexivity|].
    destruct (upsertItems env _ w1) as [[e|[]] w2]; [reflexivity|].
    apply IH. unfold BATCH_SIZE. lia.
Qed.

(* ================================================================== *)
(** * The client retry driver *)
(* ================================================================== *)

Section DriverFacts.

Import Driver.

Variable server : nat -> N * (JsError + FetchResponse).

Lemma retryable_abort (error : JsError) :
  err_name error = "AbortError"%string -> retryable error = true.
Proof. intros H. unfold retryable. now rewrite H. Qed.

Lemma finalToast_abort (error : JsError) :
  err_name error = "AbortError"%string -> finalToast error = TimedOutAfterAttempts 15000.
Proof. intros H. unfold finalToast. now rewrite H. Qed.

(** A call whose attempt is aborted while retries remain. *)
Lemma processFileInBackground_retry (retryCount : nat) (clock : N) (error : JsError) :
  (retryCount < maxRetries)%nat ->
  snd (attempt server retryCount) = inl error ->
  err_name error = "AbortError"%string ->
  processFileInBackground server retryCount clock
  = Attempt retryCount clock (timeoutDuration retryCount)
    :: Shown (clock + fst (attempt server retryCount))
         (Retrying (roundSeconds (delay retryCount)) (retryCount + 1) maxRetries
                   (delay retryCount))
    :: Scheduled (clock + fst (attempt server retryCount)) (delay retryCount) (retryCount + 1)
    :: processFileInBackground server (retryCount + 1)
         (clock + fst (attempt server retryCount) + delay retryCount).
Proof.
  intros Hlt Hsnd Hname.
  rewrite (processFileInBackground_equation_1 server retryCount clock).
  destruct (attempt server retryCount) as [elapsed outcome]. cbn [fst snd] in *. subst outcome.
  cbn [processFileInBackground_unfold_clause_1].
  destruct (lt_dec retryCount maxRetries) as [Hl|Hn]; [|contradiction].
  cbn [processFileInBackground_unfold_clause_1_clause_2].
  rewrite (retryable_abort _ Hname). reflexivity.
Qed.

(** A call whose attempt is aborted when no retry remains. *)
Lemma processFileInBackground_last (retryCount : nat) (clock : N) (error : JsError) :
  ~ (retryCount < maxRetries)%nat ->
  snd (attempt server retryCount) = inl error ->
  err_name error = "AbortError"%string ->
  processFileInBackground server retryCount clock
  = [Attempt retryCount clock (timeoutDuration retryCount);
     Shown (clock + fst (attempt server retryCount)) (TimedOutAfterAttempts 15000)].
Proof.
  intros Hlt Hsnd Hname.
  rewrite (processFileInBackground_equation_1 server retryCount clock).
  destruct (attempt server retryCount) as [elapsed outcome]. cbn [fst snd] in *. subst outcome.
  cbn [processFileInBackground_unfold_clause_1].
  destruct (lt_dec retryCount maxRetries) as [Hl|Hn]; [contradiction|].
  cbn [processFileInBackground_unfold_clause_1_clause_2].
  now rewrite (finalToast_abort _ Hname).
Qed.

(** C8 (amended).  When each of the four attempts is aborted, the driver
    makes exactly four attempts, with deadlines of 10 minutes, then 5
    minutes three times; the retries are scheduled 2000, 4000 and 8000 ms
    after the failure of the attempt before, that is
    [baseDelay * 2 ^ (k - 1)] before extra attempt [k]; so attempt [k]
    starts at the sum of the durations of the failed attempts and of the
    delays before it; the last notification is the final time-out
    failure. *)
Theorem backoff_schedule (clock : N) :
  (forall k, (k <= 3)%nat ->
             exists error, snd (attempt server k) = inl error
                           /\ err_name error = "AbortError"%string) ->
  attemptsOf (processFileInBackground server 0 clock)
  = [(0%nat, clock, 600000%N);
     (1%nat, clock + fst (attempt server 0) + 2000, 300000)%N;
     (2%nat, clock + fst (attempt server 0) + 2000
             + fst (attempt server 1) + 4000, 300000)%N;
     (3%nat, clock + fst (attempt server 0) + 2000
             + fst (attempt server 1) + 4000
             + fst (attempt server 2) + 8000, 300000)%N]
  /\ delaysOf (processFileInBackground server 0 clock)
     = map (fun k => (baseDelay * 2 ^ (N.of_nat k - 1))%N) [1; 2; 3]%nat
  /\ delaysOf (processFileInBackground server 0 clock) = [2000; 4000; 8000]%N
  /\ lastShown (processFileInBackground server 0 clock) None
     = Some (TimedOutAfterAttempts 15000).
Proof.
  intros Habort.
  destruct (Habort 0%nat ltac:(lia)) as (e0 & H0 & N0).
  destruct (Habort 1%nat ltac:(lia)) as (e1 & H1 & N1).
  destruct (Habort 2%nat ltac:(lia)) as (e2 & H2 & N2).
  destruct (Habort 3%nat ltac:(lia)) as (e3 & H3 & N3).
  rewrite (processFileInBackground_retry 0 clock e0 ltac:(unfold maxRetries; lia) H0 N0).
  cbn [Nat.add].
  rewrite (processFileInBackground_retry 1 _ e1 ltac:(unfold maxRetries; lia) H1 N1).
  cbn [Nat.add].
  rewrite (processFileInBackground_retry 2 _ e2 ltac:(unfold maxRetries; lia) H2 N2).
  cbn [Nat.add].
  rewrite (processFileInBackground_last 3 _ e3 ltac:(unfold maxRetries; lia) H3 N3).
  cbn [attemptsOf delaysOf lastShown]. repeat split.
Qed.

End DriverFacts.

(** C8, as stated, fails: with attempts that are aborted at once the
    four attempts start at 0, 2000, 6000 and 14000 ms, not at 0, 2000,
    4000 and 8000; with a server that stays silent they start at 0,
    602000, 906000 and 1214000 ms. *)
Lemma attempts_start_after_cumulated_delays :
  map (fun a => snd (fst a))
      (Driver.attemptsOf
         (Driver.processFileInBackground (fun _ => (0%N, inl Driver.AbortError)) 0 0))
  = [0; 2000; 6000; 14000]%N
  /\ map (fun a => snd (fst a))
         (Driver.attemptsOf
            (Driver.processFileInBackground
               (fun _ => (3600000%N, inr (Driver.mkFetch true (inr EmptyString) 0))) 0 0))
     = [0; 602000; 906000; 1214000]%N
  /\ [0; 2000; 6000; 14000]%N <> [0; 2000; 4000; 8000]%N.
Proof. repeat split. discriminate. Qed.

(** The schedule at a server whose every attempt is aborted at once. *)
Lemma backoff_schedule_witness :
  (forall k, (k <= 3)%nat ->
     exists error,
       snd (Driver.attempt (fun _ => (0%N, inl Driver.AbortError)) k) = inl error
       /\ err_name error = "AbortError"%string)
  /\ Driver.delaysOf
       (Driver.processFileInBackground (fun _ => (0%N, inl Driver.AbortError)) 0 0)
     = [2000; 4000; 8000]%N
  /\ List.length
       (Driver.attemptsOf
          (Driver.processFileInBackground (fun _ => (0%N, inl Driver.AbortError)) 0 0))
     = 4%nat.
Proof.
  assert (Habort : forall k, (k <= 3)%nat ->
            exists error,
              snd (Driver.attempt (fun _ => (0%N, inl Driver.AbortError)) k) = inl error
              /\ err_name error = "AbortError"%string).
  { intros k _. exists Driver.AbortError. destruct k; split; reflexivity. }
  split; [exact Habort|].
  destruct (backoff_schedule (fun _ => (0%N, inl Driver.AbortError)) 0%N Habort)
    as (Hattempts & _ & Hdelays & _).
  split; [exact Hdelays|]. rewrite Hattempts. reflexivity.
Defined.

(* ================================================================== *)
(** * Runs of the route on concrete inputs *)
(* ================================================================== *)

Local Open Scope string_scope.

(** C6 (failing input).  For the chunks [a; big; b], [big] above the
    per-request ceiling, one request [a; b] is sent; the rows written
    give [a] no vector, [big] the vector of [a], and [b] its own. *)
Theorem oversized_row_takes_neighbour_vector :
  file_items (snd (POST (Demo.env (inr Demo.form)
                           [Demo.small "a"; Demo.oversized "big"; Demo.small "b"] [])
                        (Demo.pendingWorld "notes.txt")))
  = [mkItem "f1" "u1" "a" 10 None None;
     mkItem "f1" "u1" "big" 300001 (Some "a") None;
     mkItem "f1" "u1" "b" 10 (Some "b") None]
  /\ requests (snd (POST (Demo.env (inr Demo.form)
                            [Demo.small "a"; Demo.oversized "big"; Demo.small "b"] [])
                         (Demo.pendingWorld "notes.txt")))
     = [["a"; "b"]].
Proof. split; reflexivity. Qed.

(** C3, as stated, fails: a file with a chunk row whose declared size is
    300 MiB is answered 413, not "already processed", and its status,
    [completed] before, is [failed] afterwards. *)
Lemma size_check_precedes_guard :
  In Demo.storedItem
     (file_items (Demo.world (Demo.file "notes.txt" (300 * 1024 * 1024) completed)
                             [Demo.storedItem]))
  /\ fst (POST Demo.plainEnv
               (Demo.world (Demo.file "notes.txt" (300 * 1024 * 1024) completed)
                           [Demo.storedItem]))
     = inr (mkResponse 413
              (ErrorBody "File is too large for processing. Please try a smaller file."
                         7 None))
  /\ map processing_status
         (files (snd (POST Demo.plainEnv
                        (Demo.world (Demo.file "notes.txt" (300 * 1024 * 1024) completed)
                                    [Demo.storedItem]))))
     = [failed].
Proof. split; [now left|]. split; reflexivity. Qed.

(** C5 (failing input).  A fresh upload named "notes.xyz" is answered
    500, not a code of the 400 class, and the rejection comes after a
    status mutation: the row is [processing] when the switch rejects the
    file, and [failed] with the message of the rejection once the
    finalize has run.  A text file whose extraction yields no chunk is
    treated alike.  No chunk row is written.  The extension switch of the
    earlier route answers the same two cases with code 400. *)
Theorem unsupported_rejected_after_claim :
  Earlier.extensionSwitch Demo.plainEnv "xyz" "bytes"
  = inr (inl (400%N, "Unsupported file type"))
  /\ Earlier.extensionSwitch Demo.plainEnv "txt" "bytes"
     = inr (inl (400%N, "File could not be processed or is empty"))
  /\ fst (POST Demo.plainEnv (Demo.pendingWorld "notes.xyz"))
     = inr (mkResponse 500 (ErrorBody "Unsupported file type" 7 None))
  /\ map processing_status (files (Demo.pendingWorld "notes.xyz")) = [pending]
  /\ map processing_status (files (snd (tryBlock Demo.plainEnv (Demo.pendingWorld "notes.xyz"))))
     = [processing]
  /\ map (fun row => (processing_status row, processing_error row))
         (files (snd (POST Demo.plainEnv (Demo.pendingWorld "notes.xyz"))))
     = [(failed, Some "Unsupported file type")]
  /\ file_items (snd (POST Demo.plainEnv (Demo.pendingWorld "notes.xyz"))) = []
  /\ fst (POST Demo.plainEnv (Demo.pendingWorld "notes.txt"))
     = inr (mkResponse 500 (ErrorBody "File could not be processed or is empty" 7 None))
  /\ map (fun row => (processing_status row, processing_error row))
         (files (snd (POST Demo.plainEnv (Demo.pendingWorld "notes.txt"))))
     = [(failed, Some "File could not be processed or is empty")].
Proof. repeat split. Qed.

(** C4 (failing input).  The finalize of the failure path asks the
    request for its body a second time.  On a request whose body can be
    read once, a run from [pending] that fails ends [processing] with no
    error recorded, where the route means to record [failed]; the same
    run on a request that grants the second read ends [failed]. *)
Theorem failed_run_left_processing :
  Demo.bodyUsed = inl (mkError "TypeError" (Some "Body is unusable"))
  /\ fst (POST (Demo.env Demo.bodyUsed [] []) (Demo.pendingWorld "notes.xyz"))
     = inr (mkResponse 500 (ErrorBody "Unsupported file type" 7 None))
  /\ map (fun row => (processing_status row, processing_error row))
         (files (snd (POST (Demo.env Demo.bodyUsed [] []) (Demo.pendingWorld "notes.xyz"))))
     = [(processing, None)]
  /\ map (fun row => (processing_status row, processing_error row))
         (files (snd (POST (Demo.env (inr Demo.form) [] []) (Demo.pendingWorld "notes.xyz"))))
     = [(failed, Some "Unsupported file type")].
Proof. repeat split. Qed.

(** The requests of the examples are valid. *)
Lemma demo_valid (name : string) (st : ProcessingStatus)
    (items : list (FileItemRow string)) (reread : JsError + FormData)
    (txt : list FileItemChunk) (docs : list Doc) :
  ValidRequest (Demo.env reread txt docs) (Demo.world (Demo.file name 10 st) items)
               Demo.profile "f1" "openai" (Demo.file name 10 st).
Proof.
  constructor; try reflexivity; [discriminate|now left|].
  cbn. lia.
Defined.

Lemma demo_reaches (name : string) (reread : JsError + FormData)
    (txt : list FileItemChunk) (docs : list Doc) :
  splitPop name <> EmptyString ->
  ReachesExtraction (Demo.env reread txt docs) (Demo.pendingWorld name)
                    Demo.profile "f1" "openai" (Demo.file name 10 pending) "bytes".
Proof.
  intros Hext. constructor; try reflexivity; try discriminate.
  - apply demo_valid.
  - now right.
  - exact Hext.
Defined.

(** The guard at a processed file: one stored row, nothing written. *)
Lemma idempotency_guard_witness :
  ValidRequest Demo.plainEnv Demo.processedWorld Demo.profile "f1" "openai"
               (Demo.file "notes.txt" 10 completed)
  /\ hasChunkRow Demo.plainEnv Demo.processedWorld "f1"
  /\ fst (POST Demo.plainEnv Demo.processedWorld) = inr alreadyProcessed
  /\ files (snd (POST Demo.plainEnv Demo.processedWorld)) = files Demo.processedWorld
  /\ file_items (snd (POST Demo.plainEnv Demo.processedWorld)) = [Demo.storedItem]
  /\ requests (snd (POST Demo.plainEnv Demo.processedWorld)) = []
  /\ writes (snd (POST Demo.plainEnv Demo.processedWorld)) = 0%nat.
Proof.
  assert (Hrows : hasChunkRow Demo.plainEnv Demo.processedWorld "f1").
  { split; [reflexivity|]. exists Demo.storedItem. split; [now left|reflexivity]. }
  split; [apply demo_valid|]. split; [exact Hrows|].
  destruct (idempotency_guard Demo.plainEnv Demo.processedWorld Demo.profile "f1" "openai"
              (Demo.file "notes.txt" 10 completed)
              (demo_valid "notes.txt" completed [Demo.storedItem] (inr Demo.form) [] [])
              Hrows)
    as (Hresp & _ & Hfiles & Hitems & Hreq & Hwrites).
  repeat split; assumption.
Defined.

(** The statistics at a processed file with 1234 tokens on record. *)
Lemma already_processed_statistics_witness :
  ValidRequest Demo.plainEnv Demo.processedWorld Demo.profile "f1" "openai"
               (Demo.file "notes.txt" 10 completed)
  /\ hasChunkRow Demo.plainEnv Demo.processedWorld "f1"
  /\ map (fun row => fi_tokens row) (file_items Demo.processedWorld) = [1234%N]
  /\ exists resp,
       fst (POST Demo.plainEnv Demo.processedWorld) = inr resp
       /\ body resp = SuccessBody "File already processed" (mkStats 0 0 0 None).
Proof.
  assert (Hrows : hasChunkRow Demo.plainEnv Demo.processedWorld "f1").
  { split; [reflexivity|]. exists Demo.storedItem. split; [now left|reflexivity]. }
  split; [apply demo_valid|]. split; [exact Hrows|]. split; [reflexivity|].
  exact (already_processed_statistics Demo.plainEnv Demo.processedWorld Demo.profile
           "f1" "openai" (Demo.file "notes.txt" 10 completed)
           (demo_valid "notes.txt" completed [Demo.storedItem] (inr Demo.form) [] [])
           Hrows).
Defined.

(** An unsupported upload whose finalize cannot read the body again. *)
Lemma failure_finalize_best_effort_witness :
  tryBlock (Demo.env Demo.bodyUsed [] []) (Demo.pendingWorld "notes.xyz")
  = (inl (Error "Unsupported file type"),
     claimed (Demo.env Demo.bodyUsed [] []) "f1" (Demo.pendingWorld "notes.xyz"))
  /\ (exists e2,
        fst (failureFinalize (Demo.env Demo.bodyUsed [] []) (Error "Unsupported file type")
               (claimed (Demo.env Demo.bodyUsed [] []) "f1" (Demo.pendingWorld "notes.xyz")))
        = inl e2)
  /\ fst (POST (Demo.env Demo.bodyUsed [] []) (Demo.pendingWorld "notes.xyz"))
     = inr (mkResponse 500 (ErrorBody "Unsupported file type" 7 None))
  /\ files (snd (POST (Demo.env Demo.bodyUsed [] []) (Demo.pendingWorld "notes.xyz")))
     = files (claimed (Demo.env Demo.bodyUsed [] []) "f1" (Demo.pendingWorld "notes.xyz")).
Proof.
  assert (Hfin : exists e2,
            fst (failureFinalize (Demo.env Demo.bodyUsed [] []) (Error "Unsupported file type")
                   (claimed (Demo.env Demo.bodyUsed [] []) "f1" (Demo.pendingWorld "notes.xyz")))
            = inl e2).
  { exists (mkError "TypeError" (Some "Body is unusable")). reflexivity. }
  split; [reflexivity|]. split; [exact Hfin|].
  destruct (failure_finalize_best_effort (Demo.env Demo.bodyUsed [] [])
              (Demo.pendingWorld "notes.xyz")
              (claimed (Demo.env Demo.bodyUsed [] []) "f1" (Demo.pendingWorld "notes.xyz"))
              (Error "Unsupported file type") eq_refl (or_introl Hfin))
    as (code & text & Hresp & _ & _ & _ & _ & _ & _ & Hplain & Hfiles & _).
  destruct (Hplain eq_refl) as [-> ->].
  split; [exact Hresp|exact Hfiles].
Defined.

(** The pieces of the character splitter are no longer than asked. *)
Lemma length_substring_le (n : nat) :
  forall (s : string), (String.length (substring 0 n s) <= n)%nat.
Proof.
  induction n as [|n IH]; intros [|c s]; simpl; try lia.
  specialize (IH s). lia.
Qed.




(* ================================================================== *)
(** * The route: further outcomes *)
(* ================================================================== *)

Section RouteAnswers.

Context {Embedding : Type}.
Variable env : Env Embedding.

Local Open Scope string_scope.
Local Open Scope list_scope.
Local Open Scope route_scope.

Lemma response_eq_dec (a b : Response) : {a = b} + {a <> b}.
Proof. repeat decide equality. Qed.

(** The code of an error response is one of six. *)
Lemma errorResponse_status (error : JsError) :
  In (status (errorResponse env error)) [403; 404; 408; 413; 500; 503]%N.
Proof.
  unfold errorResponse, categorize. cbn [status].
  repeat match goal with
         | |- context [if ?c then _ else _] => destruct c
         end; cbn; tauto.
Qed.

(** The route always answers: whatever the collaborators do, no exception
    leaves [POST], and the code of the response is 200, 403, 404, 408,
    413, 500 or 503. *)
Theorem POST_always_responds (w : World Embedding) :
  exists resp, fst (POST env w) = inr resp /\ In (status resp) routeStatuses.
Proof.
  destruct (tryBlock env w) as [[error|resp] w1] eqn:Htry.
  - exists (errorResponse env error). rewrite (POST_failed env _ _ _ Htry).
    split; [reflexivity|].
    pose proof (errorResponse_status error) as Hin. unfold routeStatuses.
    cbn in Hin |- *. tauto.
  - exists resp. rewrite (POST_returned env _ _ _ Htry). split; [reflexivity|].
    destruct (response_eq_dec resp alreadyProcessed) as [->|Hneq]; [now left|].
    destruct (tryBlock_completed env _ _ _ Htry Hneq) as (_ & totals & _ & _ & _ & -> & _).
    now left.
Qed.

(** A valid request that finds no chunk row for a file whose status is
    [processing] is turned away before any write, with code 500; the
    finalize of the failure path, when it reads the same file id back and
    its write is applied, then overwrites the row of the job in flight
    with status [failed]. *)
Theorem concurrent_request_rejected (w : World Embedding) (profile : Profile)
    (file_id provider : string) (fileMetadata : FileRow) :
  ValidRequest env w profile file_id provider fileMetadata ->
  items_fault env = true
  \/ filter (fun r => String.eqb (fi_file_id r) file_id) (file_items w) = [] ->
  processing_status fileMetadata = processing ->
  tryBlock env w
  = (inl (Error "File is currently being processed by another request"), bodyRead w)
  /\ fst (POST env w)
     = inr (mkResponse 500
              (ErrorBody "File is currently being processed by another request"
                 (processingTime env)
                 (if development env
                  then Some "File is currently being processed by another request"
                  else None)))
  /\ (req_formData env (S (bodyReads w)) = inr (mkForm (Some file_id) (Some provider)) ->
      write_fault env (writes w) = None ->
      In (markFailed env (Error "File is currently being processed by another request")
                     fileMetadata)
         (files (snd (POST env w)))
      /\ processing_status
           (markFailed env (Error "File is currently being processed by another request")
                       fileMetadata) = failed).
Proof.
  intros Hvalid Hnone Hstatus.
  assert (Htry : tryBlock env w
                 = (inl (Error "File is currently being processed by another request"),
                    bodyRead w)).
  { rewrite (tryBlock_valid env _ _ _ _ _ Hvalid).
    unfold admission, bind, selectExistingChunks.
    destruct (items_fault env).
    - rewrite Hstatus. reflexivity.
    - destruct Hnone as [Hf|Hf]; [discriminate|].
      cbn [file_items bodyRead]. rewrite Hf. cbn. rewrite Hstatus. reflexivity. }
  split; [exact Htry|]. rewrite (POST_failed env _ _ _ Htry). cbn [fst snd].
  split; [reflexivity|].
  intros Hread Hwrite. split; [|reflexivity].
  destruct Hvalid as [_ _ Hid _ _ Hrow _ _].
  destruct (truthy_some file_id Hid) as [Tid Oid].
  unfold tryCatch, failureFinalize, bind, formDataOf. cbn [bodyReads bodyRead].
  rewrite Hread. cbn [fd_file_id]. rewrite Tid, Oid.
  unfold updateFiles. cbn [writes bodyRead]. rewrite Hwrite.
  cbn [fst snd ret files bodyRead].
  apply find_some in Hrow as [Hin Heq]. apply in_map_iff.
  exists fileMetadata. now rewrite Heq.
Qed.

End RouteAnswers.

(** A second request for a file in flight, at the example environment. *)
Lemma concurrent_request_rejected_witness :
  ValidRequest Demo.plainEnv (Demo.world (Demo.file "notes.txt" 10 processing) [])
               Demo.profile "f1" "openai" (Demo.file "notes.txt" 10 processing)
  /\ map processing_status
         (files (snd (POST Demo.plainEnv
                        (Demo.world (Demo.file "notes.txt" 10 processing) []))))
     = [failed]
  /\ In (markFailed Demo.plainEnv
           (Error "File is currently being processed by another request")
           (Demo.file "notes.txt" 10 processing))
        (files (snd (POST Demo.plainEnv
                       (Demo.world (Demo.file "notes.txt" 10 processing) [])))).
Proof.
  split; [apply demo_valid|]. split; [reflexivity|].
  destruct (concurrent_request_rejected Demo.plainEnv
              (Demo.world (Demo.file "notes.txt" 10 processing) [])
              Demo.profile "f1" "openai" (Demo.file "notes.txt" 10 processing)
              (demo_valid "notes.txt" processing [] (inr Demo.form) [] [])
              (or_intror eq_refl) eq_refl)
    as (_ & _ & Hfin).
  exact (proj1 (Hfin eq_refl eq_refl)).
Defined.

(* ================================================================== *)
(** * File extensions *)
(* ================================================================== *)

Lemma lastSegment_after_dot (base ext : string) :
  forall acc,
    lastSegment acc (base ++ String "."%char ext)%string = lastSegment EmptyString ext.
Proof.
  induction base as [|c base IH]; intros acc; cbn [append lastSegment].
  - reflexivity.
  - destruct (Ascii.eqb c "."%char); apply IH.
Qed.

Lemma lastSegment_noDot (ext : string) :
  forall acc, noDot ext = true -> lastSegment acc ext = (acc ++ ext)%string.
Proof.
  induction ext as [|c ext IH]; intros acc Hno; cbn [lastSegment noDot] in *.
  - induction acc as [|a acc IHa]; cbn; congruence.
  - apply andb_true_iff in Hno as [Hc Hext]. apply negb_true_iff in Hc. rewrite Hc.
    rewrite (IH _ Hext).
    clear. induction acc as [|a acc IHa]; cbn; congruence.
Qed.

Lemma noDot_app (a b : string) :
  noDot a = true -> noDot b = true -> noDot (a ++ b)%string = true.
Proof.
  induction a as [|c a IH]; cbn; intros Ha Hb; [assumption|].
  apply andb_true_iff in Ha as [Hc Ha]. rewrite Hc. now apply IH.
Qed.

Lemma lastSegment_has_noDot (s : string) :
  forall acc, noDot acc = true -> noDot (lastSegment acc s) = true.
Proof.
  induction s as [|c s IH]; intros acc Hacc; cbn [lastSegment]; [assumption|].
  destruct (Ascii.eqb c "."%char) eqn:Hc; [now apply IH|].
  apply IH. apply noDot_app; [assumption|]. cbn. now rewrite Hc.
Qed.

(** [name.split(".").pop()] is the text after the last dot: for a name
    [base.ext] with no dot in [ext] it is [ext]; a name with no dot at
    all is returned whole; the result never holds a dot. *)
Theorem splitPop_last_segment :
  (forall base ext, noDot ext = true ->
                    splitPop (base ++ String "."%char ext)%string = ext)
  /\ (forall name, noDot name = true -> splitPop name = name)
  /\ (forall name, noDot (splitPop name) = true).
Proof.
  unfold splitPop. split; [|split].
  - intros base ext Hno. rewrite lastSegment_after_dot. now apply lastSegment_noDot.
  - intros name Hno. now apply lastSegment_noDot.
  - intros name. now apply lastSegment_has_noDot.
Qed.

(** The extension rule at "archive.tar.GZ" and at a name without a dot. *)
Lemma splitPop_last_segment_witness :
  noDot "GZ" = true
  /\ splitPop "archive.tar.GZ" = "GZ"%string
  /\ splitPop "Makefile" = "Makefile"%string.
Proof.
  destruct splitPop_last_segment as (Hext & Hwhole & _).
  split; [reflexivity|]. split.
  - exact (Hext "archive.tar"%string "GZ"%string eq_refl).
  - exact (Hwhole "Makefile"%string eq_refl).
Defined.

(* ================================================================== *)
(** * The PDF extractor: blank pages *)
(* ================================================================== *)

Lemma pdfPages_skips_blank {Embedding : Type} (env : Env Embedding) (docs : list Doc) :
  forall chunks,
    pdfPages env (filter (fun doc => negb (trimIsEmpty (pageContent doc))) docs) chunks
    = pdfPages env docs chunks.
Proof.
  induction docs as [|doc rest IH]; intros chunks; cbn [filter pdfPages]; [reflexivity|].
  destruct (trimIsEmpty (pageContent doc)) eqn:Hblank; cbn [negb]; [apply IH|].
  cbn [pdfPages]. rewrite Hblank.
  destruct (tokenCount env (pageContent doc) <=? CHUNK_SIZE)%N; [apply IH|].
  destruct (createDocuments env CHUNK_SIZE CHUNK_OVERLAP (pageContent doc));
    [reflexivity|apply IH].
Qed.

(** Blank pages leave no trace: the chunks of a PDF are those of its
    non-blank pages, and a PDF with no page but blank ones yields no
    chunk at all, without a call of the splitter. *)
Theorem processPdf_blank_pages {Embedding : Type} (env : Env Embedding) (pdf : string)
    (docs : list Doc) :
  pdf_load env pdf = inr docs ->
  processPdf env pdf
  = pdfPages env (filter (fun doc => negb (trimIsEmpty (pageContent doc))) docs) []
  /\ (forallb (fun doc => trimIsEmpty (pageContent doc)) docs = true ->
      processPdf env pdf = inr []).
Proof.
  intros Hload. unfold processPdf. rewrite Hload. split.
  - symmetry. apply pdfPages_skips_blank.
  - intros Hall.
    assert (Hnil : filter (fun doc => negb (trimIsEmpty (pageContent doc))) docs = []).
    { clear Hload. induction docs as [|doc rest IH]; [reflexivity|].
      cbn [forallb filter] in *. apply andb_true_iff in Hall as [Hd Hrest].
      rewrite Hd. cbn [negb]. now apply IH. }
    rewrite <- pdfPages_skips_blank, Hnil. reflexivity.
Qed.

(** A PDF of three blank pages: two spaces, nothing, and a no-break
    space followed by a line feed. *)
Lemma processPdf_blank_pages_witness :
  pdf_load (Demo.env (inr Demo.form) []
              [mkDoc "  "; mkDoc EmptyString;
               mkDoc (String (ascii_of_nat 160) (String (ascii_of_nat 10) EmptyString))])
           "pdf"
  = inr [mkDoc "  "; mkDoc EmptyString;
         mkDoc (String (ascii_of_nat 160) (String (ascii_of_nat 10) EmptyString))]
  /\ processPdf (Demo.env (inr Demo.form) []
                   [mkDoc "  "; mkDoc EmptyString;
                    mkDoc (String (ascii_of_nat 160) (String (ascii_of_nat 10) EmptyString))])
                "pdf" = inr [].
Proof.
  split; [reflexivity|].
  exact (proj2 (processPdf_blank_pages
                  (Demo.env (inr Demo.form) []
                     [mkDoc "  "; mkDoc EmptyString;
                      mkDoc (String (ascii_of_nat 160)
                                    (String (ascii_of_nat 10) EmptyString))])
                  "pdf"
                  [mkDoc "  "; mkDoc EmptyString;
                   mkDoc (String (ascii_of_nat 160) (String (ascii_of_nat 10) EmptyString))]
                  eq_refl) eq_refl).
Defined.

(* ================================================================== *)
(** * The route: chunk rows are only appended *)
(* ================================================================== *)

Section Appends.

Context {Embedding : Type}.
Variable env : Env Embedding.
Variable P : FileItemRow Embedding -> Prop.

Local Open Scope string_scope.
Local Open Scope list_scope.
Local Open Scope route_scope.

Lemma appends_same (w w' : World Embedding) :
  file_items w' = file_items w -> appends P w w'.
Proof. intros H. exists []. rewrite H, app_nil_r. split; [reflexivity|constructor]. Qed.

Lemma appends_trans (w1 w2 w3 : World Embedding) :
  appends P w1 w2 -> appends P w2 w3 -> appends P w1 w3.
Proof.
  intros (r1 & H1 & P1) (r2 & H2 & P2). exists (r1 ++ r2).
  rewrite H2, H1, app_assoc. split; [reflexivity|]. apply Forall_app. auto.
Qed.

Lemma only_ret {A} (a : A) : onlyAppends P (ret (Embedding := Embedding) a).
Proof. intros w. now apply appends_same. Qed.

Lemma only_throw {A} (e : JsError) : onlyAppends P (throw (Embedding := Embedding) (A := A) e).
Proof. intros w. now apply appends_same. Qed.

Lemma only_lift {A} (r : JsError + A) : onlyAppends P (lift (Embedding := Embedding) r).
Proof. destruct r; [apply only_throw|apply only_ret]. Qed.

Lemma only_bind {A B} (m : M Embedding A) (k : A -> M Embedding B) :
  onlyAppends P m -> (forall a, onlyAppends P (k a)) -> onlyAppends P (bind m k).
Proof.
  intros Hm Hk w. unfold bind. specialize (Hm w).
  destruct (m w) as [[e|a] w1]; [exact Hm|].
  exact (appends_trans _ _ _ Hm (Hk a w1)).
Qed.

Lemma only_tryCatch {A} (m : M Embedding A) (h : JsError -> M Embedding A) :
  onlyAppends P m -> (forall e, onlyAppends P (h e)) -> onlyAppends P (tryCatch m h).
Proof.
  intros Hm Hh w. unfold tryCatch. specialize (Hm w).
  destruct (m w) as [[e|a] w1]; [|exact Hm].
  exact (appends_trans _ _ _ Hm (Hh e w1)).
Qed.

Lemma only_if {A} (c : bool) (m1 m2 : M Embedding A) :
  onlyAppends P m1 -> onlyAppends P m2 -> onlyAppends P (if c then m1 else m2).
Proof. destruct c; auto. Qed.

Lemma only_formDataOf : onlyAppends P (formDataOf env).
Proof. intros w. now apply appends_same. Qed.

Lemma only_createEmbeddings (input : list string) : onlyAppends P (createEmbeddings env input).
Proof. intros w. now apply appends_same. Qed.

Lemma only_updateFiles (patch : FileRow -> FileRow) (file_id : string) :
  onlyAppends P (updateFiles env patch file_id).
Proof.
  intros w. apply appends_same. unfold updateFiles.
  destruct (write_fault env (writes w)); reflexivity.
Qed.

Lemma only_selectFile (file_id : string) : onlyAppends P (selectFile env file_id).
Proof.
  intros w. apply appends_same. unfold selectFile.
  destruct (metadata_fault env); [reflexivity|]. destruct (find _ (files w)); reflexivity.
Qed.

Lemma only_selectExistingChunks (file_id : string) :
  onlyAppends P (selectExistingChunks env file_id).
Proof.
  intros w. apply appends_same. unfold selectExistingChunks.
  destruct (items_fault env); reflexivity.
Qed.

Lemma only_upsertItems (rows : list (FileItemRow Embedding)) :
  Forall P rows -> onlyAppends P (upsertItems env rows).
Proof.
  intros Hrows w. unfold upsertItems.
  destruct (write_fault env (writes w)); [now apply appends_same|].
  exists rows. auto.
Qed.

Lemma only_subBatchLoop (batchChunks : list FileItemChunk) :
  forall st, onlyAppends P (subBatchLoop env batchChunks st).
Proof.
  induction batchChunks as [|chunk rest IH]; intros st; cbn [subBatchLoop].
  - apply only_ret.
  - repeat apply only_if; auto.
    apply only_bind; [apply only_createEmbeddings|auto].
Qed.

Lemma only_processBatchEmbeddings (batchChunks : list FileItemChunk) (provider : string) :
  onlyAppends P (processBatchEmbeddings env batchChunks provider).
Proof.
  unfold processBatchEmbeddings.
  repeat apply only_if; try apply only_ret.
  apply only_bind; [apply only_subBatchLoop|intros st].
  apply only_bind; [|intros; apply only_ret].
  unfold flushLast. apply only_if; [|apply only_ret].
  apply only_bind; [apply only_createEmbeddings|intros; apply only_ret].
Qed.

Lemma only_failureFinalize (error : JsError) : onlyAppends P (failureFinalize env error).
Proof.
  unfold failureFinalize.
  apply only_bind; [apply only_formDataOf|intros formData].
  apply only_if; [apply only_updateFiles|apply only_ret].
Qed.

Lemma only_catchBlock (error : JsError) : onlyAppends P (catchBlock env error).
Proof.
  unfold catchBlock. apply only_bind; [|intros; apply only_ret].
  apply only_tryCatch; [apply only_failureFinalize|intros; apply only_ret].
Qed.

End Appends.

Section AppendsOwned.

Context {Embedding : Type}.
Variable env : Env Embedding.
Variables file_id user_id : string.

Local Open Scope string_scope.
Local Open Scope list_scope.
Local Open Scope route_scope.

Lemma mapIndexFrom_owned (provider : string) (out : list (option Embedding))
    (batchChunks : list FileItemChunk) :
  forall index,
    Forall (ownedBy file_id user_id)
      (mapIndexFrom
         (fun chunk i =>
            mkItem file_id user_id (content chunk) (tokens chunk)
              (if String.eqb provider "openai" then embeddingAt out i else None)
              (if String.eqb provider "local" then embeddingAt out i else None))
         index batchChunks).
Proof.
  induction batchChunks as [|chunk rest IH]; intros index; cbn [mapIndexFrom];
    constructor; [split; reflexivity|apply IH].
Qed.

Lemma only_batchLoop (fuel : nat) (provider : string) (chunks : list FileItemChunk) :
  forall i,
    onlyAppends (ownedBy file_id user_id)
      (batchLoop env fuel file_id user_id provider chunks i).
Proof.
  induction fuel as [|fuel IH]; intros i; cbn [batchLoop].
  - apply only_ret.
  - apply only_if; [|apply only_ret].
    apply only_bind; [apply only_processBatchEmbeddings|intros out].
    apply only_bind; [|intros; apply IH].
    apply only_upsertItems. apply mapIndexFrom_owned.
Qed.

Lemma only_processFileInBatches (provider ext blob : string) :
  onlyAppends (ownedBy file_id user_id)
    (processFileInBatches env file_id user_id provider ext blob).
Proof.
  unfold processFileInBatches.
  apply only_bind; [apply only_lift|intros chunks].
  apply only_if; [apply only_throw|].
  apply only_bind; [apply only_batchLoop|intros; apply only_ret].
Qed.

End AppendsOwned.

Section AppendsRoute.

Context {Embedding : Type}.
Variable env : Env Embedding.

Local Open Scope string_scope.
Local Open Scope list_scope.
Local Open Scope route_scope.

Lemma only_admission (profile : Profile) (file_id provider : string) (fileMetadata : FileRow) :
  onlyAppends (ownedBy file_id (p_user_id profile))
    (admission env profile file_id provider fileMetadata).
Proof.
  unfold admission.
  apply only_bind; [apply only_selectExistingChunks|intros existing].
  apply only_if; [apply only_ret|].
  apply only_if; [apply only_throw|].
  apply only_bind; [apply only_updateFiles|intros _].
  unfold processDownloaded.
  destruct (dl_error _); [apply only_throw|].
  destruct (dl_data _) as [file|]; [|apply only_throw].
  destruct (arrayBuffer file) as [error|fileBuffer]; [apply only_throw|].
  apply only_if; [apply only_throw|].
  apply only_if; [apply only_throw|].
  apply only_bind.
  { apply only_if; [|apply only_ret]. unfold checkProviderKey.
    destruct (if use_azure_openai profile then _ else _);
      [apply only_throw|apply only_ret]. }
  intros _. apply only_bind; [apply only_processFileInBatches|intros totals].
  apply only_bind; [apply only_updateFiles|intros; apply only_ret].
Qed.

Lemma bind_step {A B} (m : M Embedding A) (k : A -> M Embedding B)
    (w w1 : World Embedding) (a : A) :
  m w = (inr a, w1) -> bind m k w = k a w1.
Proof. intros H. unfold bind. now rewrite H. Qed.

Lemma bind_fail {A B} (m : M Embedding A) (k : A -> M Embedding B)
    (w w1 : World Embedding) (e : JsError) :
  m w = (inl e, w1) -> bind m k w = (inl e, w1).
Proof. intros H. unfold bind. now rewrite H. Qed.

Lemma catchBlock_items (error : JsError) (w : World Embedding) :
  file_items (snd (catchBlock env error w)) = file_items w.
Proof.
  destruct (only_catchBlock env (fun _ => False) error w) as (rows & Hrows & Hnone).
  destruct rows as [|r rows]; [now rewrite app_nil_r in Hrows|].
  inversion Hnone; contradiction.
Qed.

(** The route never deletes or rewrites a chunk row: the table after a
    run is the table before it followed by new rows, and every new row
    carries the file id of the request and the user id of the caller.
    When the profile or the body cannot be read, no row is added. *)
Theorem POST_only_appends_rows (w : World Embedding) :
  match getServerProfile env, req_formData env (bodyReads w) with
  | inr profile, inr formData =>
      appends (ownedBy (orElse (fd_file_id formData) EmptyString) (p_user_id profile))
              w (snd (POST env w))
  | _, _ => file_items (snd (POST env w)) = file_items w
  end.
Proof.
  unfold POST, tryCatch, tryBlock.
  destruct (getServerProfile env) as [e|profile].
  - rewrite (bind_fail (lift (inl e)) _ w w e eq_refl). apply catchBlock_items.
  - rewrite (bind_step (lift (inr profile)) _ w w profile eq_refl).
    assert (Hread : formDataOf env w = (req_formData env (bodyReads w), bodyRead w))
      by reflexivity.
    destruct (req_formData env (bodyReads w)) as [e|formData].
    + rewrite (bind_fail (formDataOf env) _ _ _ _ Hread). rewrite catchBlock_items.
      reflexivity.
    + rewrite (bind_step (formDataOf env) _ _ _ _ Hread).
      set (P := ownedBy (orElse (fd_file_id formData) EmptyString) (p_user_id profile)).
      match goal with
      | |- appends _ _ (snd (match ?body ?w1 with _ => _ end)) =>
          assert (Hbody : onlyAppends P body); [|specialize (Hbody w1);
            destruct (body w1) as [[e|resp] w2]]
      end.
      * apply only_if; [apply only_throw|].
        apply only_if; [apply only_throw|].
        apply only_bind; [apply only_selectFile|intros fileMetadata].
        apply only_if; [apply only_throw|].
        apply only_if; [apply only_throw|].
        apply only_admission.
      * cbn [snd] in *.
        apply (appends_trans P w w2); [exact Hbody|].
        apply only_catchBlock.
      * exact Hbody.
Qed.

End AppendsRoute.

(* ================================================================== *)
(** * The route: which rows a run persists *)
(* ================================================================== *)

Section PersistedRows.

Context {Embedding : Type}.
Variable env : Env Embedding.
Variables file_id user_id : string.

Local Open Scope string_scope.
Local Open Scope list_scope.
Local Open Scope route_scope.

Lemma firstn_plus {A} (n m : nat) (l : list A) :
  firstn (n + m) l = firstn n l ++ firstn m (skipn n l).
Proof.
  revert l. induction n as [|n IH]; intros l; [reflexivity|].
  destruct l as [|x l]; cbn [Nat.add firstn skipn app].
  - now rewrite firstn_nil.
  - now rewrite IH.
Qed.

Lemma skipn_plus {A} (n m : nat) (l : list A) :
  skipn (n + m) l = skipn m (skipn n l).
Proof.
  revert l. induction n as [|n IH]; intros l; [reflexivity|].
  destruct l as [|x l]; cbn [Nat.add skipn]; [now rewrite skipn_nil|apply IH].
Qed.

Lemma slice_batch (i : nat) (chunks : list FileItemChunk) :
  slice i (i + BATCH_SIZE) chunks = firstn BATCH_SIZE (skipn i chunks).
Proof. unfold slice. now replace (i + BATCH_SIZE - i)%nat with BATCH_SIZE by lia. Qed.

Lemma items_kept {A} (m : M Embedding A) (w : World Embedding) :
  onlyAppends (fun _ => False) m -> file_items (snd (m w)) = file_items w.
Proof.
  intros H. destruct (H w) as (rows & Hrows & Hnone).
  destruct rows as [|r rows]; [now rewrite app_nil_r in Hrows|].
  inversion Hnone; contradiction.
Qed.

Lemma processBatchEmbeddings_items (batchChunks : list FileItemChunk) (provider : string)
    (w : World Embedding) :
  file_items (snd (processBatchEmbeddings env batchChunks provider w)) = file_items w.
Proof. apply items_kept, only_processBatchEmbeddings. Qed.

Lemma upsertItems_result (rows : list (FileItemRow Embedding)) (w : World Embedding) :
  fst (upsertItems env rows w) = inr tt
  /\ writes (snd (upsertItems env rows w)) = S (writes w)
  /\ file_items (snd (upsertItems env rows w))
     = file_items w ++ match write_fault env (writes w) with
                       | None => rows
                       | Some _ => []
                       end.
Proof.
  unfold upsertItems. destruct (write_fault env (writes w)); cbn [fst snd file_items writes];
    rewrite ?app_nil_r; auto.
Qed.

Lemma subBatchLoop_writes (batchChunks : list FileItemChunk) :
  forall st w, writes (snd (subBatchLoop env batchChunks st w)) = writes w.
Proof.
  induction batchChunks as [|chunk rest IH]; intros st w; cbn [subBatchLoop];
    [reflexivity|].
  destruct (MAX_TOKENS_PER_REQUEST <? tokens chunk)%N; [apply IH|].
  destruct (_ && _); [|apply IH].
  unfold bind, createEmbeddings.
  destruct (embeddings_create env _ _); [reflexivity|]. now rewrite IH.
Qed.

(** The dispatcher writes nothing to the record store. *)
Lemma processBatchEmbeddings_writes (batchChunks : list FileItemChunk) (provider : string)
    (w : World Embedding) :
  writes (snd (processBatchEmbeddings env batchChunks provider w)) = writes w.
Proof.
  unfold processBatchEmbeddings.
  destruct (String.eqb provider "openai").
  - unfold bind. pose proof (subBatchLoop_writes batchChunks (mkState [] [] 0%N 0%nat) w) as H.
    destruct (subBatchLoop env batchChunks _ w) as [[e|st] w1]; cbn [snd] in *; [exact H|].
    unfold flushLast. destruct (0 <? _)%nat; [|exact H].
    unfold bind, createEmbeddings. destruct (embeddings_create env _ _); exact H.
  - destruct (String.eqb provider "local"); reflexivity.
Qed.

Lemma mapIndexFrom_core (provider : string) (out : list (option Embedding))
    (batchChunks : list FileItemChunk) :
  forall index,
    map rowCore
      (mapIndexFrom
         (fun chunk i =>
            mkItem file_id user_id (content chunk) (tokens chunk)
              (if String.eqb provider "openai" then embeddingAt out i else None)
              (if String.eqb provider "local" then embeddingAt out i else None))
         index batchChunks)
    = map (chunkCore file_id user_id) batchChunks.
Proof.
  induction batchChunks as [|chunk rest IH]; intros index; cbn [mapIndexFrom map];
    [reflexivity|]. now rewrite IH.
Qed.

(** When every write is applied, the chunks stored in [turns] batches
    are a prefix. *)
Lemma storedChunks_applied (turns : nat) :
  (forall n, write_fault env n = None) ->
  forall n chunks, storedChunks env turns n chunks = firstn (turns * BATCH_SIZE) chunks.
Proof.
  intros Hall. induction turns as [|turns IH]; intros n chunks; [reflexivity|].
  cbn [storedChunks Nat.mul]. rewrite Hall, IH. symmetry. apply firstn_plus.
Qed.

(** The rows a run of the batch loop appends are those of whole batches
    of the chunks from [i] on, in order, a batch being present when its
    upsert was applied; a loop that returns has issued an upsert for
    every batch. *)
Lemma batchLoop_rows (provider : string) (chunks : list FileItemChunk) (fuel : nat) :
  forall i w,
    exists rows k,
      file_items (snd (batchLoop env fuel file_id user_id provider chunks i w))
      = file_items w ++ rows
      /\ map rowCore rows
         = map (chunkCore file_id user_id) (storedChunks env k (writes w) (skipn i chunks))
      /\ (fst (batchLoop env fuel file_id user_id provider chunks i w) = inr tt ->
          (List.length chunks <= i + fuel)%nat ->
          (List.length (skipn i chunks) <= k * BATCH_SIZE)%nat).
Proof.
  induction fuel as [|fuel IH]; intros i w; cbn [batchLoop].
  - exists [], 0%nat. cbn [ret fst snd storedChunks map]. rewrite app_nil_r.
    repeat split. intros _ Hlen. rewrite length_skipn. lia.
  - destruct (i <? List.length chunks)%nat eqn:Hlt.
    2:{ exists [], 0%nat. cbn [ret fst snd storedChunks map]. rewrite app_nil_r.
        repeat split. intros _ _. apply Nat.ltb_ge in Hlt. rewrite length_skipn. lia. }
    unfold bind. rewrite slice_batch.
    pose proof (processBatchEmbeddings_items (firstn BATCH_SIZE (skipn i chunks)) provider w)
      as Hkeep.
    pose proof (processBatchEmbeddings_writes (firstn BATCH_SIZE (skipn i chunks)) provider w)
      as Hwrites.
    destruct (processBatchEmbeddings env (firstn BATCH_SIZE (skipn i chunks)) provider w)
      as [[e|out] w1]; cbn [fst snd] in *.
    { exists [], 0%nat. cbn [storedChunks map]. rewrite app_nil_r.
      repeat split; try assumption. intros H; discriminate H. }
    destruct (upsertItems_result
                (fileItemsOf file_id user_id provider
                   (firstn BATCH_SIZE (skipn i chunks)) out) w1) as (Hret & Hn & Hup).
    destruct (upsertItems env _ w1) as [[e|[]] w2]; cbn [fst snd] in *; [discriminate|].
    destruct (IH (i + BATCH_SIZE)%nat w2) as (rows & k & H1 & H2 & H3).
    exists (match write_fault env (writes w1) with
            | None => fileItemsOf file_id user_id provider
                        (firstn BATCH_SIZE (skipn i chunks)) out
            | Some _ => []
            end ++ rows), (S k).
    split; [now rewrite H1, Hup, Hkeep, app_assoc|].
    split.
    + rewrite map_app, H2, Hn, Hwrites. cbn [storedChunks]. rewrite map_app, skipn_plus.
      f_equal. destruct (write_fault env (writes w)); [reflexivity|].
      unfold fileItemsOf. apply mapIndexFrom_core.
    + intros Hok Hlen. specialize (H3 Hok ltac:(unfold BATCH_SIZE; lia)).
      rewrite length_skipn in H3 |- *. cbn [Nat.mul]. lia.
Qed.

(** The same for [processFileInBatches], whose counters are the number
    of chunks and the sum of their token counts. *)
Lemma processFileInBatches_rows (provider ext blob : string) (chunks : list FileItemChunk)
    (w : World Embedding) :
  extractChunks env ext blob = inr chunks ->
  exists rows k,
    file_items (snd (processFileInBatches env file_id user_id provider ext blob w))
    = file_items w ++ rows
    /\ map rowCore rows
       = map (chunkCore file_id user_id) (storedChunks env k (writes w) chunks)
    /\ (forall totals,
           fst (processFileInBatches env file_id user_id provider ext blob w) = inr totals ->
           totals = (List.length chunks, sumTokens chunks)
           /\ (List.length chunks <= k * BATCH_SIZE)%nat).
Proof.
  intros Hext. unfold processFileInBatches. rewrite Hext.
  rewrite (bind_step (lift (inr chunks)) _ w w chunks eq_refl).
  destruct (List.length chunks =? 0)%nat.
  { exists [], 0%nat. rewrite app_nil_r. split; [reflexivity|]. split; [reflexivity|].
    intros totals H. unfold throw in H. discriminate H. }
  unfold bind.
  destruct (batchLoop_rows provider chunks (List.length chunks) 0%nat w)
    as (rows & k & H1 & H2 & H3).
  cbn [skipn] in H2, H3.
  exists rows, k.
  destruct (batchLoop env (List.length chunks) file_id user_id provider chunks 0 w)
    as [[e|[]] w1]; cbn [fst snd ret] in *.
  - split; [assumption|]. split; [assumption|]. intros totals H. discriminate H.
  - split; [assumption|]. split; [assumption|]. intros totals H. inversion H. split.
    + reflexivity.
    + apply (H3 eq_refl). lia.
Qed.

End PersistedRows.

Section PersistedByRoute.

Context {Embedding : Type}.
Variable env : Env Embedding.

Local Open Scope string_scope.
Local Open Scope list_scope.
Local Open Scope route_scope.

Lemma POST_items (w : World Embedding) :
  file_items (snd (POST env w)) = file_items (snd (tryBlock env w)).
Proof.
  unfold POST, tryCatch.
  destruct (tryBlock env w) as [[e|resp] w1]; [|reflexivity]. apply catchBlock_items.
Qed.

(** The steps after [processFileInBatches] add no chunk row. *)
Lemma reached_items (w : World Embedding) (profile : Profile) (file_id provider : string)
    (fileMetadata : FileRow) (fileBuffer : string) :
  ReachesExtraction env w profile file_id provider fileMetadata fileBuffer ->
  file_items (snd (tryBlock env w))
  = file_items (snd (processFileInBatches env file_id (p_user_id profile) provider
                       (toLowerCase (splitPop (f_name fileMetadata))) fileBuffer
                       (claimed env file_id w))).
Proof.
  intros Hreach. rewrite (tryBlock_reaches env _ _ _ _ _ _ Hreach). unfold bind at 1.
  destruct (processFileInBatches env _ _ _ _ _ _) as [[e|totals] w1]; [reflexivity|].
  cbn [snd]. unfold bind, updateFiles.
  destruct (write_fault env (writes w1)); reflexivity.
Qed.

(** Whatever stops a run, the chunk rows it leaves behind are those of
    whole batches of [BATCH_SIZE] extracted chunks, in the order of the
    chunks, under the file id of the request and the user id of the
    caller: of the first [k] batches, each one whose upsert was applied.
    The route does not look at the outcome of an upsert, so a batch can
    be missing before one that is stored; when every write is applied
    the rows describe a prefix of the chunks. *)
Theorem persisted_rows_are_whole_batches (w : World Embedding) (profile : Profile)
    (file_id provider : string) (fileMetadata : FileRow) (fileBuffer : string)
    (chunks : list FileItemChunk) :
  ReachesExtraction env w profile file_id provider fileMetadata fileBuffer ->
  extractChunks env (toLowerCase (splitPop (f_name fileMetadata))) fileBuffer = inr chunks ->
  exists rows k,
    file_items (snd (POST env w)) = file_items w ++ rows
    /\ map rowCore rows
       = map (chunkCore file_id (p_user_id profile))
             (storedChunks env k (S (writes w)) chunks)
    /\ ((forall n, write_fault env n = None) ->
        map rowCore rows
        = map (chunkCore file_id (p_user_id profile)) (firstn (k * BATCH_SIZE) chunks)).
Proof.
  intros Hreach Hext. rewrite POST_items, (reached_items _ _ _ _ _ _ Hreach).
  destruct (processFileInBatches_rows env file_id (p_user_id profile) provider _ _ chunks
              (claimed env file_id w) Hext) as (rows & k & H1 & H2 & _).
  cbn [claimed file_items writes] in H1, H2.
  exists rows, k. split; [exact H1|]. split; [exact H2|].
  intros Hall. rewrite H2. now rewrite (storedChunks_applied env k Hall).
Qed.

(** A run that returns answers "Embed Successful" with the number of the
    extracted chunks and the sum of their token counts, whether or not
    its upserts were applied.  It has issued an upsert for every batch,
    and the rows on record are those of the batches whose upsert was
    applied: one row for every chunk, in order, with the content and the
    token count of the chunk, when every write is applied. *)
Theorem successful_run_counts_and_rows (w w' : World Embedding) (profile : Profile)
    (file_id provider : string) (fileMetadata : FileRow) (fileBuffer : string)
    (chunks : list FileItemChunk) (resp : Response) :
  ReachesExtraction env w profile file_id provider fileMetadata fileBuffer ->
  extractChunks env (toLowerCase (splitPop (f_name fileMetadata))) fileBuffer = inr chunks ->
  tryBlock env w = (inr resp, w') ->
  resp = embedSuccessful env (List.length chunks) (sumTokens chunks)
  /\ exists rows k,
       file_items w' = file_items w ++ rows
       /\ (List.length chunks <= k * BATCH_SIZE)%nat
       /\ map rowCore rows
          = map (chunkCore file_id (p_user_id profile))
                (storedChunks env k (S (writes w)) chunks)
       /\ ((forall n, write_fault env n = None) ->
           map rowCore rows = map (chunkCore file_id (p_user_id profile)) chunks).
Proof.
  intros Hreach Hext Htry.
  rewrite (tryBlock_reaches env _ _ _ _ _ _ Hreach) in Htry.
  destruct (processFileInBatches_rows env file_id (p_user_id profile) provider _ _ chunks
              (claimed env file_id w) Hext) as (rows & k & H1 & H2 & H3).
  apply bind_ok in Htry as (totals & w1 & Hrun & Htry).
  rewrite Hrun in H1, H3. cbn [fst snd claimed file_items writes] in *.
  destruct (H3 totals eq_refl) as [-> Hall].
  apply bind_ok in Htry as ([] & w2 & Hupd & Hret). inversion Hret; subst.
  split; [reflexivity|]. exists rows, k.
  assert (Hkeep : file_items w' = file_items w1).
  { unfold updateFiles in Hupd. destruct (write_fault env (writes w1));
      inversion Hupd; reflexivity. }
  split; [now rewrite Hkeep, H1|]. split; [exact Hall|]. split; [exact H2|].
  intros Hwrites. rewrite H2, (storedChunks_applied env k Hwrites).
  now rewrite firstn_all2.
Qed.

End PersistedByRoute.

(** A text file of 51 chunks at a store that refuses the upsert of the
    first batch: the one row on record is that of the last chunk. *)
Lemma persisted_rows_are_whole_batches_witness :
  ReachesExtraction Lossy.env (Demo.pendingWorld "notes.txt") Demo.profile "f1" "openai"
    (Demo.file "notes.txt" 10 pending) "bytes"
  /\ file_items (snd (POST Lossy.env (Demo.pendingWorld "notes.txt")))
     = [mkItem "f1" "u1" "z" 10 (Some "z") None]
  /\ exists rows k,
       file_items (snd (POST Lossy.env (Demo.pendingWorld "notes.txt"))) = rows
       /\ map rowCore rows
          = map (chunkCore "f1" "u1") (storedChunks Lossy.env k 1 Lossy.chunks).
Proof.
  assert (Hreach : ReachesExtraction Lossy.env (Demo.pendingWorld "notes.txt")
                     Demo.profile "f1" "openai" (Demo.file "notes.txt" 10 pending) "bytes").
  { constructor; try reflexivity; try discriminate.
    - constructor; try reflexivity; [discriminate|now left|cbn; lia].
    - now right. }
  assert (Hext : extractChunks Lossy.env
                   (toLowerCase (splitPop (f_name (Demo.file "notes.txt" 10 pending))))
                   "bytes" = inr Lossy.chunks) by reflexivity.
  split; [exact Hreach|]. split; [vm_compute; reflexivity|].
  destruct (persisted_rows_are_whole_batches Lossy.env (Demo.pendingWorld "notes.txt")
              Demo.profile "f1" "openai" (Demo.file "notes.txt" 10 pending) "bytes"
              Lossy.chunks Hreach Hext) as (rows & k & H1 & H2 & _).
  exists rows, k. split; [exact H1|exact H2].
Defined.

(** The same run returns: it reports 51 chunks and 510 tokens, with one
    row on record. *)
Lemma successful_run_counts_and_rows_witness :
  fst (tryBlock Lossy.env (Demo.pendingWorld "notes.txt"))
  = inr (embedSuccessful Lossy.env 51 510)
  /\ List.length (file_items (snd (tryBlock Lossy.env (Demo.pendingWorld "notes.txt"))))
     = 1%nat
  /\ exists rows k,
       file_items (snd (tryBlock Lossy.env (Demo.pendingWorld "notes.txt"))) = rows
       /\ (51 <= k * BATCH_SIZE)%nat
       /\ map rowCore rows
          = map (chunkCore "f1" "u1") (storedChunks Lossy.env k 1 Lossy.chunks).
Proof.
  assert (Hreach : ReachesExtraction Lossy.env (Demo.pendingWorld "notes.txt")
                     Demo.profile "f1" "openai" (Demo.file "notes.txt" 10 pending) "bytes").
  { constructor; try reflexivity; try discriminate.
    - constructor; try reflexivity; [discriminate|now left|cbn; lia].
    - now right. }
  assert (Hext : extractChunks Lossy.env
                   (toLowerCase (splitPop (f_name (Demo.file "notes.txt" 10 pending))))
                   "bytes" = inr Lossy.chunks) by reflexivity.
  assert (Hrun : tryBlock Lossy.env (Demo.pendingWorld "notes.txt")
                 = (inr (embedSuccessful Lossy.env 51 510),
                    snd (tryBlock Lossy.env (Demo.pendingWorld "notes.txt"))))
    by (vm_compute; reflexivity).
  split; [vm_compute; reflexivity|]. split; [vm_compute; reflexivity|].
  destruct (successful_run_counts_and_rows Lossy.env (Demo.pendingWorld "notes.txt")
              (snd (tryBlock Lossy.env (Demo.pendingWorld "notes.txt")))
              Demo.profile "f1" "openai" (Demo.file "notes.txt" 10 pending) "bytes"
              Lossy.chunks (embedSuccessful Lossy.env 51 510) Hreach Hext Hrun)
    as (_ & rows & k & H1 & Hk & H2 & _).
  exists rows, k. split; [exact H1|]. split; [exact Hk|exact H2].
Defined.

(* ================================================================== *)
(** * Vectors in their rows *)
(* ================================================================== *)

Section Aligned.

Context {Embedding : Type}.
Variable env : Env Embedding.

Local Open Scope string_scope.
Local Open Scope list_scope.
Local Open Scope route_scope.

(** With a provider that embeds text by text and no chunk above the
    per-request ceiling, the loop keeps "vectors written, then vectors of
    the pending contents = vectors of the chunks seen". *)
Lemma subBatchLoop_aligned (embed : string -> Embedding) (Hprov : embedsBy env embed)
    (batchChunks : list FileItemChunk) :
  Forall (fun chunk => fitsRequest chunk = true) batchChunks ->
  forall st w,
    exists st' w',
      subBatchLoop env batchChunks st w = (inr st', w')
      /\ batchEmbeddings st' ++ map (fun text => Some (embed text)) (currentSubBatch st')
         = (batchEmbeddings st ++ map (fun text => Some (embed text)) (currentSubBatch st))
           ++ map (fun chunk => Some (embed (content chunk))) batchChunks.
Proof.
  induction batchChunks as [|chunk rest IH]; intros Hfit st w.
  - exists st, w. split; [reflexivity|]. now rewrite app_nil_r.
  - inversion Hfit as [|? ? Hc Hrest]; subst. unfold fitsRequest in Hc.
    apply negb_true_iff in Hc. cbn [subBatchLoop]. rewrite Hc.
    destruct ((MAX_BATCH_TOKENS <? currentSubBatchTokens st + tokens chunk)%N
              && (0 <? List.length (currentSubBatch st))%nat).
    + unfold bind, createEmbeddings. rewrite Hprov.
      match goal with
      | |- context [subBatchLoop env rest ?st1 ?w1] =>
          destruct (IH Hrest st1 w1) as (st' & w' & Hrun & Hinv)
      end.
      exists st', w'. split; [exact Hrun|]. rewrite Hinv.
      cbn [batchEmbeddings currentSubBatch map].
      rewrite map_map, <- !app_assoc. reflexivity.
    + match goal with
      | |- context [subBatchLoop env rest ?st1 ?w1] =>
          destruct (IH Hrest st1 w1) as (st' & w' & Hrun & Hinv)
      end.
      exists st', w'. split; [exact Hrun|]. rewrite Hinv.
      cbn [batchEmbeddings currentSubBatch map].
      rewrite map_app, <- !app_assoc. reflexivity.
Qed.

Lemma processBatchEmbeddings_aligned (embed : string -> Embedding)
    (batchChunks : list FileItemChunk) (w : World Embedding) :
  embedsBy env embed ->
  Forall (fun chunk => fitsRequest chunk = true) batchChunks ->
  fst (processBatchEmbeddings env batchChunks "openai" w)
  = inr (map (fun chunk => Some (embed (content chunk))) batchChunks).
Proof.
  intros Hprov Hfit. rewrite processBatchEmbeddings_openai.
  destruct (subBatchLoop_aligned embed Hprov batchChunks Hfit (mkState [] [] 0%N 0%nat) w)
    as (st & w1 & Hrun & Hinv).
  rewrite Hrun. cbn [batchEmbeddings currentSubBatch map app] in Hinv.
  unfold flushLast.
  destruct (currentSubBatch st) as [|text pending] eqn:Hpending.
  - cbn [List.length Nat.ltb Nat.leb ret fst]. rewrite app_nil_r in Hinv. now rewrite Hinv.
  - cbn [List.length Nat.ltb Nat.leb].
    unfold bind, createEmbeddings. rewrite Hprov. cbn [ret fst batchEmbeddings].
    rewrite map_map. now rewrite Hinv.
Qed.

(** Where the dispatcher keeps positions.  On the local path entry [i]
    is always the vector of chunk [i], or null when its computation
    failed, and the world is untouched.  On the OpenAI path, when no
    chunk of the batch is above the per-request ceiling and the provider
    embeds text by text, entry [i] is the vector of chunk [i] and no
    entry is null. *)
Theorem dispatcher_keeps_positions (batchChunks : list FileItemChunk) (w : World Embedding) :
  processBatchEmbeddings env batchChunks "local" w
  = (inr (map (localVector env) batchChunks), w)
  /\ (forall embed,
         embedsBy env embed ->
         Forall (fun chunk => fitsRequest chunk = true) batchChunks ->
         fst (processBatchEmbeddings env batchChunks "openai" w)
         = inr (map (fun chunk => Some (embed (content chunk))) batchChunks)).
Proof.
  split.
  - apply processBatchEmbeddings_local.
  - intros embed Hprov Hfit. now apply processBatchEmbeddings_aligned.
Qed.

End Aligned.

(** Two chunks that fit, at the provider that answers a text with
    itself. *)
Lemma dispatcher_keeps_positions_witness :
  embedsBy Demo.plainEnv (fun text => text)
  /\ Forall (fun chunk => fitsRequest chunk = true) [Demo.small "a"; Demo.small "b"]
  /\ fst (processBatchEmbeddings Demo.plainEnv [Demo.small "a"; Demo.small "b"] "openai"
            (Demo.pendingWorld "notes.txt"))
     = inr [Some "a"; Some "b"]%string.
Proof.
  assert (Hprov : embedsBy Demo.plainEnv (fun text => text)).
  { intros n input. cbn. now rewrite map_id. }
  assert (Hfit : Forall (fun chunk => fitsRequest chunk = true)
                        [Demo.small "a"; Demo.small "b"])
    by (repeat constructor).
  split; [exact Hprov|]. split; [exact Hfit|].
  exact (proj2 (dispatcher_keeps_positions Demo.plainEnv
                  [Demo.small "a"; Demo.small "b"] (Demo.pendingWorld "notes.txt"))
               (fun text => text) Hprov Hfit).
Defined.

Section AlignedRows.

Context {Embedding : Type}.
Variable env : Env Embedding.
Variables file_id user_id provider : string.
Variable f : FileItemChunk -> option Embedding.

Local Open Scope string_scope.
Local Open Scope list_scope.
Local Open Scope route_scope.

Lemma mapIndexFrom_aligned (batchChunks : list FileItemChunk) :
  forall before,
    mapIndexFrom
      (fun chunk index =>
         mkItem file_id user_id (content chunk) (tokens chunk)
           (if String.eqb provider "openai"
            then embeddingAt (before ++ map f batchChunks) index else None)
           (if String.eqb provider "local"
            then embeddingAt (before ++ map f batchChunks) index else None))
      (List.length before) batchChunks
    = map (rowOf file_id user_id provider f) batchChunks.
Proof.
  induction batchChunks as [|chunk rest IH]; intros before; cbn [mapIndexFrom map];
    [reflexivity|].
  unfold embeddingAt at 1 2. rewrite nth_middle. f_equal.
  specialize (IH (before ++ [f chunk])).
  rewrite length_app, Nat.add_1_r, <- app_assoc in IH. exact IH.
Qed.

(** When the vectors returned are those of the chunks, position by
    position, every row carries the vector of its own chunk. *)
Lemma fileItemsOf_aligned (batchChunks : list FileItemChunk) :
  fileItemsOf file_id user_id provider batchChunks (map f batchChunks)
  = map (rowOf file_id user_id provider f) batchChunks.
Proof. exact (mapIndexFrom_aligned batchChunks []). Qed.

Variable fits : FileItemChunk -> Prop.

Hypothesis dispatch_aligned :
  forall batchChunks w,
    Forall fits batchChunks ->
    fst (processBatchEmbeddings env batchChunks provider w) = inr (map f batchChunks).

Lemma In_firstn_sub {A} (n : nat) (x : A) :
  forall l, In x (firstn n l) -> In x l.
Proof.
  induction n as [|n IH]; intros [|y l]; cbn [firstn]; try contradiction.
  intros [->|Hin]; [now left|right; now apply IH].
Qed.

Lemma In_skipn_sub {A} (n : nat) (x : A) :
  forall l, In x (skipn n l) -> In x l.
Proof.
  induction n as [|n IH]; intros [|y l]; cbn [skipn]; try tauto.
  intros Hin. right. now apply IH.
Qed.

Lemma Forall_batch (i : nat) (chunks : list FileItemChunk) :
  Forall fits chunks -> Forall fits (firstn BATCH_SIZE (skipn i chunks)).
Proof.
  intros Hall. apply Forall_forall. intros chunk Hin.
  apply (proj1 (Forall_forall _ _) Hall).
  eapply In_skipn_sub, In_firstn_sub. exact Hin.
Qed.

Lemma batchLoop_aligned (chunks : list FileItemChunk) (Hall : Forall fits chunks)
    (fuel : nat) :
  forall i w,
    exists k,
      file_items (snd (batchLoop env fuel file_id user_id provider chunks i w))
      = file_items w
        ++ map (rowOf file_id user_id provider f)
               (storedChunks env k (writes w) (skipn i chunks))
      /\ (fst (batchLoop env fuel file_id user_id provider chunks i w) = inr tt ->
          (List.length chunks <= i + fuel)%nat ->
          (List.length (skipn i chunks) <= k * BATCH_SIZE)%nat).
Proof.
  induction fuel as [|fuel IH]; intros i w; cbn [batchLoop].
  - exists 0%nat. cbn [ret fst snd storedChunks map]. rewrite app_nil_r.
    split; [reflexivity|]. intros _ Hlen. rewrite length_skipn. lia.
  - destruct (i <? List.length chunks)%nat eqn:Hlt.
    2:{ exists 0%nat. cbn [ret fst snd storedChunks map]. rewrite app_nil_r.
        split; [reflexivity|]. intros _ _. apply Nat.ltb_ge in Hlt.
        rewrite length_skipn. lia. }
    unfold bind. rewrite slice_batch.
    pose proof (processBatchEmbeddings_items env
                  (firstn BATCH_SIZE (skipn i chunks)) provider w) as Hkeep.
    pose proof (processBatchEmbeddings_writes env
                  (firstn BATCH_SIZE (skipn i chunks)) provider w) as Hwrites.
    pose proof (dispatch_aligned _ w (Forall_batch i chunks Hall)) as Hout.
    destruct (processBatchEmbeddings env (firstn BATCH_SIZE (skipn i chunks)) provider w)
      as [[e|out] w1]; cbn [fst snd] in *; [discriminate|].
    inversion Hout; subst out. rewrite fileItemsOf_aligned.
    destruct (upsertItems_result env
                (map (rowOf file_id user_id provider f)
                     (firstn BATCH_SIZE (skipn i chunks))) w1) as (Hret & Hn & Hup).
    destruct (upsertItems env _ w1) as [[e|[]] w2]; cbn [fst snd] in *; [discriminate|].
    destruct (IH (i + BATCH_SIZE)%nat w2) as (k & H1 & H2).
    exists (S k). split.
    + rewrite H1, Hup, Hkeep, Hn, Hwrites. cbn [storedChunks].
      rewrite map_app, skipn_plus, <- app_assoc. f_equal. f_equal.
      destruct (write_fault env (writes w)); reflexivity.
    + intros Hok Hlen. specialize (H2 Hok ltac:(unfold BATCH_SIZE; lia)).
      rewrite length_skipn in H2 |- *. cbn [Nat.mul]. lia.
Qed.

End AlignedRows.

Section AlignedByRoute.

Context {Embedding : Type}.
Variable env : Env Embedding.

Local Open Scope string_scope.
Local Open Scope list_scope.
Local Open Scope route_scope.

Lemma processFileInBatches_aligned (file_id user_id provider ext blob : string)
    (f : FileItemChunk -> option Embedding) (fits : FileItemChunk -> Prop)
    (chunks : list FileItemChunk) (w : World Embedding) :
  (forall batchChunks w1,
      Forall fits batchChunks ->
      fst (processBatchEmbeddings env batchChunks provider w1) = inr (map f batchChunks)) ->
  extractChunks env ext blob = inr chunks ->
  Forall fits chunks ->
  exists k,
    file_items (snd (processFileInBatches env file_id user_id provider ext blob w))
    = file_items w
      ++ map (rowOf file_id user_id provider f) (storedChunks env k (writes w) chunks)
    /\ (forall totals,
           fst (processFileInBatches env file_id user_id provider ext blob w) = inr totals ->
           (List.length chunks <= k * BATCH_SIZE)%nat).
Proof.
  intros Hdispatch Hext Hall. unfold processFileInBatches. rewrite Hext.
  rewrite (bind_step (lift (inr chunks)) _ w w chunks eq_refl).
  destruct (List.length chunks =? 0)%nat.
  { exists 0%nat. split.
    - cbn. now rewrite app_nil_r.
    - intros totals H. unfold throw in H. discriminate H. }
  unfold bind.
  destruct (batchLoop_aligned env file_id user_id provider f fits Hdispatch chunks Hall
              (List.length chunks) 0%nat w) as (k & H1 & H2).
  cbn [skipn] in H1, H2. exists k.
  destruct (batchLoop env (List.length chunks) file_id user_id provider chunks 0 w)
    as [[e|[]] w1]; cbn [fst snd ret] in *.
  - split; [exact H1|]. intros totals H. discriminate H.
  - split; [exact H1|]. intros totals _. apply H2; [reflexivity|lia].
Qed.

(** The rows of a run, when the dispatcher returns the vector [f chunk]
    at the position of every chunk. *)
Lemma route_rows_aligned (w : World Embedding) (profile : Profile)
    (file_id provider : string) (fileMetadata : FileRow) (fileBuffer : string)
    (f : FileItemChunk -> option Embedding) (fits : FileItemChunk -> Prop)
    (chunks : list FileItemChunk) :
  (forall batchChunks w1,
      Forall fits batchChunks ->
      fst (processBatchEmbeddings env batchChunks provider w1) = inr (map f batchChunks)) ->
  ReachesExtraction env w profile file_id provider fileMetadata fileBuffer ->
  extractChunks env (toLowerCase (splitPop (f_name fileMetadata))) fileBuffer = inr chunks ->
  Forall fits chunks ->
  exists k,
    file_items (snd (POST env w))
    = file_items w
      ++ map (rowOf file_id (p_user_id profile) provider f)
             (storedChunks env k (S (writes w)) chunks)
    /\ ((exists resp w', tryBlock env w = (inr resp, w')) ->
        (List.length chunks <= k * BATCH_SIZE)%nat)
    /\ ((forall n, write_fault env n = None) ->
        storedChunks env k (S (writes w)) chunks = firstn (k * BATCH_SIZE) chunks).
Proof.
  intros Hdispatch Hreach Hext Hall.
  destruct (processFileInBatches_aligned file_id (p_user_id profile) provider _ _ f fits
              chunks (claimed env file_id w) Hdispatch Hext Hall) as (k & Hsome & Hevery).
  pose proof (reached_items env _ _ _ _ _ _ Hreach) as Hitems.
  cbn [claimed file_items writes] in Hsome.
  exists k. split; [|split].
  - rewrite POST_items, Hitems. exact Hsome.
  - intros (resp & w' & Htry).
    rewrite (tryBlock_reaches env _ _ _ _ _ _ Hreach) in Htry.
    apply bind_ok in Htry as (totals & w1 & Hrun & _).
    apply (Hevery totals). now rewrite Hrun.
  - intros Hwrites. now apply storedChunks_applied.
Qed.

Lemma batchLoop_local_requests (file_id user_id : string) (chunks : list FileItemChunk)
    (fuel : nat) :
  forall i w,
    requests (snd (batchLoop env fuel file_id user_id "local" chunks i w)) = requests w.
Proof.
  induction fuel as [|fuel IH]; intros i w; cbn [batchLoop]; [reflexivity|].
  destruct (i <? List.length chunks)%nat; [|reflexivity].
  unfold bind. rewrite processBatchEmbeddings_local.
  unfold upsertItems at 1. destruct (write_fault env (writes w)); now rewrite IH.
Qed.

(** On the local path no request goes to the embedding provider, and
    every row on record carries, in [local_embedding], the vector
    computed from its own content, or null when that computation failed,
    and null in [openai_embedding].  The rows are those of the batches
    whose upsert was applied, among the first [k]; a run that returns has
    gone through every batch; when every write is applied the rows cover
    a prefix of the chunks made of whole batches. *)
Theorem local_path_rows (w : World Embedding) (profile : Profile) (file_id : string)
    (fileMetadata : FileRow) (fileBuffer : string) (chunks : list FileItemChunk) :
  ReachesExtraction env w profile file_id "local" fileMetadata fileBuffer ->
  extractChunks env (toLowerCase (splitPop (f_name fileMetadata))) fileBuffer = inr chunks ->
  requests (snd (POST env w)) = requests w
  /\ exists k,
       file_items (snd (POST env w))
       = file_items w
         ++ map (fun chunk =>
                   mkItem file_id (p_user_id profile) (content chunk) (tokens chunk)
                          None (localVector env chunk))
                (storedChunks env k (S (writes w)) chunks)
       /\ ((exists resp w', tryBlock env w = (inr resp, w')) ->
           (List.length chunks <= k * BATCH_SIZE)%nat)
       /\ ((forall n, write_fault env n = None) ->
           storedChunks env k (S (writes w)) chunks = firstn (k * BATCH_SIZE) chunks).
Proof.
  intros Hreach Hext. split.
  - unfold POST, tryCatch.
    assert (Htry : requests (snd (tryBlock env w)) = requests w).
    { rewrite (tryBlock_reaches env _ _ _ _ _ _ Hreach). unfold bind at 1.
      unfold processFileInBatches. rewrite Hext.
      rewrite (bind_step (lift (inr chunks)) _ _ _ chunks eq_refl).
      destruct (List.length chunks =? 0)%nat; [reflexivity|].
      unfold bind at 1.
      pose proof (batchLoop_local_requests file_id (p_user_id profile) chunks
                    (List.length chunks) 0%nat (claimed env file_id w)) as Hloop.
      destruct (batchLoop env (List.length chunks) file_id (p_user_id profile) "local"
                  chunks 0 (claimed env file_id w)) as [[e|[]] w1]; cbn [fst snd ret] in *;
        [exact Hloop|].
      unfold bind, updateFiles. destruct (write_fault env (writes w1)); exact Hloop. }
    destruct (tryBlock env w) as [[e|resp] w1]; cbn [snd] in *; [|exact Htry].
    unfold catchBlock, bind, tryCatch.
    pose proof (failureFinalize_frame env e w1) as [_ Hreq].
    destruct (failureFinalize env e w1) as [[e2|[]] w2]; cbn [fst snd ret] in *; congruence.
  - exact (route_rows_aligned w profile file_id "local" fileMetadata fileBuffer
             (localVector env) (fun _ => True) chunks
             (fun batchChunks w1 _ => f_equal fst (processBatchEmbeddings_local env batchChunks w1))
             Hreach Hext (proj2 (Forall_forall _ _) (fun _ _ => I))).
Qed.

(** On the OpenAI path, when no extracted chunk is above the per-request
    ceiling and the provider embeds text by text, every row on record
    carries the vector of its own content in [openai_embedding] and null
    in [local_embedding].  The rows are those of the batches whose upsert
    was applied, among the first [k]; a run that returns has gone through
    every batch; when every write is applied the rows cover a prefix of
    the chunks made of whole batches. *)
Theorem openai_path_rows_when_chunks_fit (w : World Embedding) (profile : Profile)
    (file_id : string) (fileMetadata : FileRow) (fileBuffer : string)
    (chunks : list FileItemChunk) (embed : string -> Embedding) :
  embedsBy env embed ->
  ReachesExtraction env w profile file_id "openai" fileMetadata fileBuffer ->
  extractChunks env (toLowerCase (splitPop (f_name fileMetadata))) fileBuffer = inr chunks ->
  Forall (fun chunk => fitsRequest chunk = true) chunks ->
  exists k,
    file_items (snd (POST env w))
    = file_items w
      ++ map (fun chunk =>
                mkItem file_id (p_user_id profile) (content chunk) (tokens chunk)
                       (Some (embed (content chunk))) None)
             (storedChunks env k (S (writes w)) chunks)
    /\ ((exists resp w', tryBlock env w = (inr resp, w')) ->
        (List.length chunks <= k * BATCH_SIZE)%nat)
    /\ ((forall n, write_fault env n = None) ->
        storedChunks env k (S (writes w)) chunks = firstn (k * BATCH_SIZE) chunks).
Proof.
  intros Hprov Hreach Hext Hfit.
  exact (route_rows_aligned w profile file_id "openai" fileMetadata fileBuffer
           (fun chunk => Some (embed (content chunk)))
           (fun chunk => fitsRequest chunk = true) chunks
           (fun batchChunks w1 Hb =>
              processBatchEmbeddings_aligned env embed batchChunks w1 Hprov Hb)
           Hreach Hext Hfit).
Qed.

End AlignedByRoute.

Local Open Scope string_scope.

Lemma demo_local_reaches (txt : list FileItemChunk) :
  ReachesExtraction (Demo.localEnv txt) (Demo.pendingWorld "notes.txt")
                    Demo.profile "f1" "local" (Demo.file "notes.txt" 10 pending) "bytes".
Proof.
  constructor; try reflexivity; try discriminate.
  - constructor; try reflexivity; [discriminate|now right|cbn; lia].
  - now right.
Defined.

(** A text of two chunks on the local path; the model fails on the
    second. *)
Lemma local_path_rows_witness :
  ReachesExtraction (Demo.localEnv [Demo.small "a"; Demo.small "bad"])
                    (Demo.pendingWorld "notes.txt")
                    Demo.profile "f1" "local" (Demo.file "notes.txt" 10 pending) "bytes"
  /\ requests (snd (POST (Demo.localEnv [Demo.small "a"; Demo.small "bad"])
                         (Demo.pendingWorld "notes.txt"))) = []
  /\ file_items (snd (POST (Demo.localEnv [Demo.small "a"; Demo.small "bad"])
                           (Demo.pendingWorld "notes.txt")))
     = [mkItem "f1" "u1" "a" 10 None (Some "a"); mkItem "f1" "u1" "bad" 10 None None]
  /\ exists k,
       file_items (snd (POST (Demo.localEnv [Demo.small "a"; Demo.small "bad"])
                             (Demo.pendingWorld "notes.txt")))
       = map (fun chunk =>
                mkItem "f1" "u1" (content chunk) (tokens chunk) None
                       (localVector (Demo.localEnv [Demo.small "a"; Demo.small "bad"]) chunk))
             (firstn (k * BATCH_SIZE) [Demo.small "a"; Demo.small "bad"]).
Proof.
  split; [apply demo_local_reaches|].
  destruct (local_path_rows (Demo.localEnv [Demo.small "a"; Demo.small "bad"])
              (Demo.pendingWorld "notes.txt") Demo.profile "f1"
              (Demo.file "notes.txt" 10 pending) "bytes"
              [Demo.small "a"; Demo.small "bad"]
              (demo_local_reaches _) eq_refl) as (Hreq & k & Hrows & _ & Hprefix).
  split; [exact Hreq|]. split; [reflexivity|].
  exists k. rewrite Hrows, (Hprefix (fun _ => eq_refl)). reflexivity.
Defined.

(** A text of two chunks that fit, on the OpenAI path. *)
Lemma openai_path_rows_when_chunks_fit_witness :
  embedsBy (Demo.env (inr Demo.form) [Demo.small "a"; Demo.small "b"] []) (fun text => text)
  /\ Forall (fun chunk => fitsRequest chunk = true) [Demo.small "a"; Demo.small "b"]
  /\ file_items (snd (POST (Demo.env (inr Demo.form) [Demo.small "a"; Demo.small "b"] [])
                           (Demo.pendingWorld "notes.txt")))
     = [mkItem "f1" "u1" "a" 10 (Some "a") None; mkItem "f1" "u1" "b" 10 (Some "b") None]
  /\ exists k,
       file_items (snd (POST (Demo.env (inr Demo.form) [Demo.small "a"; Demo.small "b"] [])
                             (Demo.pendingWorld "notes.txt")))
       = map (fun chunk =>
                mkItem "f1" "u1" (content chunk) (tokens chunk)
                       (Some (content chunk)) None)
             (firstn (k * BATCH_SIZE) [Demo.small "a"; Demo.small "b"]).
Proof.
  assert (Hprov : embedsBy (Demo.env (inr Demo.form) [Demo.small "a"; Demo.small "b"] [])
                           (fun text => text)).
  { intros n input. cbn. now rewrite map_id. }
  assert (Hfit : Forall (fun chunk => fitsRequest chunk = true)
                        [Demo.small "a"; Demo.small "b"])
    by (repeat constructor).
  assert (Hext : splitPop "notes.txt" <> EmptyString) by discriminate.
  split; [exact Hprov|]. split; [exact Hfit|]. split; [reflexivity|].
  destruct (openai_path_rows_when_chunks_fit
              (Demo.env (inr Demo.form) [Demo.small "a"; Demo.small "b"] [])
              (Demo.pendingWorld "notes.txt") Demo.profile "f1"
              (Demo.file "notes.txt" 10 pending) "bytes"
              [Demo.small "a"; Demo.small "b"] (fun text => text) Hprov
              (demo_reaches "notes.txt" (inr Demo.form) _ [] Hext) eq_refl Hfit)
    as (k & Hrows & _ & Hprefix).
  exists k. rewrite Hrows, (Hprefix (fun _ => eq_refl)). reflexivity.
Defined.

(* ================================================================== *)
(** * The client retry driver: bounds *)
(* ================================================================== *)

Section DriverBounds.

Import Driver.

Variable server : nat -> N * (JsError + FetchResponse).

Local Open Scope list_scope.

(** [fetch] settles within the deadline of the attempt. *)
Lemma fetch_within_deadline (retryCount : nat) :
  (fst (fetchWithDeadline server retryCount) <= timeoutDuration retryCount)%N.
Proof.
  unfold fetchWithDeadline.
  destruct (timeoutDuration retryCount <=? fst (server retryCount))%N eqn:Hd.
  - cbn [fst]. lia.
  - apply N.leb_gt in Hd. lia.
Qed.

(** An attempt lasts no longer than its deadline and the reading of the
    body. *)
Lemma attempt_within_budget (retryCount : nat) :
  (fst (attempt server retryCount)
   <= timeoutDuration retryCount + bodyTime server retryCount)%N.
Proof.
  pose proof (fetch_within_deadline retryCount) as H.
  unfold attempt, bodyTime.
  destruct (snd (fetchWithDeadline server retryCount)) as [e|response];
    [cbn [fst]; lia|].
  destruct (ok response); [cbn [fst]; lia|].
  destruct (json_message response); cbn [fst]; lia.
Qed.

Lemma budget_step (retryCount : nat) :
  (retryCount < maxRetries)%nat ->
  budget server retryCount
  = (timeoutDuration retryCount + bodyTime server retryCount + delay retryCount
     + budget server (retryCount + 1))%N.
Proof.
  intros Hlt. unfold budget.
  replace (maxRetries - retryCount)%nat with (S (maxRetries - (retryCount + 1)))%nat by lia.
  cbn [budgetFrom]. now rewrite Nat.add_1_r.
Qed.

Lemma budget_least (retryCount : nat) :
  (timeoutDuration retryCount + bodyTime server retryCount <= budget server retryCount)%N.
Proof.
  unfold budget. destruct (maxRetries - retryCount)%nat; cbn [budgetFrom]; lia.
Qed.

(** Every event of a call lies between its start and its start plus the
    budget; every attempt of it has a retry count from [retryCount] up to
    [maxRetries] and the deadline of that count. *)
Lemma processFileInBackground_bounds (retryCount : nat) (clock : N) :
  Forall (fun event => (clock <= eventTime event <= clock + budget server retryCount)%N)
         (processFileInBackground server retryCount clock)
  /\ Forall (fun a => (retryCount <= fst (fst a))%nat
                      /\ (fst (fst a) <= Nat.max retryCount maxRetries)%nat
                      /\ snd a = timeoutDuration (fst (fst a)))
            (attemptsOf (processFileInBackground server retryCount clock))
  /\ (1 <= List.length (attemptsOf (processFileInBackground server retryCount clock))
      <= S (maxRetries - retryCount))%nat.
Proof.
  funelim (processFileInBackground server retryCount clock).
  - (* the call resolved *)
    pose proof (attempt_within_budget retryCount) as Hd.
    pose proof (budget_least retryCount) as Hb.
    rewrite Heq in Hd. cbn [fst] in Hd. cbn [attemptsOf List.length].
    split; [|split].
    + repeat (apply Forall_cons; [cbn [eventTime]; lia|]). apply Forall_nil.
    + apply Forall_cons; [cbn [fst snd]; repeat split; lia|apply Forall_nil].
    + lia.
  - (* no retry left *)
    pose proof (attempt_within_budget retryCount) as Hd.
    pose proof (budget_least retryCount) as Hb.
    rewrite Heq0 in Hd. cbn [fst] in Hd. cbn [attemptsOf List.length].
    split; [|split].
    + repeat (apply Forall_cons; [cbn [eventTime]; lia|]). apply Forall_nil.
    + apply Forall_cons; [cbn [fst snd]; repeat split; lia|apply Forall_nil].
    + lia.
  - (* a retry is scheduled *)
    pose proof (attempt_within_budget retryCount) as Hd.
    rewrite Heq1 in Hd. cbn [fst] in Hd.
    destruct H as (Htime & Hattempts & Hcount).
    rewrite (budget_step retryCount l). cbn [attemptsOf List.length].
    split; [|split].
    + repeat (apply Forall_cons; [cbn [eventTime]; lia|]).
      eapply Forall_impl; [|exact Htime]. cbn beta. intros event Hev. lia.
    + apply Forall_cons; [cbn [fst snd]; repeat split; lia|].
      eapply Forall_impl; [|exact Hattempts]. cbn beta. intros a Ha. lia.
    + lia.
  - (* the error is not worth a retry *)
    pose proof (attempt_within_budget retryCount) as Hd.
    pose proof (budget_least retryCount) as Hb.
    rewrite Heq1 in Hd. cbn [fst] in Hd. cbn [attemptsOf List.length].
    split; [|split].
    + repeat (apply Forall_cons; [cbn [eventTime]; lia|]). apply Forall_nil.
    + apply Forall_cons; [cbn [fst snd]; repeat split; lia|apply Forall_nil].
    + lia.
Qed.

End DriverBounds.

Section DriverVerdicts.

Import Driver.

Variable server : nat -> N * (JsError + FetchResponse).

Local Open Scope list_scope.

(** Whatever the server does, the driver started by [createFile] makes
    between one and four attempts, numbered from 0 and each with the
    deadline of its number, and [fetch] settles within that deadline.
    The deadline does not cover the reading of the body of a response
    that is not ok, so everything the driver does (attempts,
    notifications, scheduling) happens within 1514000 ms, the four
    deadlines and the three delays, plus the time the four attempts spend
    reading such bodies: within 1514000 ms when that time is nil. *)
Theorem driver_attempts_and_time (clock : N) :
  Forall (fun event =>
            (clock <= eventTime event
             <= clock + 1514000 + bodyTime server 0 + bodyTime server 1
                + bodyTime server 2 + bodyTime server 3)%N)
         (processFileInBackground server 0 clock)
  /\ ((forall k, bodyTime server k = 0%N) ->
      Forall (fun event => (clock <= eventTime event <= clock + 1514000)%N)
             (processFileInBackground server 0 clock))
  /\ Forall (fun a => (fst (fst a) <= 3)%nat
                      /\ snd a = timeoutDuration (fst (fst a))
                      /\ (fst (fetchWithDeadline server (fst (fst a))) <= snd a)%N)
            (attemptsOf (processFileInBackground server 0 clock))
  /\ (1 <= List.length (attemptsOf (processFileInBackground server 0 clock)) <= 4)%nat.
Proof.
  destruct (processFileInBackground_bounds server 0 clock) as (Htime & Hattempts & Hcount).
  assert (Hbudget : budget server 0
                    = (1514000 + bodyTime server 0 + bodyTime server 1
                       + bodyTime server 2 + bodyTime server 3)%N).
  { unfold budget. cbn [maxRetries Nat.sub budgetFrom].
    unfold timeoutDuration, delay, baseDelay. cbn [Nat.eqb N.of_nat]. lia. }
  split; [|split; [|split]].
  - eapply Forall_impl; [|exact Htime]. cbn beta. intros event Hev. lia.
  - intros Hnil. eapply Forall_impl; [|exact Htime]. cbn beta. intros event Hev.
    rewrite Hbudget, !Hnil in Hev. lia.
  - eapply Forall_impl; [|exact Hattempts]. cbn beta. intros a (_ & Hle & Hdl).
    split; [exact Hle|]. split; [exact Hdl|]. rewrite Hdl. apply fetch_within_deadline.
  - exact Hcount.
Qed.

(** Once [fetch] has resolved within the deadline the driver is done,
    whatever the answer: for an ok response it shows the success at once;
    for a response that is not ok, whose body parses, it shows the
    failure with the reason once the body is read, however long that
    takes, and never retries. *)
Theorem driver_stops_on_any_response (retryCount : nat) (clock latency : N)
    (response : FetchResponse) :
  server retryCount = (latency, inr response) ->
  (latency < timeoutDuration retryCount)%N ->
  (ok response = true ->
   processFileInBackground server retryCount clock
   = [Attempt retryCount clock (timeoutDuration retryCount);
      Shown (clock + latency) (ProcessingCompleted 4000)])
  /\ (forall reason,
         ok response = false -> json_message response = inr reason ->
         processFileInBackground server retryCount clock
         = [Attempt retryCount clock (timeoutDuration retryCount);
            Shown (clock + (latency + text_time response))
                  (ProcessingFailed reason 10000)]).
Proof.
  intros Hserver Hfast.
  assert (Hfetch : fetchWithDeadline server retryCount = (latency, inr response)).
  { unfold fetchWithDeadline. rewrite Hserver. cbn [fst].
    apply N.leb_gt in Hfast. now rewrite Hfast. }
  split.
  - intros Hok. rewrite processFileInBackground_equation_1.
    unfold attempt. rewrite Hfetch. cbn [fst snd]. rewrite Hok. reflexivity.
  - intros reason Hok Hjson. rewrite processFileInBackground_equation_1.
    unfold attempt. rewrite Hfetch. cbn [fst snd]. rewrite Hok, Hjson. reflexivity.
Qed.

End DriverVerdicts.

(** A server that answers "not ok" after one second and whose body takes
    700 seconds to read: the failure is shown after the deadline of 600
    seconds has passed, and nothing is retried. *)
Lemma driver_stops_on_any_response_witness :
  (1000 < Driver.timeoutDuration 0)%N
  /\ Driver.processFileInBackground
       (fun _ => (1000%N, inr (Driver.mkFetch false (inr "Network error"%string) 700000)))
       0 100
     = [Driver.Attempt 0 100 600000;
        Driver.Shown 701100 (Driver.ProcessingFailed "Network error" 10000)].
Proof.
  split; [reflexivity|].
  exact (proj2 (driver_stops_on_any_response
                  (fun _ => (1000%N,
                             inr (Driver.mkFetch false (inr "Network error"%string) 700000)))
                  0 100%N 1000%N (Driver.mkFetch false (inr "Network error"%string) 700000)
                  eq_refl eq_refl)
               "Network error"%string eq_refl eq_refl).
Defined.

(* ================================================================== *)
(** * The stored name of an upload *)
(* ================================================================== *)

Section StoredName.

Local Open Scope string_scope.

Lemma baseChar_of_any (c : ascii) :
  Upload.isBaseChar (lowerAscii (if Upload.isNameChar c then c else "_"%char)) = true.
Proof. destruct c as [[] [] [] [] [] [] [] []]; reflexivity. Qed.

Lemma validFilename_chars (name : string) :
  Upload.allChars Upload.isBaseChar (toLowerCase (Upload.replaceInvalid name)) = true.
Proof.
  induction name as [|c name IH]; [reflexivity|].
  cbn [Upload.replaceInvalid toLowerCase Upload.allChars].
  now rewrite baseChar_of_any, IH.
Qed.

Lemma allChars_substring (p : ascii -> bool) (n : nat) :
  forall s, Upload.allChars p s = true -> Upload.allChars p (substring 0 n s) = true.
Proof.
  induction n as [|n IH]; intros [|c s] H; cbn [substring Upload.allChars] in *;
    try reflexivity.
  apply andb_true_iff in H as [Hc Hs]. now rewrite Hc, IH.
Qed.

Lemma length_append (a b : string) :
  String.length (a ++ b) = (String.length a + String.length b)%nat.
Proof. induction a as [|c a IH]; cbn; congruence. Qed.

(** The stored name is a base, a dot and the last segment of the name of
    the uploaded file. *)
Lemma storedName_shape_base (recordName fileName : string) :
  exists base,
    Upload.storedName recordName fileName = base ++ String "."%char (splitPop fileName).
Proof.
  unfold Upload.storedName.
  destruct (_ <? _)%Z; eexists; reflexivity.
Qed.

(** [lastIndexOf(".")]: no dot and the value handed in, or the place of
    the dot after which there is none. *)
Lemma lastDotFrom_spec (s : string) :
  forall i found,
    (noDot s = true /\ Upload.lastDotFrom s i found = found)
    \/ (exists stem t, s = stem ++ String "."%char t /\ noDot t = true
                       /\ Upload.lastDotFrom s i found
                          = Z.of_nat (i + String.length stem)).
Proof.
  induction s as [|c s IH]; intros i found; [left; split; reflexivity|].
  cbn [Upload.lastDotFrom noDot].
  destruct (Ascii.eqb c "."%char) eqn:Hc.
  - apply Ascii.eqb_eq in Hc. subst c. right.
    destruct (IH (S i) (Z.of_nat i)) as [[Hno Hlast]|(stem & t & Hs & Ht & Hlast)].
    + exists EmptyString, s. repeat split; [exact Hno|].
      rewrite Hlast. cbn [String.length]. f_equal. lia.
    + exists (String "."%char stem), t. repeat split; [now rewrite Hs|exact Ht|].
      rewrite Hlast. cbn [String.length]. f_equal. lia.
  - destruct (IH (S i) found) as [[Hno Hlast]|(stem & t & Hs & Ht & Hlast)].
    + left. split; [now rewrite Hno|exact Hlast].
    + right. exists (String c stem), t. repeat split; [now rewrite Hs|exact Ht|].
      rewrite Hlast. cbn [String.length]. f_equal. lia.
Qed.

Lemma substring_prefix (a b : string) : substring 0 (String.length a) (a ++ b) = a.
Proof.
  induction a as [|c a IH]; cbn [String.length append substring].
  - destruct b; reflexivity.
  - now rewrite IH.
Qed.

Lemma substring_all (n : nat) :
  forall s, (String.length s <= n)%nat -> substring 0 n s = s.
Proof.
  induction n as [|n IH]; intros [|c s] H; cbn [String.length substring] in *;
    try reflexivity; try lia.
  rewrite IH; [reflexivity|lia].
Qed.

(** The base name of [createFile]: the sanitized record name without its
    last dot and what follows it. *)
Lemma baseName_stem (valid : string) :
  exists stem tail,
    valid = stem ++ tail
    /\ ((tail = EmptyString /\ noDot valid = true)
        \/ (exists t, tail = String "."%char t /\ noDot t = true))
    /\ (if (Upload.lastIndexOfDot valid <? 0)%Z then valid
        else Upload.substringTo valid (Upload.lastIndexOfDot valid)) = stem.
Proof.
  unfold Upload.lastIndexOfDot.
  destruct (lastDotFrom_spec valid 0 (-1)%Z) as [[Hno Hlast]|(stem & t & Hs & Ht & Hlast)].
  - exists valid, EmptyString. rewrite Hlast. cbn [Z.ltb Z.compare].
    repeat split; [|left; split; [reflexivity|exact Hno]].
    clear. induction valid as [|c v IH]; [reflexivity|]. cbn [append]. now rewrite <- IH.
  - exists stem, (String "."%char t). rewrite Hlast. cbn [Nat.add].
    split; [exact Hs|]. split; [right; exists t; split; [reflexivity|exact Ht]|].
    destruct (Z.ltb_spec (Z.of_nat (String.length stem)) 0) as [Hneg|_]; [lia|].
    unfold Upload.substringTo. rewrite Nat2Z.id, Hs. apply substring_prefix.
Qed.

(** The shape of the stored name: a base, a dot, and the last segment of
    the name of the uploaded file, untouched.  The base is made of
    lower-case letters, digits, dots and underscores only and has at most
    [99 - extension.length] characters; so the stored name has at most
    100 characters whenever the extension has at most 99.  The base comes
    from the name in the record: that name, with every character other
    than a letter, a digit or a dot replaced by an underscore and then
    lower-cased, is a stem followed by nothing (and then it holds no dot)
    or by its last dot and what follows it, and the base is the first
    [99 - extension.length] characters of the stem (the whole stem when
    it is not longer). *)
Theorem storedName_shape (recordName fileName : string) :
  exists base,
    Upload.storedName recordName fileName
    = base ++ String "."%char (splitPop fileName)
    /\ Upload.allChars Upload.isBaseChar base = true
    /\ (String.length base <= 99 - String.length (splitPop fileName))%nat
    /\ ((String.length (splitPop fileName) <= 99)%nat ->
        (String.length (Upload.storedName recordName fileName) <= 100)%nat)
    /\ exists stem tail,
         toLowerCase (Upload.replaceInvalid recordName) = stem ++ tail
         /\ ((tail = EmptyString
              /\ noDot (toLowerCase (Upload.replaceInvalid recordName)) = true)
             \/ (exists t, tail = String "."%char t /\ noDot t = true))
         /\ base = substring 0 (99 - String.length (splitPop fileName)) stem.
Proof.
  unfold Upload.storedName.
  set (valid := toLowerCase (Upload.replaceInvalid recordName)).
  set (ext := splitPop fileName).
  set (baseName := if (Upload.lastIndexOfDot valid <? 0)%Z then valid
                   else Upload.substringTo valid (Upload.lastIndexOfDot valid)).
  destruct (baseName_stem valid) as (stem & tail & Hvalid & Htail & Hstem).
  fold baseName in Hstem.
  assert (Hbase : Upload.allChars Upload.isBaseChar baseName = true).
  { unfold baseName. destruct (Upload.lastIndexOfDot valid <? 0)%Z.
    - apply validFilename_chars.
    - apply allChars_substring, validFilename_chars. }
  destruct (100 - Z.of_nat (String.length ext) - 1 <? Z.of_nat (String.length baseName))%Z
    eqn:Hlong.
  - exists (Upload.substringTo baseName (100 - Z.of_nat (String.length ext) - 1)).
    assert (Hlen : (String.length
                      (Upload.substringTo baseName (100 - Z.of_nat (String.length ext) - 1))
                    <= 99 - String.length ext)%nat).
    { unfold Upload.substringTo.
      pose proof (length_substring_le
                    (Z.to_nat (100 - Z.of_nat (String.length ext) - 1)) baseName).
      lia. }
    split; [reflexivity|]. split; [now apply allChars_substring|]. split; [exact Hlen|].
    split; [intros Hext; rewrite length_append; cbn [String.length append]; lia|].
    exists stem, tail. split; [exact Hvalid|]. split; [exact Htail|].
    unfold Upload.substringTo. rewrite Hstem. f_equal. lia.
  - exists baseName. apply Z.ltb_ge in Hlong.
    split; [reflexivity|]. split; [exact Hbase|]. split; [lia|].
    split; [intros Hext; rewrite length_append; cbn [String.length append]; lia|].
    exists stem, tail. split; [exact Hvalid|]. split; [exact Htail|].
    rewrite <- Hstem. symmetry. apply substring_all. lia.
Qed.

Lemma splitPop_storedName (recordName fileName : string) :
  splitPop (Upload.storedName recordName fileName) = splitPop fileName.
Proof.
  destruct (storedName_shape_base recordName fileName) as (base & ->).
  unfold splitPop at 1. rewrite lastSegment_after_dot.
  apply lastSegment_noDot. apply lastSegment_has_noDot. reflexivity.
Qed.

(** The stored name ends with the extension of the uploaded file, so the
    route, which takes the text after the last dot of the stored name and
    lower-cases it, dispatches on the extension of the upload whatever
    the name in the record was. *)
Theorem storedName_keeps_extension {Embedding : Type} (env : Env Embedding)
    (recordName fileName blob : string) :
  splitPop (Upload.storedName recordName fileName) = splitPop fileName
  /\ extractChunks env (toLowerCase (splitPop (Upload.storedName recordName fileName))) blob
     = extractChunks env (toLowerCase (splitPop fileName)) blob.
Proof.
  pose proof (splitPop_storedName recordName fileName) as H.
  split; [exact H|now rewrite H].
Qed.

End StoredName.


(** A record name with spaces, brackets and capitals. *)
Lemma storedName_shape_witness :
  (String.length (splitPop "My Report (final).PDF") <= 99)%nat
  /\ (String.length (Upload.storedName "My Report (final).PDF" "My Report (final).PDF")
      <= 100)%nat
  /\ Upload.storedName "My Report (final).PDF" "My Report (final).PDF"
     = "my_report__final_.PDF"%string.
Proof.
  assert (Hext : (String.length (splitPop "My Report (final).PDF") <= 99)%nat)
    by (vm_compute; lia).
  split; [exact Hext|]. split; [|reflexivity].
  destruct (storedName_shape "My Report (final).PDF" "My Report (final).PDF")
    as (base & _ & _ & _ & Hlen & _).
  exact (Hlen Hext).
Defined.

(** An upload whose extension is "docx" in another case, "DOCX" say, is
    not taken for a Word file by [createFileBasedOnExtension], goes
    through [createFile], and is turned away by the extension switch of
    the route, which lower-cases the extension of the stored name. *)
Theorem docx_in_capitals_is_unsupported {Embedding : Type} (env : Env Embedding)
    (recordName fileName blob : string) :
  toLowerCase (splitPop fileName) = "docx"%string ->
  splitPop fileName <> "docx"%string ->
  Upload.createFileBasedOnExtension fileName = Upload.CreateFile
  /\ extractChunks env (toLowerCase (splitPop (Upload.storedName recordName fileName))) blob
     = inl (Error "Unsupported file type").
Proof.
  intros Hlower Hexact. split.
  - unfold Upload.createFileBasedOnExtension.
    destruct (String.eqb (splitPop fileName) "docx") eqn:Heq; [|reflexivity].
    apply String.eqb_eq in Heq. now contradiction Hexact.
  - rewrite splitPop_storedName, Hlower. reflexivity.
Qed.

(** An upload named "Thesis.DOCX". *)
Lemma docx_in_capitals_is_unsupported_witness :
  toLowerCase (splitPop "Thesis.DOCX") = "docx"%string
  /\ splitPop "Thesis.DOCX" <> "docx"%string
  /\ Upload.storedName "Thesis.DOCX" "Thesis.DOCX" = "thesis.DOCX"%string
  /\ extractChunks Demo.plainEnv
       (toLowerCase (splitPop (Upload.storedName "Thesis.DOCX" "Thesis.DOCX"))) "bytes"
     = inl (Error "Unsupported file type").
Proof.
  assert (Hexact : splitPop "Thesis.DOCX" <> "docx"%string) by discriminate.
  split; [reflexivity|]. split; [exact Hexact|]. split; [reflexivity|].
  exact (proj2 (docx_in_capitals_is_unsupported Demo.plainEnv "Thesis.DOCX" "Thesis.DOCX"
                  "bytes" eq_refl Hexact)).
Defined.

(* ================================================================== *)
(** * Requests for a file of another user *)
(* ================================================================== *)

Section ForeignFile.

Context {Embedding : Type}.
Variable env : Env Embedding.

Local Open Scope string_scope.
Local Open Scope list_scope.
Local Open Scope route_scope.

(** A well-formed request for a file that belongs to another user is
    answered with code 403; no chunk row is written and the provider is
    not called.  The finalize of the failure path checks no ownership:
    when it reads the same file id back and its write is applied, the
    row of the owner is overwritten with status [failed] and the message
    of the refusal, whatever its status was. *)
Theorem foreign_file_rejected (w : World Embedding) (profile : Profile)
    (file_id provider : string) (fileMetadata : FileRow) :
  getServerProfile env = inr profile ->
  req_formData env (bodyReads w) = inr (mkForm (Some file_id) (Some provider)) ->
  file_id <> EmptyString ->
  provider = "openai" \/ provider = "local" ->
  metadata_fault env = None ->
  find (fun row => String.eqb (f_id row) file_id) (files w) = Some fileMetadata ->
  f_user_id fileMetadata <> p_user_id profile ->
  fst (POST env w)
  = inr (mkResponse 403
           (ErrorBody "Unauthorized access to file." (processingTime env)
              (if development env
               then Some "Unauthorized: File belongs to different user"
               else None)))
  /\ file_items (snd (POST env w)) = file_items w
  /\ requests (snd (POST env w)) = requests w
  /\ (req_formData env (S (bodyReads w)) = inr (mkForm (Some file_id) (Some provider)) ->
      write_fault env (writes w) = None ->
      In (markFailed env (Error "Unauthorized: File belongs to different user") fileMetadata)
         (files (snd (POST env w)))
      /\ processing_status
           (markFailed env (Error "Unauthorized: File belongs to different user")
                       fileMetadata) = failed).
Proof.
  intros Hprofile Hform Hid Hprov Hmeta Hrow Howner.
  assert (Hp : provider <> EmptyString) by (destruct Hprov; subst; discriminate).
  destruct (truthy_some file_id Hid) as [Tid Oid].
  destruct (truthy_some provider Hp) as [Tp Op].
  assert (Htry : tryBlock env w
                 = (inl (Error "Unauthorized: File belongs to different user"), bodyRead w)).
  { unfold tryBlock, bind, lift, formDataOf. rewrite Hprofile. cbn [ret].
    rewrite Hform. cbn [fd_file_id fd_embeddingsProvider].
    rewrite Tid, Tp, Oid, Op. cbn [negb orb].
    replace (String.eqb provider "openai" || String.eqb provider "local") with true
      by (destruct Hprov; subst; reflexivity).
    cbn [negb]. unfold selectFile. rewrite Hmeta. cbn [files]. rewrite Hrow.
    apply String.eqb_neq in Howner. rewrite Howner. reflexivity. }
  rewrite (POST_failed env _ _ _ Htry). cbn [fst snd].
  split; [reflexivity|].
  assert (Hframe : file_items (snd (tryCatch
                      (failureFinalize env (Error "Unauthorized: File belongs to different user"))
                      (fun _ => ret tt) (bodyRead w))) = file_items w
                   /\ requests (snd (tryCatch
                      (failureFinalize env (Error "Unauthorized: File belongs to different user"))
                      (fun _ => ret tt) (bodyRead w))) = requests w).
  { pose proof (failureFinalize_frame env
                  (Error "Unauthorized: File belongs to different user") (bodyRead w)) as Hf.
    unfold tryCatch.
    destruct (failureFinalize env _ (bodyRead w)) as [[e|[]] w2]; exact Hf. }
  split; [exact (proj1 Hframe)|]. split; [exact (proj2 Hframe)|].
  intros Hread Hwrite. split; [|reflexivity].
  unfold tryCatch, failureFinalize, bind, formDataOf. cbn [bodyReads bodyRead].
  rewrite Hread. cbn [fd_file_id]. rewrite Tid, Oid.
  unfold updateFiles. cbn [writes bodyRead]. rewrite Hwrite.
  cbn [fst snd ret files bodyRead].
  apply find_some in Hrow as [Hin Heq]. apply in_map_iff.
  exists fileMetadata. now rewrite Heq.
Qed.

(** The route changes no identifying column of any row of [files], and
    neither adds nor removes a row: ids, owners, names, storage paths and
    sizes are after every run what they were before it. *)
Theorem POST_keeps_file_identity (w : World Embedding) :
  map fileCore (files (snd (POST env w))) = map fileCore (files w).
Proof.
  apply (keeps_POST env (fun rows => map fileCore rows = map fileCore (files w)));
    [|reflexivity].
  intros patch file_id rows Hpatch Hrows. rewrite <- Hrows.
  unfold patchRows. rewrite map_map. apply map_ext. intros row.
  destruct (String.eqb (f_id row) file_id); [|reflexivity].
  destruct Hpatch; reflexivity.
Qed.

End ForeignFile.

(** The file of user [u2], completed, requested by user [u1]. *)
Lemma foreign_file_rejected_witness :
  f_user_id (mkFile "f1" "u2" "notes.txt" "u2/path" 10 (Some 7%N) completed None None None)
  <> p_user_id Demo.profile
  /\ map processing_status
         (files (snd (POST Demo.plainEnv
                        (mkWorld [mkFile "f1" "u2" "notes.txt" "u2/path" 10 (Some 7%N)
                                         completed None None None] [] [] 0 0))))
     = [failed]
  /\ In (markFailed Demo.plainEnv (Error "Unauthorized: File belongs to different user")
           (mkFile "f1" "u2" "notes.txt" "u2/path" 10 (Some 7%N) completed None None None))
        (files (snd (POST Demo.plainEnv
                       (mkWorld [mkFile "f1" "u2" "notes.txt" "u2/path" 10 (Some 7%N)
                                        completed None None None] [] [] 0 0)))).
Proof.
  assert (Howner : f_user_id (mkFile "f1" "u2" "notes.txt" "u2/path" 10 (Some 7%N)
                                     completed None None None)
                   <> p_user_id Demo.profile) by discriminate.
  assert (Hid : "f1"%string <> EmptyString) by discriminate.
  split; [exact Howner|]. split; [reflexivity|].
  destruct (foreign_file_rejected Demo.plainEnv
              (mkWorld [mkFile "f1" "u2" "notes.txt" "u2/path" 10 (Some 7%N)
                               completed None None None] [] [] 0 0)
              Demo.profile "f1" "openai"
              (mkFile "f1" "u2" "notes.txt" "u2/path" 10 (Some 7%N) completed None None None)
              eq_refl eq_refl Hid (or_introl eq_refl) eq_refl eq_refl Howner)
    as (_ & _ & _ & Hfin).
  exact (proj1 (Hfin eq_refl eq_refl)).
Defined.


(* ================================================================== *)
(** * The client retry driver: the last notification *)
(* ================================================================== *)

Section DriverLastWord.

Import Driver.

Variable server : nat -> N * (JsError + FetchResponse).

Local Open Scope string_scope.
Local Open Scope list_scope.

Lemma lastShown_acc (log : list Event) :
  forall acc,
    lastShown log acc
    = match lastShown log None with
      | Some toast => Some toast
      | None => acc
      end.
Proof.
  induction log as [|event log IH]; intros acc; cbn [lastShown]; [reflexivity|].
  destruct event as [rc st dl|t toast|t d rc]; try apply IH.
  rewrite (IH (Some toast)).
  destruct (lastShown log None); reflexivity.
Qed.

Lemma finalToast_isVerdict (error : JsError) : isVerdict (finalToast error) = true.
Proof.
  unfold finalToast.
  repeat match goal with
         | |- context [if ?c then _ else _] => destruct c
         end; reflexivity.
Qed.

Lemma attempt_isVerdict (retryCount : nat) (elapsed : N) (toast : Toast) :
  attempt server retryCount = (elapsed, inr toast) -> isVerdict toast = true.
Proof.
  unfold attempt. destruct (snd (fetchWithDeadline server retryCount)) as [e|response];
    [discriminate|].
  destruct (ok response).
  - intros H. inversion H. reflexivity.
  - destruct (json_message response); [discriminate|].
    intros H. inversion H. reflexivity.
Qed.

(** The driver never leaves the user at "retrying": whatever the server
    does, the last notification of a call is a verdict, that is the
    success, the failure reported by the route, or one of the four final
    failures. *)
Theorem driver_ends_with_verdict (retryCount : nat) (clock : N) :
  exists toast,
    lastShown (processFileInBackground server retryCount clock) None = Some toast
    /\ isVerdict toast = true.
Proof.
  funelim (processFileInBackground server retryCount clock); cbn [lastShown].
  - eexists. split; [reflexivity|]. eapply attempt_isVerdict; eassumption.
  - eexists. split; [reflexivity|apply finalToast_isVerdict].
  - destruct H as (toast & Hlast & Hverdict). exists toast.
    rewrite lastShown_acc, Hlast. split; [reflexivity|exact Hverdict].
  - eexists. split; [reflexivity|apply finalToast_isVerdict].
Qed.

(** An answer that is not ok and whose body does not parse makes
    [JSON.parse] throw inside the [try], once the body is read; the error
    is then handled like a failure of the call.  When it is not of a
    retryable kind the call is the last one, and an error whose message
    speaks of a "token", as the messages of [JSON.parse] do, is reported
    to the user as a file too large for processing. *)
Theorem driver_reports_unparsable_body (retryCount : nat) (clock latency : N)
    (response : FetchResponse) (error : JsError) :
  server retryCount = (latency, inr response) ->
  (latency < timeoutDuration retryCount)%N ->
  ok response = false ->
  json_message response = inl error ->
  retryable error = false ->
  processFileInBackground server retryCount clock
  = [Attempt retryCount clock (timeoutDuration retryCount);
     Shown (clock + (latency + text_time response)) (finalToast error)]
  /\ (messageIncludes error "token" = true ->
      finalToast error = TooLargeForProcessing 12000).
Proof.
  intros Hserver Hfast Hok Hjson Hretry.
  assert (Hattempt : attempt server retryCount
                     = ((latency + text_time response)%N, inl error)).
  { unfold attempt, fetchWithDeadline. rewrite Hserver. cbn [fst].
    apply N.leb_gt in Hfast. rewrite Hfast. cbn [fst snd]. now rewrite Hok, Hjson. }
  split.
  - rewrite processFileInBackground_equation_1. rewrite Hattempt.
    cbn [processFileInBackground_unfold_clause_1].
    destruct (lt_dec retryCount maxRetries);
      cbn [processFileInBackground_unfold_clause_1_clause_2]; [|reflexivity].
    rewrite Hretry. reflexivity.
  - intros Htoken. unfold retryable in Hretry.
    repeat (apply orb_false_iff in Hretry as [Hretry ?]).
    unfold finalToast. rewrite Hretry.
    replace (messageIncludes error "network" || messageIncludes error "fetch") with false
      by (symmetry; apply orb_false_iff; split; assumption).
    now rewrite Htoken.
Qed.

End DriverLastWord.

(** A gateway answers attempt 0 with an HTML page and code 504. *)
Lemma driver_reports_unparsable_body_witness :
  (3000 < Driver.timeoutDuration 0)%N
  /\ Driver.retryable (mkError "SyntaxError"
                         (Some "Unexpected token < in JSON at position 0"%string)) = false
  /\ Driver.processFileInBackground
       (fun _ => (3000%N,
                  inr (Driver.mkFetch false
                         (inl (mkError "SyntaxError"
                                 (Some "Unexpected token < in JSON at position 0"%string)))
                         20)))
       0 100
     = [Driver.Attempt 0 100 600000;
        Driver.Shown 3120 (Driver.TooLargeForProcessing 12000)].
Proof.
  split; [reflexivity|]. split; [reflexivity|].
  destruct (driver_reports_unparsable_body
              (fun _ => (3000%N,
                         inr (Driver.mkFetch false
                                (inl (mkError "SyntaxError"
                                        (Some "Unexpected token < in JSON at position 0"%string)))
                                20)))
              0 100%N 3000%N
              (Driver.mkFetch false
                 (inl (mkError "SyntaxError"
                         (Some "Unexpected token < in JSON at position 0"%string)))
                 20)
              (mkError "SyntaxError" (Some "Unexpected token < in JSON at position 0"%string))
              eq_refl eq_refl eq_refl eq_refl eq_refl) as [Hlog Htoast].
  rewrite Hlog, (Htoast eq_refl). reflexivity.
Defined.

(* ================================================================== *)
(** * The earlier batching loop and the present one *)
(* ================================================================== *)

Section EarlierLoop.

Context {Embedding : Type}.
Variable env : Env Embedding.

Local Open Scope list_scope.
Local Open Scope route_scope.

Lemma vectorsOf_app (a b : list (option Embedding)) :
  vectorsOf (a ++ b) = vectorsOf a ++ vectorsOf b.
Proof.
  induction a as [|[v|] a IH]; cbn [app vectorsOf]; [reflexivity| |exact IH].
  now rewrite IH.
Qed.

Lemma vectorsOf_some (r : list Embedding) : vectorsOf (map Some r) = r.
Proof. induction r as [|v r IH]; cbn [map vectorsOf]; congruence. Qed.

(** The present loop, one chunk on. *)
Lemma finishSubBatches_cons (chunk : FileItemChunk) (rest : list FileItemChunk)
    (st : SubBatchState) (w : World Embedding) :
  finishSubBatches env (chunk :: rest) st w
  = if (MAX_TOKENS_PER_REQUEST <? tokens chunk)%N then
      finishSubBatches env rest
        (mkState (batchEmbeddings st ++ [None]) (currentSubBatch st)
                 (currentSubBatchTokens st) (S (skippedChunks st))) w
    else if (MAX_BATCH_TOKENS <? currentSubBatchTokens st + tokens chunk)%N
            && (0 <? List.length (currentSubBatch st))%nat then
      match createEmbeddings env (currentSubBatch st) w with
      | (inl e, w1) => (inl e, w1)
      | (inr response, w1) =>
          finishSubBatches env rest
            (mkState (batchEmbeddings st ++ map Some response) [content chunk]
                     (tokens chunk) (skippedChunks st)) w1
      end
    else
      finishSubBatches env rest
        (mkState (batchEmbeddings st) (currentSubBatch st ++ [content chunk])
                 (currentSubBatchTokens st + tokens chunk)%N (skippedChunks st)) w.
Proof.
  unfold finishSubBatches. cbn [subBatchLoop].
  destruct (MAX_TOKENS_PER_REQUEST <? tokens chunk)%N; [reflexivity|].
  destruct ((MAX_BATCH_TOKENS <? currentSubBatchTokens st + tokens chunk)%N
            && (0 <? List.length (currentSubBatch st))%nat); [|reflexivity].
  unfold bind at 1 2.
  destruct (createEmbeddings env (currentSubBatch st) w) as [[e|response] w1]; reflexivity.
Qed.

Lemma finishSubBatches_nil (st : SubBatchState) (w : World Embedding) :
  finishSubBatches env [] st w
  = if (0 <? List.length (currentSubBatch st))%nat then
      match createEmbeddings env (currentSubBatch st) w with
      | (inl e, w1) => (inl e, w1)
      | (inr response, w1) => (inr (batchEmbeddings st ++ map Some response), w1)
      end
    else (inr (batchEmbeddings st), w).
Proof.
  unfold finishSubBatches, bind, flushLast. cbn [subBatchLoop ret].
  destruct (0 <? List.length (currentSubBatch st))%nat; [|reflexivity].
  unfold bind. destruct (createEmbeddings env (currentSubBatch st) w) as [[e|response] w1];
    reflexivity.
Qed.

(** The earlier loop, one chunk on. *)
Lemma finish_cons (chunk : FileItemChunk) (rest : list FileItemChunk)
    (st : Earlier.BatchState) (w : World Embedding) :
  Earlier.finish env (chunk :: rest) st w
  = if (MAX_TOKENS_PER_REQUEST <? tokens chunk)%N then
      Earlier.finish env rest
        (Earlier.mkBatch (Earlier.allEmbeddings st ++ [None]) (Earlier.currentBatch st)
                         (Earlier.currentBatchTokens st) (S (Earlier.skippedChunks st))) w
    else
      match Earlier.addChunk env chunk st w with
      | (inl e, w1) => (inl e, w1)
      | (inr st1, w1) =>
          match Earlier.safetyCheck env st1 w1 with
          | (inl e, w2) => (inl e, w2)
          | (inr st2, w2) => Earlier.finish env rest st2 w2
          end
      end.
Proof.
  unfold Earlier.finish. cbn [Earlier.chunkLoop].
  destruct (MAX_TOKENS_PER_REQUEST <? tokens chunk)%N; [reflexivity|].
  unfold bind at 1 2.
  destruct (Earlier.addChunk env chunk st w) as [[e|st1] w1]; [reflexivity|].
  unfold bind at 1.
  destruct (Earlier.safetyCheck env st1 w1) as [[e|st2] w2]; reflexivity.
Qed.

Lemma finish_nil (st : Earlier.BatchState) (w : World Embedding) :
  Earlier.finish env [] st w
  = if (0 <? List.length (Earlier.currentBatch st))%nat then
      match createEmbeddings env (Earlier.currentBatch st) w with
      | (inl e, w1) => (inl e, w1)
      | (inr response, w1) => (inr (Earlier.allEmbeddings st ++ map Some response), w1)
      end
    else (inr (Earlier.allEmbeddings st), w).
Proof.
  unfold Earlier.finish, bind, Earlier.finalBatch. cbn [Earlier.chunkLoop ret].
  destruct (0 <? List.length (Earlier.currentBatch st))%nat; [|reflexivity].
  unfold bind. destruct (createEmbeddings env (Earlier.currentBatch st) w)
    as [[e|response] w1]; reflexivity.
Qed.

(** The present loop with a sub-batch above the batch ceiling pending:
    the request for it comes before anything else the loop does, so when
    the provider refuses it the loop ends with that error. *)
Lemma pending_request_fails (chunks : list FileItemChunk) :
  forall (st : SubBatchState) (w w' : World Embedding) (e : JsError),
    (MAX_BATCH_TOKENS < currentSubBatchTokens st)%N ->
    currentSubBatch st <> [] ->
    createEmbeddings env (currentSubBatch st) w = (inl e, w') ->
    finishSubBatches env chunks st w = (inl e, w').
Proof.
  induction chunks as [|chunk rest IH]; intros st w w' e Htok Hcur Hreq.
  - rewrite finishSubBatches_nil, (proj2 (nonempty_length _) Hcur), Hreq. reflexivity.
  - rewrite finishSubBatches_cons.
    destruct (MAX_TOKENS_PER_REQUEST <? tokens chunk)%N.
    + apply IH; assumption.
    + replace (MAX_BATCH_TOKENS <? currentSubBatchTokens st + tokens chunk)%N with true
        by (symmetry; apply N.ltb_lt; lia).
      rewrite (proj2 (nonempty_length _) Hcur). cbn [andb]. now rewrite Hreq.
Qed.

(** The two loops side by side.  Either they are in step, or the earlier
    one has already sent, by its safety check, the sub-batch the present
    one still holds. *)
Lemma loops_agree (chunks : list FileItemChunk) :
  (forall (stE : Earlier.BatchState) (stP : SubBatchState) (w : World Embedding),
      Earlier.currentBatch stE = currentSubBatch stP ->
      Earlier.currentBatchTokens stE = currentSubBatchTokens stP ->
      vectorsOf (Earlier.allEmbeddings stE) = vectorsOf (batchEmbeddings stP) ->
      List.length (Earlier.allEmbeddings stE) = List.length (batchEmbeddings stP) ->
      agree (Earlier.finish env chunks stE w) (finishSubBatches env chunks stP w))
  /\ (forall (stE : Earlier.BatchState) (stP : SubBatchState) (wE wP : World Embedding)
             (response : list Embedding),
         Earlier.currentBatch stE = [] ->
         Earlier.currentBatchTokens stE = 0%N ->
         currentSubBatch stP <> [] ->
         (MAX_BATCH_TOKENS < currentSubBatchTokens stP)%N ->
         createEmbeddings env (currentSubBatch stP) wP = (inr response, wE) ->
         vectorsOf (Earlier.allEmbeddings stE)
         = vectorsOf (batchEmbeddings stP) ++ response ->
         List.length (Earlier.allEmbeddings stE)
         = (List.length (batchEmbeddings stP) + List.length response)%nat ->
         agree (Earlier.finish env chunks stE wE) (finishSubBatches env chunks stP wP)).
Proof.
  induction chunks as [|chunk rest [IHsame IHahead]]; split.
  - (* in step, at the end *)
    intros stE stP w Hcur Htok Hvec Hlen.
    rewrite finish_nil, finishSubBatches_nil, Hcur.
    destruct (0 <? List.length (currentSubBatch stP))%nat.
    + destruct (createEmbeddings env (currentSubBatch stP) w) as [[e|response] w1];
        split; cbn [fst snd]; try reflexivity.
      split.
      * now rewrite !vectorsOf_app, Hvec.
      * rewrite !length_app. now rewrite Hlen.
    + split; cbn [fst snd]; [reflexivity|]. split; assumption.
  - (* the earlier loop ahead, at the end *)
    intros stE stP wE wP response HcurE HtokE HcurP HtokP Hreq Hvec Hlen.
    rewrite finish_nil, finishSubBatches_nil, HcurE, (proj2 (nonempty_length _) HcurP), Hreq.
    cbn [List.length Nat.ltb Nat.leb]. split; cbn [fst snd]; [reflexivity|]. split.
    + now rewrite vectorsOf_app, vectorsOf_some.
    + now rewrite length_app, length_map.
  - (* in step, one chunk on *)
    intros stE stP w Hcur Htok Hvec Hlen.
    rewrite finish_cons, finishSubBatches_cons.
    destruct (MAX_TOKENS_PER_REQUEST <? tokens chunk)%N eqn:Hskip.
    { apply IHsame; cbn [Earlier.currentBatch Earlier.currentBatchTokens
                          Earlier.allEmbeddings currentSubBatch currentSubBatchTokens
                          batchEmbeddings]; try assumption.
      - now rewrite !vectorsOf_app, Hvec.
      - rewrite !length_app. now rewrite Hlen. }
    unfold Earlier.addChunk. rewrite Hcur, Htok.
    destruct ((MAX_BATCH_TOKENS <? currentSubBatchTokens stP + tokens chunk)%N
              && (0 <? List.length (currentSubBatch stP))%nat) eqn:Hfull.
    + (* the open sub-batch is sent first *)
      unfold bind at 1.
      destruct (createEmbeddings env (currentSubBatch stP) w) as [[e|response] w1];
        [split; reflexivity|].
      cbn [ret]. unfold Earlier.safetyCheck.
      cbn [Earlier.currentBatchTokens Earlier.currentBatch Earlier.allEmbeddings
           Earlier.skippedChunks].
      destruct (MAX_BATCH_TOKENS <? tokens chunk)%N eqn:Hbig.
      * (* the chunk alone is above the batch ceiling: safety request *)
        unfold bind at 1.
        destruct (createEmbeddings env [content chunk] w1) as [[e|response2] w2] eqn:Hreq.
        -- rewrite (pending_request_fails rest _ w1 w2 e); [split; reflexivity| | |exact Hreq].
           ++ cbn [currentSubBatchTokens]. now apply N.ltb_lt.
           ++ cbn [currentSubBatch]. discriminate.
        -- cbn [ret]. apply (IHahead _ _ w2 w1 response2); cbn [Earlier.currentBatch
             Earlier.currentBatchTokens Earlier.allEmbeddings currentSubBatch
             currentSubBatchTokens batchEmbeddings]; try reflexivity.
           ++ discriminate.
           ++ now apply N.ltb_lt.
           ++ exact Hreq.
           ++ now rewrite !vectorsOf_app, !vectorsOf_some, Hvec.
           ++ rewrite !length_app, !length_map. now rewrite Hlen.
      * cbn [ret]. apply IHsame; cbn [Earlier.currentBatch Earlier.currentBatchTokens
             Earlier.allEmbeddings currentSubBatch currentSubBatchTokens batchEmbeddings];
          try reflexivity.
        -- now rewrite !vectorsOf_app, Hvec.
        -- rewrite !length_app. now rewrite Hlen.
    + (* the chunk joins the open sub-batch *)
      cbn [ret]. unfold Earlier.safetyCheck.
      cbn [Earlier.currentBatchTokens Earlier.currentBatch Earlier.allEmbeddings
           Earlier.skippedChunks].
      destruct (MAX_BATCH_TOKENS <? currentSubBatchTokens stP + tokens chunk)%N eqn:Hbig.
      * unfold bind at 1.
        destruct (createEmbeddings env (currentSubBatch stP ++ [content chunk]) w)
          as [[e|response2] w2] eqn:Hreq.
        -- rewrite (pending_request_fails rest _ w w2 e); [split; reflexivity| | |exact Hreq].
           ++ cbn [currentSubBatchTokens]. now apply N.ltb_lt.
           ++ cbn [currentSubBatch]. intros Hnil. now apply app_eq_nil in Hnil as [_ Hnil].
        -- cbn [ret]. apply (IHahead _ _ w2 w response2); cbn [Earlier.currentBatch
             Earlier.currentBatchTokens Earlier.allEmbeddings currentSubBatch
             currentSubBatchTokens batchEmbeddings]; try reflexivity.
           ++ intros Hnil. now apply app_eq_nil in Hnil as [_ Hnil].
           ++ now apply N.ltb_lt.
           ++ exact Hreq.
           ++ now rewrite !vectorsOf_app, !vectorsOf_some, Hvec.
           ++ rewrite !length_app, !length_map. now rewrite Hlen.
      * cbn [ret]. apply IHsame; cbn [Earlier.currentBatch Earlier.currentBatchTokens
             Earlier.allEmbeddings currentSubBatch currentSubBatchTokens batchEmbeddings];
          try reflexivity; assumption.
  - (* the earlier loop ahead, one chunk on *)
    intros stE stP wE wP response HcurE HtokE HcurP HtokP Hreq Hvec Hlen.
    rewrite finish_cons, finishSubBatches_cons.
    destruct (MAX_TOKENS_PER_REQUEST <? tokens chunk)%N eqn:Hskip.
    { apply (IHahead _ _ wE wP response); cbn [Earlier.currentBatch
        Earlier.currentBatchTokens Earlier.allEmbeddings currentSubBatch
        currentSubBatchTokens batchEmbeddings]; try assumption.
      - rewrite !vectorsOf_app, Hvec. cbn [vectorsOf]. now rewrite !app_nil_r.
      - rewrite !length_app. cbn [List.length]. lia. }
    replace (MAX_BATCH_TOKENS <? currentSubBatchTokens stP + tokens chunk)%N with true
      by (symmetry; apply N.ltb_lt; lia).
    rewrite (proj2 (nonempty_length _) HcurP). cbn [andb]. rewrite Hreq.
    unfold Earlier.addChunk. rewrite HcurE, HtokE.
    cbn [List.length Nat.ltb Nat.leb andb]. rewrite Bool.andb_false_r.
    cbn [ret app]. unfold Earlier.safetyCheck.
    cbn [Earlier.currentBatchTokens Earlier.currentBatch Earlier.allEmbeddings
         Earlier.skippedChunks]. rewrite N.add_0_l.
    destruct (MAX_BATCH_TOKENS <? tokens chunk)%N eqn:Hbig.
    + unfold bind at 1.
      destruct (createEmbeddings env [content chunk] wE) as [[e|response2] w2] eqn:Hreq2.
      * rewrite (pending_request_fails rest _ wE w2 e); [split; reflexivity| | |exact Hreq2].
        -- cbn [currentSubBatchTokens]. now apply N.ltb_lt.
        -- cbn [currentSubBatch]. discriminate.
      * cbn [ret]. apply (IHahead _ _ w2 wE response2); cbn [Earlier.currentBatch
          Earlier.currentBatchTokens Earlier.allEmbeddings currentSubBatch
          currentSubBatchTokens batchEmbeddings]; try reflexivity.
        -- discriminate.
        -- now apply N.ltb_lt.
        -- exact Hreq2.
        -- now rewrite !vectorsOf_app, !vectorsOf_some, Hvec.
        -- rewrite !length_app, !length_map. lia.
    + cbn [ret]. apply IHsame; cbn [Earlier.currentBatch Earlier.currentBatchTokens
        Earlier.allEmbeddings currentSubBatch currentSubBatchTokens batchEmbeddings];
        try reflexivity.
      * now rewrite vectorsOf_app, vectorsOf_some.
      * now rewrite length_app, length_map.
Qed.

(** The safety check of the earlier route changes no request: on every
    list of chunks and whatever the provider answers, the OpenAI branch
    of the earlier route and [processBatchEmbeddings] leave the same log
    of requests and the same world behind, fail with the same error or
    return results with the same vectors in the same order and as many
    entries.  Only the places of the placeholders can differ. *)
Theorem safety_check_changes_no_request (chunks : list FileItemChunk) (w : World Embedding) :
  agree (Earlier.openaiEmbeddings env chunks w)
        (processBatchEmbeddings env chunks "openai" w).
Proof.
  exact (proj1 (loops_agree chunks) (Earlier.mkBatch [] [] 0%N 0%nat)
               (mkState [] [] 0%N 0%nat) w eq_refl eq_refl eq_refl eq_refl).
Qed.

End EarlierLoop.


(* ================================================================== *)
(** * Uploads: what [createFile] leaves in the store *)
(* ================================================================== *)

Section ClientFacts.

Import Client.

Variable backend : Backend.

Local Open Scope string_scope.
Local Open Scope list_scope.

Lemma getObject_put (path bytes : string) (bucket : list (string * string)) :
  getObject path (putObject path bytes bucket) = Some bytes.
Proof. unfold getObject, putObject. cbn [find fst]. now rewrite String.eqb_refl. Qed.

(** The only row of a given id. *)
Lemma filter_single {A} (f : A -> bool) (l : list A) (x y : A) :
  filter f l = [x] -> In y l -> f y = true -> y = x.
Proof.
  intros Hf Hin Hy.
  assert (H : In y (filter f l)) by (apply filter_In; auto).
  rewrite Hf in H. destruct H as [H|[]]. now symmetry.
Qed.

(** What a call of [createFile] that returns has done: the row it
    returns carries the stored name and the path made of the owner and
    of the encoded stored name, the bucket holds the bytes of the upload
    at that path, and one timer of 100 ms is armed. *)
Lemma createFile_returns (file : File) (fileRecord : FileRecord) (workspace_id : string)
    (s s' : Store) (row : FileRow) :
  createFile backend file fileRecord workspace_id s = (inr row, s') ->
  f_name row = Upload.storedName (r_name fileRecord) (file_name file)
  /\ f_user_id row = r_user_id fileRecord
  /\ f_file_path row
     = (r_user_id fileRecord ++ "/"
        ++ base64 backend (Upload.storedName (r_name fileRecord) (file_name file)))%string
  /\ getObject (f_file_path row) (objects s') = Some (file_bytes file)
  /\ timers s' = timers s ++ [100%N].
Proof.
  unfold createFile, andThen, insertFile.
  destruct (insert_error backend _); [discriminate|].
  cbn [f_user_id f_id f_name r_user_id r_name r_file_path r_size r_tokens].
  set (createdFile := mkFile _ _ _ _ _ _ _ _ _ _).
  unfold createFileWorkspace. destruct (link_error backend _); [discriminate|].
  unfold uploadFile. cbn [rows file_workspaces objects timers].
  destruct (SIZE_LIMIT backend <? file_size file)%N; [discriminate|].
  set (filePath := (r_user_id fileRecord ++ "/" ++ base64 backend _)%string).
  destruct (upload_error backend filePath); [discriminate|].
  unfold updateFile. cbn [rows file_workspaces objects timers].
  destruct (filter _ (rows s ++ [createdFile])) as [|only [|]] eqn:Hone; try discriminate.
  unfold setTimeout, getFileById. cbn [rows file_workspaces objects timers].
  destruct (filter _ (map _ (rows s ++ [createdFile]))) as [|found [|]] eqn:Hfound;
    try discriminate.
  intros H. inversion H. subst found s'. clear H.
  cbn [objects timers].
  assert (Hin : In row [row]) by now left.
  rewrite <- Hfound in Hin.
  apply filter_In in Hin as [Hin Hid]. apply in_map_iff in Hin as (r0 & Hr0 & Hin0).
  destruct (String.eqb (f_id r0) (newId backend (rows s))) eqn:Hk.
  2:{ subst row. rewrite Hk in Hid. discriminate. }
  assert (Hcreated : r0 = only) by exact (filter_single _ _ _ _ Hone Hin0 Hk).
  assert (Honly : createdFile = only).
  { apply (filter_single _ _ _ _ Hone).
    - apply in_or_app. right. now left.
    - apply String.eqb_refl. }
  subst r0 only row. cbn [f_name f_user_id f_file_path setPath createdFile].
  repeat split; try reflexivity. apply getObject_put.
Qed.

(** The path of the object is made of the owner and of the stored name,
    not of the id of the row: when two uploads of one user get the same
    stored name, their rows carry the same path, and after the second
    upload the bucket holds at that path the bytes of the second; those
    of the first are gone. *)
Theorem same_name_uploads_share_object (fileA fileB : File) (recordA recordB : FileRecord)
    (workspaceA workspaceB : string) (s s1 s2 : Store) (rowA rowB : FileRow) :
  createFile backend fileA recordA workspaceA s = (inr rowA, s1) ->
  createFile backend fileB recordB workspaceB s1 = (inr rowB, s2) ->
  r_user_id recordA = r_user_id recordB ->
  Upload.storedName (r_name recordA) (file_name fileA)
  = Upload.storedName (r_name recordB) (file_name fileB) ->
  f_file_path rowA = f_file_path rowB
  /\ getObject (f_file_path rowA) (objects s1) = Some (file_bytes fileA)
  /\ getObject (f_file_path rowA) (objects s2) = Some (file_bytes fileB).
Proof.
  intros HA HB Huser Hname.
  destruct (createFile_returns _ _ _ _ _ _ HA) as (_ & _ & HpathA & HobjA & _).
  destruct (createFile_returns _ _ _ _ _ _ HB) as (_ & _ & HpathB & HobjB & _).
  assert (Hpath : f_file_path rowA = f_file_path rowB)
    by (rewrite HpathA, HpathB, Huser, Hname; reflexivity).
  split; [exact Hpath|]. split; [exact HobjA|]. now rewrite Hpath.
Qed.

(** An upload above the size limit is refused by [uploadFile] after the
    row and its link to the workspace have been written: [createFile]
    throws, the row stays in the table, with the stored name and the path
    of the record, no object is stored and no processing is scheduled. *)
Theorem oversize_upload_leaves_record (file : File) (fileRecord : FileRecord)
    (workspace_id : string) (s : Store) :
  insert_error backend
    (mkRecord (r_user_id fileRecord)
              (Upload.storedName (r_name fileRecord) (file_name file))
              (r_file_path fileRecord) (r_size fileRecord) (r_tokens fileRecord)) = None ->
  link_error backend (newId backend (rows s)) = None ->
  (SIZE_LIMIT backend < file_size file)%N ->
  createFile backend file fileRecord workspace_id s
  = (inl (Error ("File must be less than "
                 ++ NilZero.string_of_uint (N.to_uint (SIZE_LIMIT backend / 1000000))
                 ++ "MB")%string),
     mkStore (rows s
              ++ [mkFile (newId backend (rows s)) (r_user_id fileRecord)
                         (Upload.storedName (r_name fileRecord) (file_name file))
                         (r_file_path fileRecord) (r_size fileRecord)
                         (Some (r_tokens fileRecord)) pending None None None])
             (file_workspaces s
              ++ [(r_user_id fileRecord, newId backend (rows s), workspace_id)])
             (objects s) (timers s)).
Proof.
  intros Hinsert Hlink Hsize.
  unfold createFile, andThen, insertFile. rewrite Hinsert.
  cbn [f_user_id f_id f_name].
  unfold createFileWorkspace. rewrite Hlink.
  unfold uploadFile. apply N.ltb_lt in Hsize. rewrite Hsize. reflexivity.
Qed.

End ClientFacts.


(** "My File.pdf" and then "my_file.pdf", uploaded by the same user. *)
Lemma same_name_uploads_share_object_witness :
  Upload.storedName "My File.pdf" "My File.pdf" = Upload.storedName "my_file.pdf" "my_file.pdf"
  /\ Client.getObject "u1/my_file.pdf" (Client.objects Example.afterA) = Some "bytes of A"%string
  /\ Client.getObject "u1/my_file.pdf" (Client.objects Example.afterB) = Some "bytes of B"%string
  /\ map f_file_path (Client.rows Example.afterB) = ["u1/my_file.pdf"; "u1/my_file.pdf"]%string.
Proof.
  split; [reflexivity|].
  destruct (same_name_uploads_share_object Example.backend
              Example.fileA Example.fileB Example.recordA Example.recordB "w1" "w1"
              Example.empty Example.afterA Example.afterB
              (mkFile "f0" "u1" "my_file.pdf" "u1/my_file.pdf" 10 (Some 0%N) pending
                      None None None)
              (mkFile "f1" "u1" "my_file.pdf" "u1/my_file.pdf" 12 (Some 0%N) pending
                      None None None)
              eq_refl eq_refl eq_refl eq_refl) as (_ & HA & HB).
  split; [exact HA|]. split; [exact HB|reflexivity].
Defined.

(** An upload of 200000001 bytes under the default limit. *)
Lemma oversize_upload_leaves_record_witness :
  (Client.SIZE_LIMIT Example.backend < Client.file_size Example.big)%N
  /\ fst (Client.createFile Example.backend Example.big Example.bigRecord "w1" Example.empty)
     = inl (Error "File must be less than 200MB")
  /\ map f_name (Client.rows (snd (Client.createFile Example.backend Example.big
                                     Example.bigRecord "w1" Example.empty)))
     = ["big.pdf"%string].
Proof.
  assert (Hsize : (Client.SIZE_LIMIT Example.backend < Client.file_size Example.big)%N)
    by reflexivity.
  split; [exact Hsize|].
  rewrite (oversize_upload_leaves_record Example.backend Example.big Example.bigRecord "w1"
             Example.empty eq_refl eq_refl Hsize).
  split; reflexivity.
Defined.


(* ================================================================== *)
(** * A stored batch and the later requests *)
(* ================================================================== *)

Section StoredBatch.

Context {Embedding : Type}.
Variables env env2 : Env Embedding.

Local Open Scope string_scope.
Local Open Scope list_scope.
Local Open Scope route_scope.

(** Once a run has stored a batch of a file, every later valid request
    for the file is answered "File already processed" and does nothing,
    whether or not that run went to the end: a run stopped after its
    first batch is not resumed, and the rows on record stay those it
    stored. *)
Theorem stored_batch_blocks_later_runs (w : World Embedding) (profile profile2 : Profile)
    (file_id provider provider2 : string) (fileMetadata fileMetadata2 : FileRow)
    (fileBuffer : string) (chunks : list FileItemChunk) :
  ReachesExtraction env w profile file_id provider fileMetadata fileBuffer ->
  extractChunks env (toLowerCase (splitPop (f_name fileMetadata))) fileBuffer = inr chunks ->
  file_items (snd (POST env w)) <> file_items w ->
  ValidRequest env2 (snd (POST env w)) profile2 file_id provider2 fileMetadata2 ->
  items_fault env2 = false ->
  POST env2 (snd (POST env w)) = (inr alreadyProcessed, bodyRead (snd (POST env w))).
Proof.
  intros Hreach Hext Hstored Hvalid Hfault.
  apply (POST_already_processed env2 _ _ _ _ _ Hvalid).
  split; [exact Hfault|].
  rewrite POST_items, (reached_items env _ _ _ _ _ _ Hreach) in Hstored |- *.
  destruct (processFileInBatches_rows env file_id (p_user_id profile) provider _ _ chunks
              (claimed env file_id w) Hext) as (rows & k & Hrows & Hcore & _).
  rewrite Hrows in Hstored |- *. cbn [claimed file_items] in Hstored |- *.
  destruct rows as [|row rows]; [now rewrite app_nil_r in Hstored|].
  exists row. split; [apply in_or_app; right; now left|].
  destruct (storedChunks env k _ chunks) as [|chunk first]; [discriminate|].
  cbn [map] in Hcore. inversion Hcore. reflexivity.
Qed.

End StoredBatch.

(** The provider fails on the second batch of a file of 51 chunks: the
    run ends in error with 50 rows stored and the status [failed]; the
    next request gets "File already processed". *)
Lemma stored_batch_blocks_later_runs_witness :
  List.length (file_items (snd (POST Flaky.env (Demo.pendingWorld "notes.txt")))) = 50%nat
  /\ List.length Flaky.chunks = 51%nat
  /\ map processing_status (files (snd (POST Flaky.env (Demo.pendingWorld "notes.txt"))))
     = [failed]
  /\ fst (POST Demo.plainEnv (snd (POST Flaky.env (Demo.pendingWorld "notes.txt"))))
     = inr alreadyProcessed.
Proof.
  assert (Hreach : ReachesExtraction Flaky.env (Demo.pendingWorld "notes.txt")
                     Demo.profile "f1" "openai" (Demo.file "notes.txt" 10 pending) "bytes").
  { constructor; try reflexivity; try discriminate.
    - constructor; try reflexivity; [discriminate|now left|cbn; lia].
    - now right. }
  assert (Hvalid : ValidRequest Demo.plainEnv
                     (snd (POST Flaky.env (Demo.pendingWorld "notes.txt")))
                     Demo.profile "f1" "openai" Flaky.rowAfterRun).
  { constructor; try (vm_compute; reflexivity); [discriminate|now left|].
    vm_compute. discriminate. }
  assert (Hstored : file_items (snd (POST Flaky.env (Demo.pendingWorld "notes.txt")))
                    <> file_items (Demo.pendingWorld "notes.txt"))
    by (vm_compute; discriminate).
  assert (Hext : extractChunks Flaky.env
                   (toLowerCase (splitPop (f_name (Demo.file "notes.txt" 10 pending))))
                   "bytes" = inr Flaky.chunks) by reflexivity.
  assert (Hfault : items_fault Demo.plainEnv = false) by reflexivity.
  split; [vm_compute; reflexivity|]. split; [reflexivity|].
  split; [vm_compute; reflexivity|].
  rewrite (stored_batch_blocks_later_runs Flaky.env Demo.plainEnv
             (Demo.pendingWorld "notes.txt") Demo.profile Demo.profile "f1" "openai"
             "openai" (Demo.file "notes.txt" 10 pending) Flaky.rowAfterRun "bytes"
             Flaky.chunks Hreach Hext Hstored Hvalid Hfault).
  reflexivity.
Defined.


(* ================================================================== *)
(** * Word files: [createDocXFile] when the processing fails *)
(* ================================================================== *)

Section DocXFacts.

Import Client.

Variable backend : Backend.

Local Open Scope string_scope.
Local Open Scope list_scope.

Lemma filter_out_none (fileId : string) (table : list FileRow) :
  filter (fun row => String.eqb (f_id row) fileId)
         (filter (fun row => negb (String.eqb (f_id row) fileId)) table) = [].
Proof.
  induction table as [|row table IH]; [reflexivity|]. cbn [filter].
  destruct (String.eqb (f_id row) fileId) eqn:Hid; cbn [negb]; [exact IH|].
  cbn [filter]. now rewrite Hid.
Qed.

Lemma filter_out_fresh (fileId : string) (table : list FileRow) :
  filter (fun row => String.eqb (f_id row) fileId) table = [] ->
  filter (fun row => negb (String.eqb (f_id row) fileId)) table = table.
Proof.
  induction table as [|row table IH]; [reflexivity|]. cbn [filter].
  destruct (String.eqb (f_id row) fileId); [discriminate|].
  intros H. cbn [negb]. now rewrite (IH H).
Qed.

Lemma filter_out_moved (fileId filePath : string) (table : list FileRow) :
  filter (fun row => negb (String.eqb (f_id row) fileId))
         (map (fun r => if String.eqb (f_id r) fileId then setPath filePath r else r) table)
  = filter (fun row => negb (String.eqb (f_id row) fileId)) table.
Proof.
  induction table as [|row table IH]; [reflexivity|].
  cbn [map filter]. destruct (String.eqb (f_id row) fileId) eqn:Hid.
  - cbn [setPath f_id]. rewrite Hid. cbn [negb]. exact IH.
  - rewrite Hid. cbn [negb]. now rewrite IH.
Qed.

Lemma filter_moved_fresh (fileId filePath : string) (table : list FileRow) :
  filter (fun row => String.eqb (f_id row) fileId) table = [] ->
  filter (fun row => String.eqb (f_id row) fileId)
         (map (fun r => if String.eqb (f_id r) fileId then setPath filePath r else r) table)
  = [].
Proof.
  induction table as [|row table IH]; [reflexivity|]. cbn [filter map].
  destruct (String.eqb (f_id row) fileId) eqn:Hid; [discriminate|].
  rewrite Hid. exact IH.
Qed.

(** After an answer of the docx route that is not ok, [createDocXFile]
    deletes the row and then looks it up by its id: the call can only
    throw, it returns no file.  When every step up to there succeeds and
    the id is new, the table [files] is back to what it was before the
    call; [createDocXFile] itself removes neither the link to the
    workspace nor the uploaded object, so what is left of them is what
    the schema makes of them on the deletion of the row. *)
Theorem failed_docx_processing_never_returns (text : string) (file : File)
    (fileRecord : FileRecord) (workspace_id : string) (s : Store)
    (response : Driver.FetchResponse) :
  docx_fetch backend text (newId backend (rows s)) = inr response ->
  Driver.ok response = false ->
  (exists e, fst (createDocXFile backend text file fileRecord workspace_id s) = inl e)
  /\ (forall reason,
         insert_error backend fileRecord = None ->
         link_error backend (newId backend (rows s)) = None ->
         (file_size file <= SIZE_LIMIT backend)%N ->
         upload_error backend
           (r_user_id fileRecord ++ "/" ++ base64 backend (r_name fileRecord))%string = false ->
         filter (fun row => String.eqb (f_id row) (newId backend (rows s))) (rows s) = [] ->
         Driver.json_message response = inr reason ->
         delete_error backend (newId backend (rows s)) = None ->
         let filePath :=
           (r_user_id fileRecord ++ "/" ++ base64 backend (r_name fileRecord))%string in
         let deleted :=
           [mkFile (newId backend (rows s)) (r_user_id fileRecord) (r_name fileRecord)
                   filePath (r_size fileRecord) (Some (r_tokens fileRecord))
                   pending None None None] in
         createDocXFile backend text file fileRecord workspace_id s
         = (inl (Error (single_error backend)),
            mkStore (rows s)
                    (cascade_workspaces backend deleted
                       (file_workspaces s
                        ++ [(r_user_id fileRecord, newId backend (rows s), workspace_id)]))
                    (cascade_objects backend deleted
                       (putObject filePath (file_bytes file) (objects s)))
                    (timers s))).
Proof.
  intros Hfetch Hok. split.
  - unfold createDocXFile, andThen, insertFile.
    destruct (insert_error backend fileRecord); [eexists; reflexivity|].
    cbn [f_user_id f_id f_name].
    unfold createFileWorkspace. destruct (link_error backend _); [eexists; reflexivity|].
    unfold uploadFile. cbn [rows file_workspaces objects timers].
    destruct (SIZE_LIMIT backend <? file_size file)%N; [eexists; reflexivity|].
    destruct (upload_error backend _); [eexists; reflexivity|].
    unfold updateFile. cbn [rows file_workspaces objects timers].
    destruct (filter _ (rows s ++ _)) as [|only [|]]; try (eexists; reflexivity).
    unfold processDocX. rewrite Hfetch, Hok.
    destruct (Driver.json_message response); [eexists; reflexivity|].
    unfold deleteFile. destruct (delete_error backend _); [eexists; reflexivity|].
    unfold getFileById. cbn [rows file_workspaces objects timers].
    rewrite filter_out_none. eexists; reflexivity.
  - intros reason Hinsert Hlink Hsize Hupload Hfresh Hjson Hdelete filePath deleted.
    subst filePath deleted.
    unfold createDocXFile, andThen, insertFile. rewrite Hinsert.
    cbn [f_user_id f_id f_name].
    unfold createFileWorkspace. rewrite Hlink.
    unfold uploadFile. cbn [rows file_workspaces objects timers].
    apply N.ltb_ge in Hsize. rewrite Hsize, Hupload.
    unfold updateFile. cbn [rows file_workspaces objects timers].
    rewrite filter_app, Hfresh. cbn [filter f_id app]. rewrite String.eqb_refl.
    unfold processDocX. rewrite Hfetch, Hok, Hjson.
    unfold deleteFile. rewrite Hdelete.
    unfold getFileById. cbn [rows file_workspaces objects timers].
    rewrite filter_out_none.
    rewrite !map_app, !filter_app. cbn [map filter f_id].
    rewrite String.eqb_refl. cbn [setPath f_id negb filter].
    rewrite String.eqb_refl. cbn [negb]. rewrite app_nil_r.
    rewrite filter_out_moved, (filter_out_fresh _ _ Hfresh).
    rewrite (filter_moved_fresh _ _ _ Hfresh). reflexivity.
Qed.

End DocXFacts.

(** A Word file whose processing the route refuses, at the example
    backend. *)
Lemma failed_docx_processing_never_returns_witness :
  Driver.ok (Driver.mkFetch false (inr "Unsupported file type"%string) 0) = false
  /\ Client.createDocXFile Example.backend "Dear reader" Example.letter Example.letterRecord
       "w1" Example.empty
     = (inl (Error "JSON object requested, multiple (or no) rows returned"),
        Client.mkStore [] []
                       [("u1/letter.docx", "bytes of the letter")]%string []).
Proof.
  split; [reflexivity|].
  exact (proj2 (failed_docx_processing_never_returns Example.backend "Dear reader"
                  Example.letter Example.letterRecord "w1" Example.empty
                  (Driver.mkFetch false (inr "Unsupported file type"%string) 0)
                  eq_refl eq_refl)
               "Unsupported file type"%string eq_refl eq_refl
               ltac:(vm_compute; discriminate) eq_refl eq_refl eq_refl eq_refl).
Defined.
